(** * near-me: the amenity search and ranking engine of [server.py]

    A shallow embedding of [haversine_km] and [overpass_query], of the
    tools and of the route [call_tool] that call them, and the properties
    of the engine and of the route stated over it.

    Numbers are IEEE-754 binary64 values (Rocq's primitive floats), as in
    CPython.  The transcendental functions of the C math library, the
    float power operator and the decimal printing of a float have no
    definition in terms of the IEEE operations; they are the fields of the
    class [Platform].  The decoded JSON body is a dynamically typed Python
    value ([pyval]); every operation that can raise returns a [result]. *)

From Stdlib Require Import Floats ZArith List String Ascii Bool Lia.
From Stdlib Require Import Permutation Sorted DecimalString QArith Qround.
From Stdlib Require Import DecimalZ DecimalPos.
Import ListNotations.

Set Warnings "-register-all".
Local Open Scope Z_scope.
Local Open Scope string_scope.

(** ** Exceptions and results *)

Inductive exn : Type :=
| ConnectionError
| Timeout
| HTTPError
| JSONDecodeError
| AttributeError
| TypeError
| KeyError
| ValueError
| OverflowError.

Inductive result (A : Type) : Type :=
| Ok (a : A)
| Raise (e : exn).

Arguments Ok {A} a.
Arguments Raise {A} e.

Definition bind {A B : Type} (r : result A) (k : A -> result B) : result B :=
  match r with
  | Ok a => k a
  | Raise e => Raise e
  end.

Notation "x <- e ;; k" := (bind e (fun x => k))
  (at level 61, e at next level, right associativity).

Definition fmap {A B : Type} (f : A -> B) (r : result A) : result B :=
  x <- r ;; Ok (f x).

Definition raises {A : Type} (r : result A) : Prop :=
  exists e, r = Raise e.

(** ** Floats *)

(** [math.radians]: multiplication by the double nearest to pi/180. *)
Definition degToRad : float := 0x1.1df46a2529d39p-6%float.

Definition radians (x : float) : float := (x * degToRad)%float.

(** [math.sqrt]: a negative argument is a domain error; a NaN is passed
    through. *)
Definition math_sqrt (x : float) : result float :=
  if (x <? 0)%float then Raise ValueError else Ok (sqrt x).

(** [int(x)] on a float: truncation toward zero; [ValueError] on a NaN,
    [OverflowError] on an infinity. *)
Definition int_of_float (x : float) : result Z :=
  match Prim2SF x with
  | S754_nan => Raise ValueError
  | S754_infinity _ => Raise OverflowError
  | S754_zero _ => Ok 0
  | S754_finite s m e => Ok (cond_Zopp s (Z.shiftl (Zpos m) e))
  end.

(** The conversion of a Python integer to a float (round to nearest even);
    [OverflowError] when the integer is too large. *)
Definition float_of_int (z : Z) : result float :=
  let f := SF2Prim (binary_normalize prec emax z 0 false) in
  if is_infinity f then Raise OverflowError else Ok f.

(** What the program takes from the C library and the CPython runtime. *)
Class Platform : Type := {
  math_sin : float -> result float;
  math_cos : float -> result float;
  math_atan2 : float -> float -> result float;
  float_pow : float -> float -> result float;
  float_str : float -> string
}.

(** ** The distance calculator *)

Section Haversine.
Context {P : Platform}.

Definition haversine_km (lat1 lon1 lat2 lon2 : float) : result float :=
  let R := 6371.0%float in
  let phi1 := radians lat1 in
  let phi2 := radians lat2 in
  let dphi := radians (lat2 - lat1) in
  let dlambda := radians (lon2 - lon1) in
  s1 <- math_sin (dphi / 2) ;;
  p1 <- float_pow s1 2 ;;
  c1 <- math_cos phi1 ;;
  c2 <- math_cos phi2 ;;
  s2 <- math_sin (dlambda / 2) ;;
  p2 <- float_pow s2 2 ;;
  let a := (p1 + c1 * c2 * p2)%float in
  y <- math_sqrt a ;;
  x <- math_sqrt (1 - a) ;;
  t <- math_atan2 y x ;;
  Ok (R * 2 * t)%float.

End Haversine.

(** ** Python values *)

(** A decoded JSON document.  A [dict] is an association list read by its
    first binding of a key. *)
Inductive pyval : Type :=
| PNone
| PBool (b : bool)
| PInt (z : Z)
| PFloat (f : float)
| PStr (s : string)
| PList (l : list pyval)
| PDict (d : list (string * pyval)).

Fixpoint dict_get (d : list (string * pyval)) (k : string) : option pyval :=
  match d with
  | [] => None
  | (k', v) :: d' => if String.eqb k k' then Some v else dict_get d' k
  end.

(** [o.get(k, default)]: only a dict has the method. *)
Definition py_get (o : pyval) (k : string) (default : pyval) : result pyval :=
  match o with
  | PDict d =>
      Ok (match dict_get d k with Some v => v | None => default end)
  | _ => Raise AttributeError
  end.

(** [o[k]] with a string key. *)
Definition py_getitem (o : pyval) (k : string) : result pyval :=
  match o with
  | PDict d =>
      match dict_get d k with Some v => Ok v | None => Raise KeyError end
  | _ => Raise TypeError
  end.

(** Truth value testing. *)
Definition truthy (v : pyval) : bool :=
  match v with
  | PNone => false
  | PBool b => b
  | PInt z => negb (z =? 0)%Z
  | PFloat f => negb (f =? 0)%float
  | PStr s => negb (String.eqb s EmptyString)
  | PList l => negb (Nat.eqb (List.length l) 0)
  | PDict d => negb (Nat.eqb (List.length d) 0)
  end.

(** [a or b]: [b] is evaluated only when [a] is false. *)
Definition py_or (a b : result pyval) : result pyval :=
  x <- a ;; if truthy x then Ok x else b.

Definition is_none (v : pyval) : bool :=
  match v with PNone => true | _ => false end.

(** [v == s] for a string literal [s]. *)
Definition eq_str (v : pyval) (s : string) : bool :=
  match v with PStr t => String.eqb t s | _ => false end.

(** The items a [for] loop visits. *)
Definition py_iter (v : pyval) : result (list pyval) :=
  match v with
  | PList l => Ok l
  | PDict d => Ok (map (fun kv => PStr (fst kv)) d)
  | PStr s =>
      Ok (map (fun c => PStr (String c EmptyString)) (list_ascii_of_string s))
  | _ => Raise TypeError
  end.

Fixpoint expect_strs (l : list pyval) : result (list string) :=
  match l with
  | [] => Ok []
  | PStr s :: l' => ss <- expect_strs l' ;; Ok (s :: ss)
  | _ :: _ => Raise TypeError
  end.

(** [sep.join(l)]: every item must be a string. *)
Definition str_join (sep : string) (l : list pyval) : result string :=
  ss <- expect_strs l ;; Ok (String.concat sep ss).

(** The float a number stands for where the math functions and float
    arithmetic receive it. *)
Definition as_float (v : pyval) : result float :=
  match v with
  | PFloat f => Ok f
  | PInt z => float_of_int z
  | PBool b => Ok (if b then 1 else 0)%float
  | _ => Raise TypeError
  end.

(** [sorted(l, key=key)]: Python's sort is stable and compares keys with
    [<] only.  Where [<] orders the keys totally, that is where no key is
    a NaN, the sorted and stable rearrangement of a list is unique
    ([sorted_characterised] below) and this insertion sort computes it.
    What Python returns on keys with a NaN depends on its algorithm, and
    this function stands for it only where no key is a NaN ([no_nan]):
    the statements below about the order of the output carry that
    condition, or rest on the length and the members of the list alone. *)
Section Sorted.
Context {A : Type} (key : A -> float).

Fixpoint insert_by (r : A) (l : list A) : list A :=
  match l with
  | [] => [r]
  | x :: l' =>
      if (key x <? key r)%float then x :: insert_by r l' else r :: l
  end.

Definition sorted (l : list A) : list A := fold_right insert_by [] l.

End Sorted.

(** [l[:n]]: a negative [n] counts from the end. *)
Definition slice_to {A : Type} (l : list A) (n : Z) : list A :=
  if (0 <=? n)%Z then firstn (Z.to_nat n) l
  else firstn (List.length l - Z.to_nat (- n))%nat l.

(** [str(z)] for an integer. *)
Definition int_str (z : Z) : string :=
  NilZero.string_of_int (Z.to_int z).

(** ** Configuration and transport *)

(** The module-level settings read from the environment. *)
Record Config : Type := {
  OVERPASS_URL : string;
  MAX_RESULTS : Z
}.

(** The settings when the environment sets none of them. *)
Definition default_config : Config :=
  {| OVERPASS_URL := "https://overpass-api.de/api/interpreter";
     MAX_RESULTS := 6 |}.

(** What the program reads of a [requests.Response]: the status code and
    the outcome of [res.json()]. *)
Record response : Type := {
  status_code : Z;
  json : result pyval
}.

(** [requests.post(url, data=..., timeout=...)]: the reply of the backend,
    or the exception of a transport failure. *)
Definition Network : Type := string -> string -> Z -> result response.

(** [res.raise_for_status()]: an [HTTPError] on a 4xx or 5xx status. *)
Definition raise_for_status (res : response) : result unit :=
  if ((400 <=? status_code res) && (status_code res <? 600))%Z
  then Raise HTTPError else Ok tt.

(** ** The amenity search engine *)

Record AmenityResult : Type := {
  name : pyval;
  address : pyval;
  contact : pyval;
  lat : pyval;
  lon : pyval;
  distance_km : float
}.

Definition dq : string := String (ascii_of_nat 34) EmptyString.
Definition nl : string := String (ascii_of_nat 10) EmptyString.

Definition ADDR_KEYS : list string :=
  ["addr:street"; "addr:housenumber"; "addr:city";
   "addr:postcode"; "addr:state"; "addr:country"].

(** [[tags.get(k) for k in ks if tags.get(k)]] *)
Fixpoint addr_parts (tags : pyval) (ks : list string) : result (list pyval) :=
  match ks with
  | [] => Ok []
  | k :: ks' =>
      c <- py_get tags k PNone ;;
      if truthy c then
        v <- py_get tags k PNone ;;
        rest <- addr_parts tags ks' ;;
        Ok (v :: rest)
      else addr_parts tags ks'
  end.

Section Engine.
Context {P : Platform}.

(** The text of the query, lines 43 to 51. *)
Definition query_text (amenity : string) (radius_m : Z) (lat lon : float)
  : string :=
  nl ++
  "[out:json][timeout:25];" ++ nl ++
  "(" ++ nl ++
  "  node[" ++ dq ++ "amenity" ++ dq ++ "=" ++ dq ++ amenity ++ dq
    ++ "](around:" ++ int_str radius_m ++ "," ++ float_str lat ++ ","
    ++ float_str lon ++ ");" ++ nl ++
  "  way[" ++ dq ++ "amenity" ++ dq ++ "=" ++ dq ++ amenity ++ dq
    ++ "](around:" ++ int_str radius_m ++ "," ++ float_str lat ++ ","
    ++ float_str lon ++ ");" ++ nl ++
  "  relation[" ++ dq ++ "amenity" ++ dq ++ "=" ++ dq ++ amenity ++ dq
    ++ "](around:" ++ int_str radius_m ++ "," ++ float_str lat ++ ","
    ++ float_str lon ++ ");" ++ nl ++
  ");" ++ nl ++
  "out center;" ++ nl.

(** The effective coordinate of an element, lines 65 to 68. *)
Definition coordinate (el : pyval) : result (pyval * pyval) :=
  ty <- py_getitem el "type" ;;
  if eq_str ty "node" then
    lat_e <- py_get el "lat" PNone ;;
    lon_e <- py_get el "lon" PNone ;;
    Ok (lat_e, lon_e)
  else
    c1 <- py_get el "center" (PDict []) ;;
    lat_e <- py_get c1 "lat" PNone ;;
    c2 <- py_get el "center" (PDict []) ;;
    lon_e <- py_get c2 "lon" PNone ;;
    Ok (lat_e, lon_e).

(** The body of the loop, lines 57 to 79: [Ok None] is [continue]. *)
Definition process_element (lat0 lon0 : float) (el : pyval)
  : result (option AmenityResult) :=
  tags <- py_get el "tags" (PDict []) ;;
  name <- py_or (py_get tags "name" PNone)
            (py_or (py_get tags "operator" PNone) (Ok (PStr "Unknown"))) ;;
  phone <- py_or (py_get tags "phone" PNone)
             (py_or (py_get tags "contact:phone" PNone)
                (py_get tags "telephone" PNone)) ;;
  parts <- addr_parts tags ADDR_KEYS ;;
  joined <- str_join ", " parts ;;
  address <- py_or (Ok (PStr joined))
               (py_get tags "addr:full" (PStr "Not available")) ;;
  ll <- coordinate el ;;
  let '(lat_e, lon_e) := ll in
  if is_none lat_e || is_none lon_e then Ok None
  else
    contact <- py_or (Ok phone) (Ok (PStr "Not available")) ;;
    lat2 <- as_float lat_e ;;
    lon2 <- as_float lon_e ;;
    d <- haversine_km lat0 lon0 lat2 lon2 ;;
    Ok (Some {| name := name; address := address; contact := contact;
                lat := lat_e; lon := lon_e; distance_km := d |}).

(** The loop, lines 55 to 79, with [results] as the accumulator. *)
Fixpoint collect (lat0 lon0 : float) (els : list pyval)
    (results : list AmenityResult) : result (list AmenityResult) :=
  match els with
  | [] => Ok results
  | el :: els' =>
      r <- process_element lat0 lon0 el ;;
      collect lat0 lon0 els'
        (match r with Some x => (results ++ [x])%list | None => results end)
  end.

(** Lines 53 to 79: the checks on the reply and the loop over its
    elements; the value is [results] as line 81 finds it. *)
Definition collect_reply (lat0 lon0 : float) (reply : result response)
  : result (list AmenityResult) :=
  res <- reply ;;
  _ <- raise_for_status res ;;
  body <- json res ;;
  elements <- py_get body "elements" (PList []) ;;
  els <- py_iter elements ;;
  collect lat0 lon0 els [].

(** Lines 53 to 81: what the engine does with the reply. *)
Definition process_reply (cfg : Config) (lat0 lon0 : float)
    (reply : result response) : result (list AmenityResult) :=
  results <- collect_reply lat0 lon0 reply ;;
  Ok (slice_to (sorted distance_km results) (MAX_RESULTS cfg)).

Definition overpass_query (cfg : Config) (post : Network)
    (lat0 lon0 radius_km : float) (amenity : string)
  : result (list AmenityResult) :=
  radius_m <- int_of_float (radius_km * 1000) ;;
  let query := query_text amenity radius_m lat0 lon0 in
  process_reply cfg lat0 lon0 (post (OVERPASS_URL cfg) query 30).

End Engine.

(** ** The specification's vocabulary *)

(** A GeoPoint: latitude in [-90, 90], longitude in [-180, 180]. *)
Definition valid_lat (x : float) : bool := ((-90 <=? x) && (x <=? 90))%float.
Definition valid_lon (x : float) : bool := ((-180 <=? x) && (x <=? 180))%float.

(** The rational number a finite float stands for. *)
Definition SF2Q (x : spec_float) : option Q :=
  match x with
  | S754_zero _ => Some (0 # 1)
  | S754_finite s m e =>
      Some (match e with
            | Zneg k => cond_Zopp s (Zpos m) # Pos.pow 2 k
            | _ => (cond_Zopp s (Zpos m) * 2 ^ e) # 1
            end)
  | _ => None
  end.

Definition float_value (x : float) : option Q := SF2Q (Prim2SF x).

(** Rounding a rational toward zero. *)
Definition Qtrunc (q : Q) : Z :=
  if Qle_bool (0 # 1) q then Qfloor q else Qceiling q.

(** The platform facts the distance properties rest on: the C standard
    fixes the value of [sin] and [atan2] at zero, [sin] is odd, the square
    of a float does not depend on its sign, and a cosine lies in [-1, 1]. *)
Definition sin_zero (P : Platform) : Prop := math_sin 0 = Ok 0%float.

Definition sin_odd (P : Platform) : Prop :=
  forall x, math_sin (- x) = fmap opp (math_sin x).

Definition square_zero (P : Platform) : Prop := float_pow 0 2 = Ok 0%float.

Definition square_even (P : Platform) : Prop :=
  forall x, float_pow (- x) 2 = float_pow x 2.

Definition atan2_zero (P : Platform) : Prop := math_atan2 0 1 = Ok 0%float.

Definition cos_range (P : Platform) : Prop :=
  forall x, is_finite x = true ->
    exists c, math_cos x = Ok c /\ (abs c <=? 1)%float = true.

(** CPython raises rather than return an infinity or a NaN that its
    argument does not account for. *)
Definition sin_finite (P : Platform) : Prop :=
  forall x s, math_sin x = Ok s -> is_nan x = false -> is_finite s = true.

Definition square_finite (P : Platform) : Prop :=
  forall x p, float_pow x 2 = Ok p -> is_finite x = true ->
    is_finite p = true.

Definition atan2_not_nan (P : Platform) : Prop :=
  forall y x t, math_atan2 y x = Ok t ->
    is_nan y = false -> is_nan x = false -> is_nan t = false.

(** The structure of an Overpass QL request as the specification describes
    it: settings, a union of filtered geometry selectors, an output
    statement. *)
Inductive geometry : Type := Node | Way | Relation.

Definition geometry_name (g : geometry) : string :=
  match g with
  | Node => "node"
  | Way => "way"
  | Relation => "relation"
  end.

(** The coordinates of a filter are the decimal texts the query carries. *)
Record selector : Type := {
  sel_geometry : geometry;
  sel_tag_key : string;
  sel_tag_value : string;
  around_radius : Z;
  around_lat : string;
  around_lon : string
}.

Record ql_request : Type := {
  ql_format : string;
  ql_timeout : Z;
  ql_union : list selector;
  ql_out_center : bool
}.

Definition render_selector (s : selector) : string :=
  "  " ++ geometry_name (sel_geometry s)
  ++ "[" ++ dq ++ sel_tag_key s ++ dq ++ "=" ++ dq ++ sel_tag_value s ++ dq
  ++ "](around:" ++ int_str (around_radius s) ++ ","
  ++ around_lat s ++ "," ++ around_lon s
  ++ ");" ++ nl.

Definition render (q : ql_request) : string :=
  nl ++ "[out:" ++ ql_format q ++ "][timeout:" ++ int_str (ql_timeout q)
  ++ "];" ++ nl
  ++ "(" ++ nl
  ++ String.concat EmptyString (map render_selector (ql_union q))
  ++ ");" ++ nl
  ++ (if ql_out_center q then "out center;" else "out;") ++ nl.

(** The request of section 4.2, step 1. *)
Definition spec_request {P : Platform} (amenity_kind : string)
    (radius_meters : Z) (lat lon : float) : ql_request :=
  {| ql_format := "json";
     ql_timeout := 25;
     ql_union :=
       map (fun g => {| sel_geometry := g;
                        sel_tag_key := "amenity";
                        sel_tag_value := amenity_kind;
                        around_radius := radius_meters;
                        around_lat := float_str lat;
                        around_lon := float_str lon |})
           [Node; Way; Relation];
     ql_out_center := true |}.

(** ** Reading a query back

    A request is not its text: the printer writes the tag texts between
    double quotes as they are, so two requests can have one text.  What a
    posted text asks for is what a reader of the query language finds in
    it.  [parse_query] reads the fragment of Overpass QL the engine
    writes: settings, a union of selectors with one tag filter and one
    [around] filter each, an output statement.  A quoted string ends at
    the next double quote; the reader refuses a backslash in it (an
    escape), so it reads the strings that stand for themselves. *)

Definition obind {A B : Type} (o : option A) (k : A -> option B) : option B :=
  match o with
  | Some a => k a
  | None => None
  end.

Notation "x <~ e ;; k" := (obind e (fun x => k))
  (at level 61, e at next level, right associativity).

(** [s] without its prefix [p]. *)
Fixpoint strip_prefix (p s : string) : option string :=
  match p with
  | EmptyString => Some s
  | String a p' =>
      match s with
      | String b s' => if Ascii.eqb a b then strip_prefix p' s' else None
      | EmptyString => None
      end
  end.

(** The longest prefix of characters that satisfy [f], and the rest. *)
Fixpoint span (f : ascii -> bool) (s : string) : string * string :=
  match s with
  | EmptyString => (EmptyString, EmptyString)
  | String c s' =>
      if f c then (String c (fst (span f s')), snd (span f s'))
      else (EmptyString, s)
  end.

(** Where [span f] stops: at the end or at a character that fails [f]. *)
Definition stops (f : ascii -> bool) (s : string) : Prop :=
  match s with
  | EmptyString => True
  | String c _ => f c = false
  end.

Fixpoint all_chars (f : ascii -> bool) (s : string) : bool :=
  match s with
  | EmptyString => true
  | String c s' => f c && all_chars f s'
  end.

Definition nonempty (s : string) : bool :=
  match s with
  | EmptyString => false
  | String _ _ => true
  end.

Definition is_digit (c : ascii) : bool :=
  ((48 <=? nat_of_ascii c) && (nat_of_ascii c <=? 57))%nat.

Definition is_lower (c : ascii) : bool :=
  ((97 <=? nat_of_ascii c) && (nat_of_ascii c <=? 122))%nat.

(** The characters of an integer and of a decimal number. *)
Definition int_char (c : ascii) : bool :=
  is_digit c || Ascii.eqb c "-".

Definition number_char (c : ascii) : bool :=
  is_digit c || Ascii.eqb c "-" || Ascii.eqb c "+" || Ascii.eqb c "."
  || Ascii.eqb c "e" || Ascii.eqb c "E".

(** The characters that stand for themselves between double quotes: all
    but the double quote and the backslash. *)
Definition plain_char (c : ascii) : bool :=
  negb (Ascii.eqb c (ascii_of_nat 34)) && negb (Ascii.eqb c (ascii_of_nat 92)).

Definition plain_text (s : string) : bool := all_chars plain_char s.

Definition number_text (s : string) : bool :=
  nonempty s && all_chars number_char s.

Definition ident_text (s : string) : bool :=
  nonempty s && all_chars is_lower s.

Definition parse_Z (s : string) : option Z :=
  option_map Z.of_int (NilZero.int_of_string s).

Definition parse_int (s : string) : option (Z * string) :=
  z <~ parse_Z (fst (span int_char s)) ;;
  Some (z, snd (span int_char s)).

Definition parse_number (s : string) : option (string * string) :=
  if nonempty (fst (span number_char s))
  then Some (span number_char s) else None.

Definition parse_ident (s : string) : option (string * string) :=
  if nonempty (fst (span is_lower s))
  then Some (span is_lower s) else None.

Definition parse_quoted (s : string) : option (string * string) :=
  s1 <~ strip_prefix dq s ;;
  s2 <~ strip_prefix dq (snd (span plain_char s1)) ;;
  Some (fst (span plain_char s1), s2).

Definition parse_geometry (s : string) : option (geometry * string) :=
  match strip_prefix "node" s with
  | Some r => Some (Node, r)
  | None =>
      match strip_prefix "way" s with
      | Some r => Some (Way, r)
      | None =>
          match strip_prefix "relation" s with
          | Some r => Some (Relation, r)
          | None => None
          end
      end
  end.

(** One selector: two blanks, the geometry, a tag filter in brackets, an
    [around] filter in parentheses, a semicolon, a line break. *)
Definition parse_selector (s : string) : option (selector * string) :=
  s <~ strip_prefix "  " s ;;
  g <~ parse_geometry s ;;
  s <~ strip_prefix "[" (snd g) ;;
  k <~ parse_quoted s ;;
  s <~ strip_prefix "=" (snd k) ;;
  v <~ parse_quoted s ;;
  s <~ strip_prefix "](around:" (snd v) ;;
  r <~ parse_int s ;;
  s <~ strip_prefix "," (snd r) ;;
  la <~ parse_number s ;;
  s <~ strip_prefix "," (snd la) ;;
  lo <~ parse_number s ;;
  s <~ strip_prefix ");" (snd lo) ;;
  s <~ strip_prefix nl s ;;
  Some ({| sel_geometry := fst g;
           sel_tag_key := fst k;
           sel_tag_value := fst v;
           around_radius := fst r;
           around_lat := fst la;
           around_lon := fst lo |}, s).

(** The selectors up to the [);] that closes the union. *)
Fixpoint parse_selectors (fuel : nat) (s : string)
  : option (list selector * string) :=
  match strip_prefix ");" s with
  | Some _ => Some ([], s)
  | None =>
      match fuel with
      | O => None
      | S n =>
          x <~ parse_selector s ;;
          xs <~ parse_selectors n (snd x) ;;
          Some (fst x :: fst xs, snd xs)
      end
  end.

Definition parse_out (s : string) : option (bool * string) :=
  match strip_prefix "out center;" s with
  | Some r => Some (true, r)
  | None =>
      match strip_prefix "out;" s with
      | Some r => Some (false, r)
      | None => None
      end
  end.

(** The whole text; every selector takes one character at least, so the
    length of the text is fuel enough. *)
Definition parse_query (s : string) : option ql_request :=
  s <~ strip_prefix nl s ;;
  s <~ strip_prefix "[out:" s ;;
  f <~ parse_ident s ;;
  s <~ strip_prefix "][timeout:" (snd f) ;;
  t <~ parse_int s ;;
  s <~ strip_prefix "];" (snd t) ;;
  s <~ strip_prefix nl s ;;
  s <~ strip_prefix "(" s ;;
  s <~ strip_prefix nl s ;;
  u <~ parse_selectors (String.length s) s ;;
  s <~ strip_prefix ");" (snd u) ;;
  s <~ strip_prefix nl s ;;
  o <~ parse_out s ;;
  s <~ strip_prefix nl (snd o) ;;
  match s with
  | EmptyString =>
      Some {| ql_format := fst f; ql_timeout := fst t;
              ql_union := fst u; ql_out_center := fst o |}
  | String _ _ => None
  end.

(** The requests whose text is read back: a format in lower-case
    letters, plain tag texts, coordinates that are decimal numbers. *)
Definition wf_selector (s : selector) : bool :=
  plain_text (sel_tag_key s) && plain_text (sel_tag_value s)
  && number_text (around_lat s) && number_text (around_lon s).

Definition wf_request (q : ql_request) : bool :=
  ident_text (ql_format q) && forallb wf_selector (ql_union q).

(** An amenity kind that closes its string and goes on with a filter and
    a selector of its own, and the request its query asks for. *)
Definition quoted_amenity : string :=
  "x" ++ dq ++ "](around:1,0,0);" ++ nl
  ++ "  node[" ++ dq ++ "amenity" ++ dq ++ "=" ++ dq ++ "y".

Definition quoted_request {P : Platform} (radius_meters : Z)
    (lat lon : float) : ql_request :=
  {| ql_format := "json";
     ql_timeout := 25;
     ql_union :=
       flat_map
         (fun g => [{| sel_geometry := g;
                       sel_tag_key := "amenity";
                       sel_tag_value := "x";
                       around_radius := 1;
                       around_lat := "0";
                       around_lon := "0" |};
                    {| sel_geometry := Node;
                       sel_tag_key := "amenity";
                       sel_tag_value := "y";
                       around_radius := radius_meters;
                       around_lat := float_str lat;
                       around_lon := float_str lon |}])
         [Node; Way; Relation];
     ql_out_center := true |}.

(** The field derivation rules of section 3, read literally: a key is
    present when the tag bag binds it. *)
Fixpoint first_present (d : list (string * pyval)) (ks : list string)
  : option pyval :=
  match ks with
  | [] => None
  | k :: ks' =>
      match dict_get d k with
      | Some v => Some v
      | None => first_present d ks'
      end
  end.

(** The same rules with a key counted only when its value is true in a
    condition, which for a string means non-empty. *)
Fixpoint first_nonempty (d : list (string * pyval)) (ks : list string)
  : option pyval :=
  match ks with
  | [] => None
  | k :: ks' =>
      match dict_get d k with
      | Some v => if truthy v then Some v else first_nonempty d ks'
      | None => first_nonempty d ks'
      end
  end.

Fixpoint nonempty_values (d : list (string * pyval)) (ks : list string)
  : list pyval :=
  match ks with
  | [] => []
  | k :: ks' =>
      match dict_get d k with
      | Some v =>
          if truthy v then v :: nonempty_values d ks'
          else nonempty_values d ks'
      | None => nonempty_values d ks'
      end
  end.

Definition or_default (o : option pyval) (default : string) : pyval :=
  match o with
  | Some v => v
  | None => PStr default
  end.

Definition NAME_KEYS : list string := ["name"; "operator"].
Definition PHONE_KEYS : list string := ["phone"; "contact:phone"; "telephone"].

(** The tag bag of an element: the empty bag when the element has none. *)
Definition tags_of (el : list (string * pyval)) : pyval :=
  match dict_get el "tags" with
  | Some t => t
  | None => PDict []
  end.

(** A raw element of the wire contract: a record with a [type], string
    tags when it has tags, and a [center] record when it has a center. *)
Definition string_valued (d : list (string * pyval)) : Prop :=
  forall k v, dict_get d k = Some v -> exists s, v = PStr s.

Definition raw_element (el : pyval) : Prop :=
  exists d,
    el = PDict d
    /\ (exists ty, dict_get d "type" = Some (PStr ty))
    /\ (exists t, tags_of d = PDict t /\ string_valued t)
    /\ (forall c, dict_get d "center" = Some c -> exists cd, c = PDict cd).

(** The order of the ranking, and the lists on which [<] is a total order
    of the keys. *)
Section Ranking.
Context {A : Type} (key : A -> float).

Definition key_le (x y : A) : Prop := (key x <=? key y)%float = true.

Definition no_nan (l : list A) : Prop :=
  Forall (fun x => is_nan (key x) = false) l.

End Ranking.

(** The values of a list of optional results, in order. *)
Definition somes {A : Type} (l : list (option A)) : list A :=
  flat_map (fun o => match o with Some x => [x] | None => [] end) l.

(** The address a tag bag yields, given its non-empty components. *)
Definition address_of (t : list (string * pyval)) (ss : list string)
  : pyval :=
  match ss with
  | [] =>
      match dict_get t "addr:full" with
      | Some v => v
      | None => PStr "Not available"
      end
  | _ => PStr (String.concat ", " ss)
  end.

(** The components present, in key order, when a key is present as soon
    as the tag bag binds it. *)
Fixpoint present_values (d : list (string * pyval)) (ks : list string)
  : list pyval :=
  match ks with
  | [] => []
  | k :: ks' =>
      match dict_get d k with
      | Some v => v :: present_values d ks'
      | None => present_values d ks'
      end
  end.

(** A success status in the sense of the specification. *)
Definition is_2xx (status : Z) : bool :=
  ((200 <=? status) && (status <? 300))%Z.

(** The values a [for] loop cannot iterate over. *)
Definition not_iterable (v : pyval) : Prop :=
  match v with
  | PNone | PBool _ | PInt _ | PFloat _ => True
  | _ => False
  end.

(** ** Shapes of floats *)

(** A zero or a finite number of sign [s]. *)
Definition finite_or_zero (s : bool) (x : spec_float) : Prop :=
  x = S754_zero s \/ exists m e, x = S754_finite s m e.

(** Finite numbers whose exponent is at most [k]. *)
Definition bounded_exp (k : Z) (x : spec_float) : Prop :=
  match x with
  | S754_zero _ => True
  | S754_finite _ m e => (Zdigits2 (Zpos m) <= 53 /\ e <= k)%Z
  | _ => False
  end.

(** Zeros and finite numbers: neither an infinity nor a NaN. *)
Definition is_finite_SF (x : spec_float) : Prop :=
  match x with
  | S754_zero _ | S754_finite _ _ _ => True
  | _ => False
  end.

(** A result whose coordinate is a number in the ranges of a GeoPoint. *)
Definition valid_coordinates (r : AmenityResult) : Prop :=
  exists la lo,
    as_float (lat r) = Ok la /\ as_float (lon r) = Ok lo
    /\ valid_lat la = true /\ valid_lon lo = true.

(** ** Two concrete platforms

    [approx_platform] computes the math functions by truncated power
    series and the square by a product; like the functions of CPython it
    raises where the result is not a number or overflows (the cosine is 1
    where the series leaves [-1, 1]).  It stands in for a C library where
    a run of the engine is evaluated.
    [recorded_platform] returns, at the arguments listed, the values that
    glibc 2.36 returns under CPython 3.11, and falls back to the series
    elsewhere. *)

Module Approx.
Local Open Scope float_scope.

Definition sin_series (x : float) : float :=
  let u := x * x in
  x * (1 - u / 6 * (1 - u / 20 * (1 - u / 42 * (1 - u / 72
       * (1 - u / 110 * (1 - u / 156)))))).

Definition cos_series (x : float) : float :=
  let u := x * x in
  1 - u / 2 * (1 - u / 12 * (1 - u / 30 * (1 - u / 56
       * (1 - u / 90 * (1 - u / 132 * (1 - u / 182)))))).

Definition atan_series (v : float) : float :=
  let u := v * v in
  v * (1 - u * (1 / 3 - u * (1 / 5 - u * (1 / 7 - u * (1 / 9
       - u * (1 / 11 - u * (1 / 13 - u * (1 / 15 - u * (1 / 17
       - u / 19))))))))).

Definition half_tan (t : float) : float := t / (1 + sqrt (1 + t * t)).

Definition sin (x : float) : result float :=
  let s := sin_series x in
  if is_finite s then Ok s else Raise ValueError.

Definition cos (x : float) : result float :=
  let c := cos_series x in Ok (if abs c <=? 1 then c else 1).

Definition atan2 (y x : float) : result float :=
  let t := 4 * atan_series (half_tan (y / (sqrt (x * x + y * y) + x))) in
  if is_nan t then Raise ValueError else Ok t.

Definition pow (x y : float) : result float :=
  if y =? 2 then
    let p := x * x in
    if is_finite p then Ok p else Raise OverflowError
  else Raise ValueError.

(** Six decimals, fixed point. *)
Definition str (x : float) : string :=
  match int_of_float (x * 1000000) with
  | Ok z =>
      ((if (z <? 0)%Z then "-" else EmptyString)
       ++ int_str (Z.abs z / 1000000) ++ "."
       ++ substring 1 6 (int_str (1000000 + Z.abs z mod 1000000)))%string
  | Raise _ => "nan"
  end.

End Approx.

Definition approx_platform : Platform :=
  {| math_sin := Approx.sin;
     math_cos := Approx.cos;
     math_atan2 := Approx.atan2;
     float_pow := Approx.pow;
     float_str := Approx.str |}.

Module Recorded.
Local Open Scope float_scope.

Definition sin (x : float) : result float :=
  if x =? -0x1.1df46a2529d39p-3 then Ok (-0x1.1d06c968d9e19p-3)
  else if x =? 0x1.921fb54442d18p+0 then Ok 1
  else if x =? 0x1.1df46a2529d39p-7 then Ok 0x1.1df37c4954c21p-7
  else if x =? 0 then Ok 0
  else Approx.sin x.

Definition cos (x : float) : result float :=
  if x =? 0x1.1df46a2529d39p-3 then Ok 0x1.fb046a930947ap-1
  else if x =? -0x1.1df46a2529d39p-3 then Ok 0x1.fb046a930947ap-1
  else if x =? 0x1.921fb54442d18p+0 then Ok 0x1.1a62633145c07p-54
  else if x =? 0 then Ok 1
  else Approx.cos x.

Definition atan2 (y x : float) : result float :=
  if (y =? 0x1.1a62633145c07p-54) && (x =? 1)
  then Ok 0x1.1a62633145c07p-54
  else if (y =? 0x1.1df37c4954c21p-7) && (x =? 0x1.fffb02599c9cdp-1)
  then Ok 0x1.1df46a2529d39p-7
  else Approx.atan2 y x.

Definition pow (x y : float) : result float :=
  if (x =? -0x1.1d06c968d9e19p-3) && (y =? 2) then Ok 0x1.3d581ca184804p-6
  else if (x =? 0x1.1df37c4954c21p-7) && (y =? 2)
  then Ok 0x1.3f680a5076462p-14
  else Approx.pow x y.

End Recorded.

Definition recorded_platform : Platform :=
  {| math_sin := Recorded.sin;
     math_cos := Recorded.cos;
     math_atan2 := Recorded.atan2;
     float_pow := Recorded.pow;
     float_str := Approx.str |}.

(** ** A sample exchange *)

Definition sample_tags_1 : pyval :=
  PDict [("name", PStr "City Hospital");
         ("phone", PStr "+91 80 5550 0101");
         ("addr:street", PStr "MG Road");
         ("addr:city", PStr "Bengaluru")].

Definition sample_node : pyval :=
  PDict [("type", PStr "node"); ("id", PInt 1);
         ("lat", PFloat 12.5%float); ("lon", PFloat 77.5%float);
         ("tags", sample_tags_1)].

Definition sample_way : pyval :=
  PDict [("type", PStr "way"); ("id", PInt 2);
         ("center", PDict [("lat", PFloat 12.25%float);
                           ("lon", PFloat 77.75%float)]);
         ("tags", PDict [("operator", PStr "Trust");
                         ("addr:full", PStr "12 Ring Road")])].

Definition sample_way_no_center : pyval :=
  PDict [("type", PStr "way"); ("id", PInt 3);
         ("tags", PDict [("name", PStr "Clinic")])].

Definition sample_relation : pyval :=
  PDict [("type", PStr "relation"); ("id", PInt 4);
         ("center", PDict [("lat", PInt 12); ("lon", PInt 77)])].

Definition sample_body : pyval :=
  PDict [("version", PFloat 0.5%float);
         ("elements",
          PList [sample_relation; sample_node; sample_way_no_center;
                 sample_way])].

Definition sample_post : Network :=
  fun _ _ _ => Ok {| status_code := 200; json := Ok sample_body |}.

(** The value of [results] when the loop has run over the sample body. *)
Definition sample_results : list AmenityResult :=
  Eval vm_compute in
    match collect_reply (P := approx_platform) 12.25 77.5
            (sample_post EmptyString EmptyString 30) with
    | Ok rs => rs
    | Raise _ => []
    end.

Definition sample_node_result : AmenityResult :=
  Eval vm_compute in
    match process_element (P := approx_platform) 12.25 77.5 sample_node with
    | Ok (Some r) => r
    | _ => {| name := PNone; address := PNone; contact := PNone;
              lat := PNone; lon := PNone; distance_km := 0 |}
    end.

Definition two_results_config : Config :=
  {| OVERPASS_URL := OVERPASS_URL default_config; MAX_RESULTS := 2 |}.

(** Tags with empty values. *)
Definition sample_empty_tags : list (string * pyval) :=
  [("name", PStr EmptyString); ("operator", PStr "Trust");
   ("phone", PStr EmptyString); ("telephone", PStr "100");
   ("addr:street", PStr EmptyString); ("addr:city", PStr "Bengaluru")].

Definition sample_empty_values : pyval :=
  PDict [("type", PStr "node");
         ("lat", PFloat 12.5%float); ("lon", PFloat 77.5%float);
         ("tags", PDict sample_empty_tags)].

(** Replies: a 300 status with a body, a transport timeout, a body
    without [elements], a body whose [elements] is not a list. *)
Definition status_300_post : Network :=
  fun _ _ _ =>
    Ok {| status_code := 300;
          json := Ok (PDict [("elements", PList [sample_node])]) |}.

Definition timeout_post : Network := fun _ _ _ => Raise Timeout.

(** A body whose [elements] is an empty object, not a list of records. *)
Definition elements_object_post : Network :=
  fun _ _ _ =>
    Ok {| status_code := 200;
          json := Ok (PDict [("elements", PDict [])]) |}.

Definition no_elements_post : Network :=
  fun _ _ _ =>
    Ok {| status_code := 200;
          json := Ok (PDict [("version", PFloat 0.5%float);
                             ("remark", PStr "runtime error")]) |}.

(** ** Calls without a coordinate

    [call_tool] passes [None] for a latitude or longitude the request does
    not give.  The engine interpolates the argument into the query as it
    is and meets it again in the distance calculation. *)

Section EngineOpt.
Context {P : Platform}.

(** [f"{x}"] for an argument that is a float or [None]. *)
Definition arg_str (x : option float) : string :=
  match x with
  | Some f => float_str f
  | None => "None"
  end.

(** The text of the query, lines 43 to 51. *)
Definition query_text_opt (amenity : string) (radius_m : Z)
    (lat lon : option float) : string :=
  nl ++
  "[out:json][timeout:25];" ++ nl ++
  "(" ++ nl ++
  "  node[" ++ dq ++ "amenity" ++ dq ++ "=" ++ dq ++ amenity ++ dq
    ++ "](around:" ++ int_str radius_m ++ "," ++ arg_str lat ++ ","
    ++ arg_str lon ++ ");" ++ nl ++
  "  way[" ++ dq ++ "amenity" ++ dq ++ "=" ++ dq ++ amenity ++ dq
    ++ "](around:" ++ int_str radius_m ++ "," ++ arg_str lat ++ ","
    ++ arg_str lon ++ ");" ++ nl ++
  "  relation[" ++ dq ++ "amenity" ++ dq ++ "=" ++ dq ++ amenity ++ dq
    ++ "](around:" ++ int_str radius_m ++ "," ++ arg_str lat ++ ","
    ++ arg_str lon ++ ");" ++ nl ++
  ");" ++ nl ++
  "out center;" ++ nl.

(** [haversine_km(lat, lon, lat_e, lon_e)], lines 33 to 38, on an origin
    that may be [None] and the coordinate of an element:
    [math.radians(None)] and [lon2 - None] are type errors. *)
Definition haversine_km_opt (lat1 lon1 : option float) (lat_e lon_e : pyval)
  : result float :=
  match lat1 with
  | None => Raise TypeError
  | Some phi1_deg =>
      lat2 <- as_float lat_e ;;
      match lon1 with
      | None => Raise TypeError
      | Some lambda1_deg =>
          lon2 <- as_float lon_e ;;
          haversine_km phi1_deg lambda1_deg lat2 lon2
      end
  end.

(** The body of the loop, lines 57 to 79. *)
Definition process_element_opt (lat0 lon0 : option float) (el : pyval)
  : result (option AmenityResult) :=
  tags <- py_get el "tags" (PDict []) ;;
  name <- py_or (py_get tags "name" PNone)
            (py_or (py_get tags "operator" PNone) (Ok (PStr "Unknown"))) ;;
  phone <- py_or (py_get tags "phone" PNone)
             (py_or (py_get tags "contact:phone" PNone)
                (py_get tags "telephone" PNone)) ;;
  parts <- addr_parts tags ADDR_KEYS ;;
  joined <- str_join ", " parts ;;
  address <- py_or (Ok (PStr joined))
               (py_get tags "addr:full" (PStr "Not available")) ;;
  ll <- coordinate el ;;
  let '(lat_e, lon_e) := ll in
  if is_none lat_e || is_none lon_e then Ok None
  else
    contact <- py_or (Ok phone) (Ok (PStr "Not available")) ;;
    d <- haversine_km_opt lat0 lon0 lat_e lon_e ;;
    Ok (Some {| name := name; address := address; contact := contact;
                lat := lat_e; lon := lon_e; distance_km := d |}).

Fixpoint collect_opt (lat0 lon0 : option float) (els : list pyval)
    (results : list AmenityResult) : result (list AmenityResult) :=
  match els with
  | [] => Ok results
  | el :: els' =>
      r <- process_element_opt lat0 lon0 el ;;
      collect_opt lat0 lon0 els'
        (match r with Some x => (results ++ [x])%list | None => results end)
  end.

(** [overpass_query], lines 40 to 81. *)
Definition overpass_query_opt (cfg : Config) (post : Network)
    (lat0 lon0 : option float) (radius_km : float) (amenity : string)
  : result (list AmenityResult) :=
  radius_m <- int_of_float (radius_km * 1000) ;;
  let query := query_text_opt amenity radius_m lat0 lon0 in
  res <- post (OVERPASS_URL cfg) query 30 ;;
  _ <- raise_for_status res ;;
  body <- json res ;;
  elements <- py_get body "elements" (PList []) ;;
  els <- py_iter elements ;;
  results <- collect_opt lat0 lon0 els [] ;;
  Ok (slice_to (sorted distance_km results) (MAX_RESULTS cfg)).

End EngineOpt.

(** ** The tools and the HTTP route *)

(** The settings of lines 14 to 21. *)
Record Settings : Type := {
  engine : Config;
  DEFAULT_RADIUS_KM : float;
  EXPECTED_BEARER_TOKEN : string;
  OWNER_PHONE_NUMBER : string
}.

Definition default_settings : Settings :=
  {| engine := default_config;
     DEFAULT_RADIUS_KM := 5;
     EXPECTED_BEARER_TOKEN := "abc123token";
     OWNER_PHONE_NUMBER := "919876543210" |}.

(** What a call of the service layer ends with: FastAPI's [HTTPException]
    or an exception of the engine, which nothing catches. *)
Inductive failure : Type :=
| HTTPException (status : Z) (detail : string)
| Uncaught (e : exn).

Inductive outcome (A : Type) : Type :=
| Returned (a : A)
| Failed (f : failure).

Arguments Returned {A} a.
Arguments Failed {A} f.

(** The value of a tool: a list of results or a string. *)
Inductive tool_value : Type :=
| Amenities (l : list AmenityResult)
| Text (s : string).

Definition amenities (r : result (list AmenityResult)) : outcome tool_value :=
  match r with
  | Ok l => Returned (Amenities l)
  | Raise e => Failed (Uncaught e)
  end.

Definition text (r : outcome string) : outcome tool_value :=
  match r with
  | Returned s => Returned (Text s)
  | Failed f => Failed f
  end.

(** [@mcp.tool()] registers the function with the MCP server and binds its
    name to what the decorator returns.  Depending on the release of
    FastMCP that is the function itself or a tool object, and calling a
    tool object is a [TypeError]. *)
Class Framework : Type := {
  tool_is_function : bool
}.

(** A dict with string keys, read by its first binding of a key. *)
Fixpoint assoc {A : Type} (d : list (string * A)) (k : string) : option A :=
  match d with
  | [] => None
  | (k', v) :: d' => if String.eqb k k' then Some v else assoc d' k
  end.

Section Service.
Context {P : Platform} {F : Framework} (st : Settings) (post : Network).

(** A parameter with the default [DEFAULT_RADIUS_KM]. *)
Definition radius_or_default (radius_km : option float) : float :=
  match radius_km with
  | Some r => r
  | None => DEFAULT_RADIUS_KM st
  end.

(** The functions of lines 87 to 104, as their [def]s define them. *)
Definition find_nearest_hospital (latitude longitude : option float)
    (radius_km : option float) : result (list AmenityResult) :=
  overpass_query_opt (engine st) post latitude longitude
    (radius_or_default radius_km) "hospital".

Definition find_nearest_police (latitude longitude : option float)
    (radius_km : option float) : result (list AmenityResult) :=
  overpass_query_opt (engine st) post latitude longitude
    (radius_or_default radius_km) "police".

Definition find_nearest_fire_station (latitude longitude : option float)
    (radius_km : option float) : result (list AmenityResult) :=
  overpass_query_opt (engine st) post latitude longitude
    (radius_or_default radius_km) "fire_station".

Definition find_nearest_public_office (latitude longitude : option float)
    (radius_km : option float) : result (list AmenityResult) :=
  overpass_query_opt (engine st) post latitude longitude
    (radius_or_default radius_km) "townhall".

(** [bearer_token != EXPECTED_BEARER_TOKEN]: [None] differs from every
    string. *)
Definition token_differs (bearer_token : option string) : bool :=
  match bearer_token with
  | Some t => negb (String.eqb t (EXPECTED_BEARER_TOKEN st))
  | None => true
  end.

(** Lines 107 to 114. *)
Definition validate (bearer_token : option string) : outcome string :=
  if token_differs bearer_token
  then Failed (HTTPException 401 "Invalid bearer token")
  else Returned (OWNER_PHONE_NUMBER st).

(** A call of a name that [@mcp.tool()] decorates. *)
Definition call_decorated {A : Type} (body : outcome A) : outcome A :=
  if tool_is_function then body else Failed (Uncaught TypeError).

(** Lines 124 to 135. *)
Definition call_tool (tool_name : string) (latitude longitude : option float)
    (radius_km : option float) (bearer_token : option string)
  : outcome tool_value :=
  let radius_km := radius_or_default radius_km in
  let tools :=
    [("find_nearest_hospital",
      fun _ : unit =>
        call_decorated
          (amenities
             (find_nearest_hospital latitude longitude (Some radius_km))));
     ("find_nearest_police",
      fun _ : unit =>
        call_decorated
          (amenities
             (find_nearest_police latitude longitude (Some radius_km))));
     ("find_nearest_fire_station",
      fun _ : unit =>
        call_decorated
          (amenities
             (find_nearest_fire_station latitude longitude
                (Some radius_km))));
     ("find_nearest_public_office",
      fun _ : unit =>
        call_decorated
          (amenities
             (find_nearest_public_office latitude longitude
                (Some radius_km))));
     ("validate",
      fun _ : unit => call_decorated (text (validate bearer_token)))] in
  match assoc tools tool_name with
  | None => Failed (HTTPException 404 "Tool not found")
  | Some tool => tool tt
  end.

End Service.

(** The names [call_tool] knows. *)
Definition TOOL_NAMES : list string :=
  ["find_nearest_hospital"; "find_nearest_police";
   "find_nearest_fire_station"; "find_nearest_public_office"; "validate"].

(** The tag value each search tool asks for. *)
Definition SEARCH_TOOLS : list (string * string) :=
  [("find_nearest_hospital", "hospital");
   ("find_nearest_police", "police");
   ("find_nearest_fire_station", "fire_station");
   ("find_nearest_public_office", "townhall")].


(** The two behaviours of the decorator. *)
Definition function_tools : Framework := {| tool_is_function := true |}.
Definition object_tools : Framework := {| tool_is_function := false |}.

(** ** Signs *)

(** The zero with the sign bit set. *)
Definition negative_zero (x : float) : bool :=
  match Prim2SF x with
  | S754_zero true => true
  | _ => false
  end.

(** In the first quadrant the angle [atan2] returns is not negative.  (At
    [y = -0.0] with [x = -0.0] the C standard gives [-pi].) *)
Definition atan2_nonneg (P : Platform) : Prop :=
  forall y x t, math_atan2 y x = Ok t ->
    (0 <=? y)%float = true -> (0 <=? x)%float = true ->
    negative_zero y && negative_zero x = false ->
    (0 <=? t)%float = true.

(** Zeros, positive numbers and the positive infinity. *)
Definition SF_nonneg (x : spec_float) : Prop :=
  SFleb (S754_zero false) x = true.

(** [approx_platform] with an [atan2] that refuses to return a negative
    angle. *)
Module Guarded.
Local Open Scope float_scope.

Definition atan2 (y x : float) : result float :=
  t <- Approx.atan2 y x ;;
  if t <? 0 then Raise ValueError else Ok t.

End Guarded.

Definition guarded_platform : Platform :=
  {| math_sin := Approx.sin;
     math_cos := Approx.cos;
     math_atan2 := Guarded.atan2;
     float_pow := Approx.pow;
     float_str := Approx.str |}.

(** [approx_platform] with the NaN handling of the C library and of the
    float power of CPython: a NaN argument gives a NaN and no exception. *)
Module Quiet.
Local Open Scope float_scope.

Definition sin (x : float) : result float :=
  if is_nan x then Ok nan else Approx.sin x.

Definition cos (x : float) : result float :=
  if is_nan x then Ok nan else Approx.cos x.

Definition atan2 (y x : float) : result float :=
  if is_nan y || is_nan x then Ok nan else Approx.atan2 y x.

Definition pow (x y : float) : result float :=
  if is_nan x && (y =? 2) then Ok nan else Approx.pow x y.

End Quiet.

Definition quiet_platform : Platform :=
  {| math_sin := Quiet.sin;
     math_cos := Quiet.cos;
     math_atan2 := Quiet.atan2;
     float_pow := Quiet.pow;
     float_str := Approx.str |}.

(** The tag keys and the element keys the loop body reads. *)
Definition TAG_KEYS : list string :=
  (NAME_KEYS ++ PHONE_KEYS ++ ADDR_KEYS ++ ["addr:full"])%list.

Definition COORDINATE_KEYS : list string := ["type"; "lat"; "lon"; "center"].

(** The sample node as another backend might send it: another id, more
    keys, more tags. *)
Definition sample_node_annotated : list (string * pyval) :=
  [("id", PInt 99); ("version", PInt 7); ("type", PStr "node");
   ("lat", PFloat 12.5%float); ("lon", PFloat 77.5%float);
   ("tags", PDict [("amenity", PStr "hospital");
                   ("name", PStr "City Hospital");
                   ("opening_hours", PStr "24/7");
                   ("phone", PStr "+91 80 5550 0101");
                   ("addr:street", PStr "MG Road");
                   ("addr:city", PStr "Bengaluru")])].

(** A way whose tags are [null]. *)
Definition null_tags_way : list (string * pyval) :=
  [("type", PStr "way"); ("id", PInt 5); ("tags", PNone)].

(** ** More sample data *)




(** A setting that counts from the end. *)
Definition negative_config : Config :=
  {| OVERPASS_URL := OVERPASS_URL default_config; MAX_RESULTS := -1 |}.

(** A node at the antipode of (8, 0), after a node nearby. *)
Definition near_node : pyval :=
  PDict [("type", PStr "node");
         ("lat", PFloat 8.5%float); ("lon", PFloat 0.5%float);
         ("tags", PDict [("name", PStr "Near")])].

Definition antipodal_node : pyval :=
  PDict [("type", PStr "node");
         ("lat", PInt (-8)); ("lon", PInt 180);
         ("tags", PDict [("name", PStr "Far")])].

Definition antipodal_post : Network :=
  fun _ _ _ =>
    Ok {| status_code := 200;
          json := Ok (PDict [("elements",
                              PList [near_node; antipodal_node;
                                     near_node])]) |}.

(** A located element without a [type]. *)
Definition untyped_element : list (string * pyval) :=
  [("lat", PFloat 12.5%float); ("lon", PFloat 77.5%float);
   ("tags", sample_tags_1)].

(** Tags with a house number that is a number, and tags whose full
    address is empty. *)
Definition numeric_housenumber_tags : list (string * pyval) :=
  [("name", PStr "Clinic"); ("addr:street", PStr "MG Road");
   ("addr:housenumber", PInt 12)].

Definition numeric_housenumber_node : list (string * pyval) :=
  [("type", PStr "node");
   ("lat", PFloat 12.5%float); ("lon", PFloat 77.5%float);
   ("tags", PDict numeric_housenumber_tags)].

Definition empty_full_address_node : pyval :=
  PDict [("type", PStr "node");
         ("lat", PFloat 12.5%float); ("lon", PFloat 77.5%float);
         ("tags", PDict [("addr:full", PStr EmptyString)])].

(** A reply with a latitude that is not a number (the JSON decoder of
    Python reads the literal [NaN]), between a far node and a near one. *)
Definition far_node : pyval :=
  PDict [("type", PStr "node");
         ("lat", PFloat 12.75%float); ("lon", PFloat 77.5%float);
         ("tags", PDict [("name", PStr "Far")])].

Definition nan_node : pyval :=
  PDict [("type", PStr "node");
         ("lat", PFloat nan); ("lon", PFloat 77.5%float);
         ("tags", PDict [("name", PStr "Nowhere")])].

Definition nan_post : Network :=
  fun _ _ _ =>
    Ok {| status_code := 200;
          json := Ok (PDict [("elements",
                              PList [far_node; nan_node; sample_node])]) |}.

(** * Facts *)

(** ** The result monad *)

Lemma bind_Ok_inv {A B : Type} (r : result A) (k : A -> result B) (b : B) :
  bind r k = Ok b -> exists a, r = Ok a /\ k a = Ok b.
Proof.
  destruct r as [a|e]; simpl; intros H; [eauto | discriminate].
Qed.

Ltac bind_inv H :=
  let a := fresh "v" in
  let E := fresh "E" in
  apply bind_Ok_inv in H; destruct H as [a [E H]].

(** ** Float comparison *)

Ltac cmp_cases :=
  repeat match goal with
  | H : context [Pos.compare_cont Eq ?a ?b] |- _ =>
      change (Pos.compare_cont Eq a b) with (Pos.compare a b) in H
  | |- context [Pos.compare_cont Eq ?a ?b] =>
      change (Pos.compare_cont Eq a b) with (Pos.compare a b)
  end;
  repeat match goal with
  | H : context [Z.compare ?a ?b] |- _ => destruct (Z.compare_spec a b)
  | |- context [Z.compare ?a ?b] => destruct (Z.compare_spec a b)
  | H : context [Pos.compare ?a ?b] |- _ => destruct (Pos.compare_spec a b)
  | |- context [Pos.compare ?a ?b] => destruct (Pos.compare_spec a b)
  end;
  simpl in *; try reflexivity; try discriminate; try lia.

Lemma SFcompare_antisym (x y : spec_float) (c : comparison) :
  SFcompare x y = Some c -> SFcompare y x = Some (CompOpp c).
Proof.
  destruct x as [sx|sx| |sx mx ex], y as [sy|sy| |sy my ey]; simpl;
    intros H; inversion H; subst; clear H;
    try destruct sx; try destruct sy; simpl; try reflexivity;
    f_equal; cmp_cases.
Qed.

Lemma SFcompare_total (x y : spec_float) :
  x <> S754_nan -> y <> S754_nan -> exists c, SFcompare x y = Some c.
Proof.
  destruct x, y; simpl; intros Hx Hy; try congruence; eauto.
Qed.

Lemma SFleb_trans (x y z : spec_float) :
  SFleb x y = true -> SFleb y z = true -> SFleb x z = true.
Proof.
  unfold SFleb.
  destruct x as [sx|sx| |sx mx ex], y as [sy|sy| |sy my ey],
           z as [sz|sz| |sz mz ez]; simpl;
    try destruct sx; try destruct sy; try destruct sz; simpl;
    try reflexivity; try discriminate; intros H1 H2; cmp_cases.
Qed.

Lemma SFeqb_not_ltb (x y d : spec_float) :
  SFeqb x d = true -> SFeqb y d = true -> SFltb y x = false.
Proof.
  unfold SFeqb, SFltb.
  destruct x as [sx|sx| |sx mx ex], y as [sy|sy| |sy my ey],
           d as [sd|sd| |sd md ed]; simpl;
    try destruct sx; try destruct sy; try destruct sd; simpl;
    try reflexivity; try discriminate; intros H1 H2; cmp_cases.
Qed.

Lemma is_nan_false (x : float) :
  is_nan x = false -> Prim2SF x <> S754_nan.
Proof.
  unfold is_nan. rewrite FloatAxioms.eqb_spec. intros H E. rewrite E in H.
  discriminate.
Qed.

Lemma leb_trans (x y z : float) :
  (x <=? y)%float = true -> (y <=? z)%float = true -> (x <=? z)%float = true.
Proof. rewrite !FloatAxioms.leb_spec. apply SFleb_trans. Qed.

Lemma ltb_leb (x y : float) :
  (x <? y)%float = true -> (x <=? y)%float = true.
Proof.
  rewrite FloatAxioms.ltb_spec, FloatAxioms.leb_spec. unfold SFltb, SFleb.
  destruct (SFcompare _ _) as [[]|]; congruence.
Qed.

Lemma not_ltb_leb (x y : float) :
  is_nan x = false -> is_nan y = false ->
  (y <? x)%float = false -> (x <=? y)%float = true.
Proof.
  intros Hx Hy. apply is_nan_false in Hx, Hy.
  rewrite FloatAxioms.ltb_spec, FloatAxioms.leb_spec. unfold SFltb, SFleb.
  destruct (SFcompare_total _ _ Hx Hy) as [c Hc].
  rewrite (SFcompare_antisym _ _ _ Hc), Hc.
  destruct c; simpl; congruence.
Qed.

Lemma eqb_not_ltb (x y d : float) :
  (x =? d)%float = true -> (y =? d)%float = true -> (y <? x)%float = false.
Proof. rewrite !FloatAxioms.eqb_spec, FloatAxioms.ltb_spec. apply SFeqb_not_ltb. Qed.



(** ** Negation and the arithmetic operations *)

Lemma binary_round_aux_opp s m e l :
  binary_round_aux prec emax (negb s) m e l
  = SFopp (binary_round_aux prec emax s m e l).
Proof.
  unfold binary_round_aux.
  destruct (shr_fexp prec emax m e l) as [mrs' e'].
  destruct (shr_fexp prec emax _ e' loc_Exact) as [mrs'' e''].
  destruct (shr_m mrs''); try reflexivity.
  destruct (e'' <=? emax - prec)%Z; reflexivity.
Qed.

Lemma xorb_negb_l (a b : bool) : xorb (negb a) b = negb (xorb a b).
Proof. destruct a, b; reflexivity. Qed.

Lemma SFmul_opp_l (x y : spec_float) :
  SFmul prec emax (SFopp x) y = SFopp (SFmul prec emax x y).
Proof.
  destruct x as [sx|sx| |sx mx ex], y as [sy|sy| |sy my ey]; simpl;
    rewrite ?xorb_negb_l; try reflexivity.
  apply binary_round_aux_opp.
Qed.

Lemma SFdiv_opp_l (x y : spec_float) :
  SFdiv prec emax (SFopp x) y = SFopp (SFdiv prec emax x y).
Proof.
  destruct x as [sx|sx| |sx mx ex], y as [sy|sy| |sy my ey]; simpl;
    rewrite ?xorb_negb_l; try reflexivity.
  destruct (SFdiv_core_binary prec emax (Z.pos mx) ex (Z.pos my) ey)
    as [[mz ez] lz].
  apply binary_round_aux_opp.
Qed.

Lemma binary_round_opp s m e :
  binary_round prec emax (negb s) m e = SFopp (binary_round prec emax s m e).
Proof.
  unfold binary_round.
  destruct (shl_align m e _) as [mz ez]. apply binary_round_aux_opp.
Qed.

Lemma binary_normalize_opp m e :
  m <> 0%Z ->
  binary_normalize prec emax (- m) e false
  = SFopp (binary_normalize prec emax m e false).
Proof.
  destruct m as [|p|p]; simpl; intros H; try congruence.
  - apply (binary_round_opp false).
  - apply (binary_round_opp true).
Qed.

(** [x - y] is the negation of [y - x], or both are the same zero or NaN. *)
Lemma SFsub_swap (x y : spec_float) :
  SFsub prec emax x y = SFopp (SFsub prec emax y x)
  \/ SFsub prec emax x y = SFsub prec emax y x.
Proof.
  destruct x as [sx|sx| |sx mx ex], y as [sy|sy| |sy my ey];
    try (simpl; try destruct sx; try destruct sy; simpl; now auto).
  unfold SFsub. rewrite (Z.min_comm ey ex).
  set (a := cond_Zopp sx _). set (b := cond_Zopp sy _).
  destruct (Z.eq_dec (b - a) 0) as [E|E].
  - right. replace (a - b)%Z with 0%Z by lia. rewrite E. reflexivity.
  - left. replace (a - b)%Z with (- (b - a))%Z by lia.
    apply binary_normalize_opp. exact E.
Qed.

Lemma mul_opp_l (x y : float) : (- x * y = - (x * y))%float.
Proof.
  apply Prim2SF_inj. rewrite opp_spec, !mul_spec, opp_spec.
  apply SFmul_opp_l.
Qed.

Lemma div_opp_l (x y : float) : (- x / y = - (x / y))%float.
Proof.
  apply Prim2SF_inj. rewrite opp_spec, !div_spec, opp_spec.
  apply SFdiv_opp_l.
Qed.

Lemma sub_swap (x y : float) :
  (x - y = - (y - x))%float \/ (x - y = y - x)%float.
Proof.
  destruct (SFsub_swap (Prim2SF x) (Prim2SF y)) as [H|H].
  - left. apply Prim2SF_inj. rewrite opp_spec, !sub_spec. exact H.
  - right. apply Prim2SF_inj. rewrite !sub_spec. exact H.
Qed.

Lemma mul_comm (x y : float) : (x * y = y * x)%float.
Proof.
  apply Prim2SF_inj. rewrite !mul_spec.
  destruct (Prim2SF x) as [sx|sx| |sx mx ex],
           (Prim2SF y) as [sy|sy| |sy my ey];
    simpl; rewrite ?(xorb_comm sx sy); try reflexivity.
  rewrite (Pos.mul_comm mx my), (Z.add_comm ex ey). reflexivity.
Qed.

Lemma opp_involutive (x : float) : (- - x = x)%float.
Proof.
  apply Prim2SF_inj. rewrite !opp_spec.
  destruct (Prim2SF x); simpl; rewrite ?negb_involutive; reflexivity.
Qed.

Lemma mul_opp_opp (x y : float) : (- x * - y = x * y)%float.
Proof.
  rewrite mul_opp_l, (mul_comm x (- y)), mul_opp_l, opp_involutive.
  apply mul_comm.
Qed.

(** The half-angle argument of the two sines when the points are swapped. *)
Lemma half_angle_swap (x y : float) :
  (radians (x - y) / 2 = - (radians (y - x) / 2))%float
  \/ (radians (x - y) / 2 = radians (y - x) / 2)%float.
Proof.
  unfold radians. destruct (sub_swap x y) as [H|H]; rewrite H.
  - left. rewrite mul_opp_l, div_opp_l. reflexivity.
  - right. reflexivity.
Qed.

(** ** Products that cannot overflow *)

Lemma digits2_pos_size p : digits2_pos p = Pos.size p.
Proof. induction p; simpl; congruence. Qed.

Lemma Zdigits2_log2 p : Zdigits2 (Zpos p) = (Z.log2 (Zpos p) + 1)%Z.
Proof.
  simpl. rewrite digits2_pos_size.
  destruct p; simpl; try reflexivity; rewrite Pos.add_1_r; reflexivity.
Qed.

Lemma Zdigits2_nonneg m : (0 <= m -> 0 <= Zdigits2 m)%Z.
Proof. destruct m; simpl; lia. Qed.

Lemma Zdigits2_mono a b : (0 <= a <= b -> Zdigits2 a <= Zdigits2 b)%Z.
Proof.
  intros [Ha Hab]. destruct a as [|a|a]; try lia.
  - apply Zdigits2_nonneg; lia.
  - destruct b as [|b|b]; try lia.
    rewrite !Zdigits2_log2.
    pose proof (Z.log2_le_mono (Zpos a) (Zpos b) Hab). lia.
Qed.

Lemma Zdigits2_succ a : (0 <= a -> Zdigits2 (a + 1) <= Zdigits2 a + 1)%Z.
Proof.
  intros Ha. destruct a as [|a|a]; try lia.
  - simpl. lia.
  - replace (Zpos a + 1)%Z with (Zpos (a + 1)) by lia.
    rewrite !Zdigits2_log2.
    assert (H : (Z.log2 (Zpos (a + 1)) <= Z.log2 (2 * Zpos a))%Z)
      by (apply Z.log2_le_mono; lia).
    rewrite Z.log2_double in H by lia. lia.
Qed.

Lemma Zdigits2_mul a b :
  (Zdigits2 (Zpos (a * b)) <= Zdigits2 (Zpos a) + Zdigits2 (Zpos b))%Z.
Proof.
  rewrite !Zdigits2_log2. rewrite Pos2Z.inj_mul.
  pose proof (Z.log2_mul_above (Zpos a) (Zpos b)). lia.
Qed.

Lemma shr_1_bounds r :
  (0 <= shr_m r -> 0 <= shr_m (shr_1 r) <= shr_m r)%Z.
Proof.
  destruct r as [m b s]; simpl. intros H.
  destruct m as [|[p|p|]|p]; simpl; lia.
Qed.

Lemma iter_shr_1_bounds p : forall r,
  (0 <= shr_m r -> 0 <= shr_m (SpecFloat.iter_pos shr_1 p r) <= shr_m r)%Z.
Proof.
  induction p as [p IH|p IH|]; intros r H; simpl.
  - pose proof (shr_1_bounds r H) as H1.
    pose proof (IH _ (proj1 H1)) as H2.
    pose proof (IH _ (proj1 H2)) as H3. lia.
  - pose proof (IH _ H) as H2.
    pose proof (IH _ (proj1 H2)) as H3. lia.
  - apply shr_1_bounds, H.
Qed.

Lemma shr_record_of_loc_m m l : shr_m (shr_record_of_loc m l) = m.
Proof. destruct l as [|[]]; reflexivity. Qed.

Lemma shr_fexp_bounds m e l mrs e' :
  (0 <= m)%Z ->
  shr_fexp prec emax m e l = (mrs, e') ->
  (0 <= shr_m mrs <= m)%Z
  /\ e' = Z.max e (fexp prec emax (Zdigits2 m + e)).
Proof.
  intros Hm. unfold shr_fexp, shr.
  destruct (fexp prec emax (Zdigits2 m + e) - e)%Z as [|n|n] eqn:En;
    intros H; inversion H; subst; clear H.
  - rewrite shr_record_of_loc_m. lia.
  - pose proof (iter_shr_1_bounds n (shr_record_of_loc m l)) as B.
    rewrite shr_record_of_loc_m in B. specialize (B Hm). lia.
  - rewrite shr_record_of_loc_m. lia.
Qed.

Lemma round_nearest_even_bounds m l :
  (0 <= m -> m <= round_nearest_even m l <= m + 1)%Z.
Proof.
  intros H. destruct l as [|[]]; simpl; try lia.
  destruct (Z.even m); lia.
Qed.

Lemma binary_round_aux_no_overflow s m e l :
  (0 <= m)%Z -> (e <= 0)%Z -> (Zdigits2 m <= 400)%Z ->
  finite_or_zero s (binary_round_aux prec emax s m e l).
Proof.
  intros Hm He Hd. unfold binary_round_aux.
  destruct (shr_fexp prec emax m e l) as [mrs' e'] eqn:E1.
  destruct (shr_fexp_bounds _ _ _ _ _ Hm E1) as [B1 Ee'].
  pose proof (round_nearest_even_bounds (shr_m mrs')
                (loc_of_shr_record mrs') (proj1 B1)) as B2.
  set (m1 := round_nearest_even _ _) in *.
  destruct (shr_fexp prec emax m1 e' loc_Exact) as [mrs'' e''] eqn:E2.
  assert (Hm1 : (0 <= m1)%Z) by lia.
  destruct (shr_fexp_bounds _ _ _ _ _ Hm1 E2) as [B3 Ee''].
  assert (Hd1 : (Zdigits2 m1 <= Zdigits2 m + 1)%Z).
  { transitivity (Zdigits2 (shr_m mrs' + 1)).
    - apply Zdigits2_mono. lia.
    - transitivity (Zdigits2 (shr_m mrs') + 1)%Z.
      + apply Zdigits2_succ. lia.
      + pose proof (Zdigits2_mono (shr_m mrs') m). lia. }
  pose proof (Zdigits2_nonneg m Hm) as Hd0.
  unfold fexp, emin, emax, prec in *.
  destruct (shr_m mrs'') as [|p|p] eqn:Em; try lia.
  - left. reflexivity.
  - right.
    replace (e'' <=? 1024 - 53)%Z with true
      by (symmetry; apply Z.leb_le; lia).
    eauto.
Qed.

Lemma valid_digits (x : float) s m e :
  Prim2SF x = S754_finite s m e -> (Zdigits2 (Zpos m) <= 53)%Z.
Proof.
  intros E. pose proof (Prim2SF_valid x) as V. rewrite E in V.
  simpl in V. apply andb_prop in V. destruct V as [V _].
  unfold canonical_mantissa in V. apply Z.eqb_eq in V.
  unfold fexp, emin, emax, prec in V. simpl. lia.
Qed.

Lemma range_bounded (x b : float) mb eb :
  Prim2SF b = S754_finite false mb eb ->
  (- b <=? x)%float = true -> (x <=? b)%float = true ->
  bounded_exp eb (Prim2SF x).
Proof.
  intros Eb. rewrite !FloatAxioms.leb_spec, opp_spec, Eb. simpl SFopp.
  pose proof (valid_digits x) as D.
  destruct (Prim2SF x) as [s|s| |s m e]; unfold SFleb; simpl;
    try destruct s; try discriminate; try (intros; exact I);
    intros H1 H2; (split; [eapply D; reflexivity|]); cmp_cases.
Qed.

Lemma abs_bounded (x b : float) mb eb :
  Prim2SF b = S754_finite false mb eb ->
  (abs x <=? b)%float = true ->
  bounded_exp eb (Prim2SF x).
Proof.
  intros Eb. rewrite FloatAxioms.leb_spec, abs_spec, Eb.
  pose proof (valid_digits x) as D.
  destruct (Prim2SF x) as [s|s| |s m e]; unfold SFleb; simpl;
    try discriminate; try (intros; exact I);
    intros H1; (split; [eapply D; reflexivity|]); cmp_cases.
Qed.

Lemma SFmul_bounded k1 k2 (x y : spec_float) :
  bounded_exp k1 x -> bounded_exp k2 y -> (k1 + k2 <= 0)%Z ->
  exists s, finite_or_zero s (SFmul prec emax x y).
Proof.
  destruct x as [sx|sx| |sx mx ex], y as [sy|sy| |sy my ey]; simpl;
    try contradiction; intros Hx Hy Hk;
    try (exists (xorb sx sy); left; reflexivity).
  exists (xorb sx sy). apply binary_round_aux_no_overflow; try lia.
  pose proof (Zdigits2_mul mx my). simpl in *. lia.
Qed.

Lemma is_finite_of (x : float) s :
  finite_or_zero s (Prim2SF x) -> is_finite x = true.
Proof.
  unfold is_finite, is_nan, is_infinity.
  rewrite !FloatAxioms.eqb_spec, abs_spec.
  change (Prim2SF infinity) with (S754_infinity false).
  intros [E|[m [e E]]]; rewrite E; unfold SFeqb; simpl.
  - reflexivity.
  - rewrite Z.compare_refl.
    change (Pos.compare_cont Eq m m) with (Pos.compare m m).
    rewrite Pos.compare_refl. destruct s; reflexivity.
Qed.

Lemma bounded_finite_or_zero k (x : spec_float) :
  bounded_exp k x -> exists s, finite_or_zero s x.
Proof.
  destruct x as [s|s| |s m e]; simpl; try contradiction; intros _;
    exists s; [left | right]; eauto.
Qed.

Lemma sub_diag (x : float) s :
  finite_or_zero s (Prim2SF x) -> (x - x = 0)%float.
Proof.
  intros H. apply Prim2SF_inj. rewrite sub_spec.
  change (Prim2SF 0) with (S754_zero false).
  destruct H as [E|[m [e E]]]; rewrite E.
  - destruct s; reflexivity.
  - unfold SF64sub, SFsub. rewrite Z.sub_diag. reflexivity.
Qed.

Lemma mul_zero_r (x : float) s :
  finite_or_zero s (Prim2SF x) ->
  Prim2SF (x * 0)%float = S754_zero s.
Proof.
  intros H. rewrite mul_spec.
  change (Prim2SF 0) with (S754_zero false).
  destruct H as [E|[m [e E]]]; rewrite E; simpl;
    rewrite xorb_false_r; reflexivity.
Qed.

Lemma add_zero_zero (x : float) s :
  Prim2SF x = S754_zero s -> (0 + x = 0)%float.
Proof.
  intros E. apply Prim2SF_inj. rewrite add_spec, E.
  destruct s; reflexivity.
Qed.

(** The haversine term of two cosines in [-1, 1] and a zero square. *)
Lemma small_product_zero (c1 c2 : float) :
  (abs c1 <=? 1)%float = true -> (abs c2 <=? 1)%float = true ->
  (0 + c1 * c2 * 0 = 0)%float.
Proof.
  intros H1 H2.
  assert (E1 : Prim2SF 1 = S754_finite false 4503599627370496 (-52))
    by reflexivity.
  pose proof (abs_bounded _ _ _ _ E1 H1) as B1.
  pose proof (abs_bounded _ _ _ _ E1 H2) as B2.
  destruct (SFmul_bounded _ _ _ _ B1 B2 ltac:(lia)) as [s Hs].
  change (SFmul prec emax (Prim2SF c1) (Prim2SF c2))
    with (SF64mul (Prim2SF c1) (Prim2SF c2)) in Hs.
  rewrite <- mul_spec in Hs.
  apply (add_zero_zero _ s). apply mul_zero_r. exact Hs.
Qed.

Lemma valid_lat_bounded (x : float) :
  valid_lat x = true -> bounded_exp (-46) (Prim2SF x).
Proof.
  unfold valid_lat. intros H. apply andb_prop in H. destruct H as [H1 H2].
  apply (range_bounded x 90 6333186975989760); auto.
Qed.

Lemma valid_lon_bounded (x : float) :
  valid_lon x = true -> bounded_exp (-45) (Prim2SF x).
Proof.
  unfold valid_lon. intros H. apply andb_prop in H. destruct H as [H1 H2].
  apply (range_bounded x 180 6333186975989760); auto.
Qed.

Lemma radians_finite (x : float) :
  valid_lat x = true -> is_finite (radians x) = true.
Proof.
  intros H. apply valid_lat_bounded in H.
  assert (B : bounded_exp (-58) (Prim2SF degToRad)).
  { change (Prim2SF degToRad)
      with (S754_finite false 5030569068109113 (-58)).
    simpl. lia. }
  destruct (SFmul_bounded _ _ _ _ H B ltac:(lia)) as [s Hs].
  apply (is_finite_of _ s). unfold radians. rewrite mul_spec. exact Hs.
Qed.

(** ** The reference platform meets the platform facts *)

Lemma approx_sin_zero : sin_zero approx_platform.
Proof. reflexivity. Qed.

Lemma approx_square_zero : square_zero approx_platform.
Proof. reflexivity. Qed.

Lemma approx_atan2_zero : atan2_zero approx_platform.
Proof. reflexivity. Qed.

Lemma is_finite_opp (x : float) : is_finite (- x) = is_finite x.
Proof.
  unfold is_finite, is_nan, is_infinity.
  rewrite !FloatAxioms.eqb_spec, !abs_spec, !opp_spec.
  destruct (Prim2SF x) as [s|s| |s m e]; try reflexivity;
    destruct s; try reflexivity;
    unfold SFeqb; simpl; rewrite ?Z.compare_refl, ?Pos.compare_cont_refl;
    reflexivity.
Qed.

Lemma approx_sin_series_odd (x : float) :
  Approx.sin_series (- x) = (- Approx.sin_series x)%float.
Proof.
  unfold Approx.sin_series. rewrite mul_opp_opp. apply mul_opp_l.
Qed.

Lemma approx_sin_odd : sin_odd approx_platform.
Proof.
  intros x. simpl. unfold Approx.sin, fmap.
  rewrite approx_sin_series_odd, is_finite_opp.
  destruct (is_finite (Approx.sin_series x)); reflexivity.
Qed.

Lemma approx_square_even : square_even approx_platform.
Proof.
  intros x. simpl. unfold Approx.pow. simpl.
  rewrite mul_opp_opp. reflexivity.
Qed.

Lemma approx_sin_finite : sin_finite approx_platform.
Proof.
  intros x s H _. simpl in H. unfold Approx.sin in H.
  destruct (is_finite (Approx.sin_series x)) eqn:E; inversion H; subst.
  exact E.
Qed.

Lemma approx_square_finite : square_finite approx_platform.
Proof.
  intros x p H _. simpl in H. unfold Approx.pow in H. simpl in H.
  destruct (is_finite (x * x)) eqn:E; inversion H; subst. exact E.
Qed.

Lemma approx_atan2_not_nan : atan2_not_nan approx_platform.
Proof.
  intros y x t H _ _. simpl in H. unfold Approx.atan2 in H.
  destruct (is_nan _) eqn:E; inversion H; subst. exact E.
Qed.

Lemma approx_cos_range : cos_range approx_platform.
Proof.
  intros x _. simpl. unfold Approx.cos.
  destruct (abs (Approx.cos_series x) <=? 1)%float eqn:E.
  - eexists. split; [reflexivity | exact E].
  - exists 1%float. split; reflexivity.
Qed.

(** ** Operations that do not produce a NaN *)

Lemma binary_round_aux_not_nan s m e l :
  0 <= m -> binary_round_aux prec emax s m e l <> S754_nan.
Proof.
  intros Hm. unfold binary_round_aux.
  destruct (shr_fexp prec emax m e l) as [mrs' e'] eqn:E1.
  destruct (shr_fexp_bounds _ _ _ _ _ Hm E1) as [B1 _].
  pose proof (round_nearest_even_bounds (shr_m mrs')
                (loc_of_shr_record mrs') (proj1 B1)) as B2.
  set (m1 := round_nearest_even _ _) in *.
  destruct (shr_fexp prec emax m1 e' loc_Exact) as [mrs'' e''] eqn:E2.
  assert (Hm1 : 0 <= m1) by lia.
  destruct (shr_fexp_bounds _ _ _ _ _ Hm1 E2) as [B3 _].
  destruct (shr_m mrs'') as [|p|p]; try lia; try discriminate.
  destruct (e'' <=? emax - prec)%Z; discriminate.
Qed.

Lemma binary_normalize_not_nan m e sz :
  binary_normalize prec emax m e sz <> S754_nan.
Proof.
  destruct m as [|p|p]; simpl; try discriminate; unfold binary_round;
    destruct (shl_align p e _) as [mz ez];
    apply binary_round_aux_not_nan; lia.
Qed.

Lemma SFsub_not_nan x y :
  is_finite_SF x -> y <> S754_nan -> SFsub prec emax x y <> S754_nan.
Proof.
  destruct x as [sx|sx| |sx mx ex], y as [sy|sy| |sy my ey]; simpl;
    try contradiction; try congruence; intros _ _;
    try (destruct sx, sy; discriminate).
  apply binary_normalize_not_nan.
Qed.

Lemma SFadd_not_nan x y :
  is_finite_SF x -> y <> S754_nan -> SFadd prec emax x y <> S754_nan.
Proof.
  destruct x as [sx|sx| |sx mx ex], y as [sy|sy| |sy my ey]; simpl;
    try contradiction; try congruence; intros _ _;
    try (destruct sx, sy; discriminate).
  apply binary_normalize_not_nan.
Qed.

Lemma SFmul_finite_not_nan x y :
  is_finite_SF x -> is_finite_SF y -> SFmul prec emax x y <> S754_nan.
Proof.
  destruct x as [sx|sx| |sx mx ex], y as [sy|sy| |sy my ey]; simpl;
    try contradiction; intros _ _; try discriminate.
  apply binary_round_aux_not_nan. lia.
Qed.

Lemma SFmul_not_nan x sy my ey :
  x <> S754_nan -> SFmul prec emax x (S754_finite sy my ey) <> S754_nan.
Proof.
  destruct x as [sx|sx| |sx mx ex]; simpl; try congruence; intros _;
    try discriminate.
  apply binary_round_aux_not_nan. lia.
Qed.

Lemma SFdiv_not_nan x sy my ey :
  x <> S754_nan -> SFdiv prec emax x (S754_finite sy my ey) <> S754_nan.
Proof.
  destruct x as [sx|sx| |sx mx ex]; simpl; try congruence; intros _;
    try discriminate.
  destruct (SFdiv_core_binary prec emax (Z.pos mx) ex (Z.pos my) ey)
    as [[mz ez] lz] eqn:E.
  apply binary_round_aux_not_nan.
  unfold SFdiv_core_binary in E.
  set (m' := match _ with Z.pos _ => _ | _ => _ end) in E.
  assert (Hm' : 0 <= m').
  { subst m'. destruct (_ - _ - _); try lia.
    rewrite Z.shiftl_mul_pow2 by lia.
    pose proof (Z.pow_pos_nonneg 2 (Z.pos p)). lia. }
  pose proof (Z_div_mod m' (Z.pos my) ltac:(lia)) as D.
  destruct (Z.div_eucl m' (Z.pos my)) as [q r]. inversion E; subst.
  destruct D as [D1 D2]. clearbody m'. nia.
Qed.

Lemma SFsqrt_not_nan x :
  x <> S754_nan -> SFltb x (S754_zero false) = false ->
  SFsqrt prec emax x <> S754_nan.
Proof.
  destruct x as [sx|sx| |sx mx ex]; simpl; try congruence; intros _;
    unfold SFltb; simpl; try (destruct sx; discriminate).
  destruct sx; [discriminate|]. intros _.
  destruct (SFsqrt_core_binary prec emax (Z.pos mx) ex) as [[mz ez] lz] eqn:E.
  apply binary_round_aux_not_nan.
  unfold SFsqrt_core_binary in E.
  set (m' := match _ with Z.pos _ => _ | _ => _ end) in E.
  pose proof (Z.sqrtrem_spec m') as S.
  destruct (Z.sqrtrem m') as [q r]. inversion E; subst.
  assert (Hm' : 0 <= m').
  { subst m'. destruct (_ - _); try lia.
    rewrite Z.shiftl_mul_pow2 by lia.
    pose proof (Z.pow_pos_nonneg 2 (Z.pos p)). lia. }
  specialize (S Hm'). clear E. clearbody m'. lia.
Qed.

(** The same shapes, read off a primitive float. *)
Lemma not_nan_spec (x : float) :
  is_nan x = false <-> Prim2SF x <> S754_nan.
Proof.
  split; [apply is_nan_false|].
  unfold is_nan. rewrite FloatAxioms.eqb_spec. unfold SFeqb.
  destruct (Prim2SF x) as [s|s| |s m e]; try congruence; intros _;
    simpl; try (destruct s; reflexivity).
  destruct s; rewrite Z.compare_refl, Pos.compare_cont_refl; reflexivity.
Qed.

Lemma is_finite_spec (x : float) :
  is_finite x = true -> is_finite_SF (Prim2SF x).
Proof.
  unfold is_finite, is_nan, is_infinity.
  rewrite !FloatAxioms.eqb_spec, abs_spec.
  change (Prim2SF infinity) with (S754_infinity false).
  destruct (Prim2SF x) as [s|s| |s m e]; simpl; try exact (fun _ => I);
    try discriminate.
  destruct s; discriminate.
Qed.

Lemma finite_or_zero_finite s x : finite_or_zero s x -> is_finite_SF x.
Proof. intros [->|[m [e ->]]]; exact I. Qed.

Lemma bounded_exp_finite k x : bounded_exp k x -> is_finite_SF x.
Proof. destruct x; simpl; tauto. Qed.

Lemma is_finite_not_nan (x : float) : is_finite x = true -> is_nan x = false.
Proof.
  unfold is_finite. intros H. apply negb_true_iff, orb_false_elim in H.
  tauto.
Qed.

(** The half angle of a difference of finite numbers is not a NaN. *)
Lemma half_angle_not_nan (x y : float) :
  is_finite_SF (Prim2SF x) -> is_finite_SF (Prim2SF y) ->
  is_nan (radians (x - y) / 2)%float = false.
Proof.
  intros Fx Fy. apply not_nan_spec. unfold radians.
  rewrite div_spec, mul_spec, sub_spec.
  change (Prim2SF 2) with (S754_finite false 4503599627370496 (-51)).
  change (Prim2SF degToRad) with (S754_finite false 5030569068109113 (-58)).
  apply SFdiv_not_nan, SFmul_not_nan, SFsub_not_nan; auto.
  destruct (Prim2SF y); simpl in *; try contradiction; discriminate.
Qed.

Lemma math_sqrt_not_nan (a y : float) :
  math_sqrt a = Ok y -> is_nan a = false -> is_nan y = false.
Proof.
  unfold math_sqrt. destruct (a <? 0)%float eqn:E; [discriminate|].
  intros H Ha. inversion H; subst. apply not_nan_spec.
  rewrite sqrt_spec. apply SFsqrt_not_nan.
  - apply not_nan_spec, Ha.
  - rewrite FloatAxioms.ltb_spec in E. exact E.
Qed.

(** ** The distance calculator *)

Section HaversineFacts.
Context {P : Platform}.

Lemma sin_square_swap (x y : float) :
  sin_odd P -> square_even P ->
  (s <- math_sin (radians (x - y) / 2) ;; float_pow s 2)
  = (s <- math_sin (radians (y - x) / 2) ;; float_pow s 2).
Proof.
  intros Hs Hp. destruct (half_angle_swap x y) as [E|E]; rewrite E.
  - rewrite Hs.
    destruct (math_sin _) as [s|e]; simpl; [apply Hp | reflexivity].
  - reflexivity.
Qed.

Lemma haversine_swap_Ok lat1 lon1 lat2 lon2 d :
  sin_odd P -> square_even P ->
  haversine_km lat1 lon1 lat2 lon2 = Ok d ->
  haversine_km lat2 lon2 lat1 lon1 = Ok d.
Proof.
  intros Hs Hp H. unfold haversine_km in *.
  pose proof (sin_square_swap lat2 lat1 Hs Hp) as S1.
  pose proof (sin_square_swap lon2 lon1 Hs Hp) as S2.
  destruct (math_sin (radians (lat2 - lat1) / 2)) as [s1|] eqn:E1;
    [|discriminate].
  simpl in H, S1.
  destruct (float_pow s1 2) as [p1|] eqn:E2; [|discriminate]. simpl in H.
  destruct (math_cos (radians lat1)) as [c1|] eqn:E3; [|discriminate].
  simpl in H.
  destruct (math_cos (radians lat2)) as [c2|] eqn:E4; [|discriminate].
  simpl in H.
  destruct (math_sin (radians (lon2 - lon1) / 2)) as [s2|] eqn:E5;
    [|discriminate].
  simpl in H, S2.
  destruct (float_pow s2 2) as [p2|] eqn:E6; [|discriminate]. simpl in H.
  destruct (math_sin (radians (lat1 - lat2) / 2)) as [s1'|]; simpl in S1;
    [|discriminate].
  simpl. rewrite <- S1. simpl.
  destruct (math_sin (radians (lon1 - lon2) / 2)) as [s2'|]; simpl in S2;
    [|discriminate].
  simpl. rewrite <- S2. simpl.
  rewrite (mul_comm c2 c1). exact H.
Qed.

(** The distance is zero as soon as both half-angle arguments are zero. *)
Lemma haversine_zero_core lat1 lon1 lat2 lon2 :
  sin_zero P -> square_zero P -> atan2_zero P -> cos_range P ->
  (radians (lat2 - lat1) / 2 = 0)%float ->
  (radians (lon2 - lon1) / 2 = 0)%float ->
  is_finite (radians lat1) = true ->
  is_finite (radians lat2) = true ->
  haversine_km lat1 lon1 lat2 lon2 = Ok 0%float.
Proof.
  intros Hs Hp Ha Hc E1 E2 F1 F2. unfold haversine_km.
  rewrite E1, E2. unfold sin_zero, square_zero, atan2_zero in *.
  rewrite Hs. simpl. rewrite Hp. simpl.
  destruct (Hc _ F1) as [c1 [C1 B1]]. destruct (Hc _ F2) as [c2 [C2 B2]].
  rewrite C1, C2. simpl.
  rewrite (small_product_zero c1 c2 B1 B2).
  change (math_sqrt 0) with (Ok 0%float).
  change (math_sqrt (1 - 0)) with (Ok 1%float). simpl.
  rewrite Ha. reflexivity.
Qed.

(** Between two valid points the distance, when the function returns, is
    a number. *)
Lemma haversine_not_nan lat1 lon1 lat2 lon2 d :
  sin_finite P -> square_finite P -> cos_range P -> atan2_not_nan P ->
  valid_lat lat1 = true -> valid_lon lon1 = true ->
  valid_lat lat2 = true -> valid_lon lon2 = true ->
  haversine_km lat1 lon1 lat2 lon2 = Ok d ->
  is_nan d = false.
Proof.
  intros Hsin Hsq Hcos Hatan V1 W1 V2 W2 H.
  pose proof (bounded_exp_finite _ _ (valid_lat_bounded _ V1)) as F1.
  pose proof (bounded_exp_finite _ _ (valid_lat_bounded _ V2)) as F2.
  pose proof (bounded_exp_finite _ _ (valid_lon_bounded _ W1)) as G1.
  pose proof (bounded_exp_finite _ _ (valid_lon_bounded _ W2)) as G2.
  unfold haversine_km in H.
  destruct (math_sin (radians (lat2 - lat1) / 2)) as [s1|] eqn:E1;
    [|discriminate]. cbn [bind] in H.
  destruct (float_pow s1 2) as [p1|] eqn:E2; [|discriminate].
  cbn [bind] in H.
  destruct (math_cos (radians lat1)) as [c1|] eqn:E3; [|discriminate].
  cbn [bind] in H.
  destruct (math_cos (radians lat2)) as [c2|] eqn:E4; [|discriminate].
  cbn [bind] in H.
  destruct (math_sin (radians (lon2 - lon1) / 2)) as [s2|] eqn:E5;
    [|discriminate]. cbn [bind] in H.
  destruct (float_pow s2 2) as [p2|] eqn:E6; [|discriminate].
  cbn [bind] in H.
  set (a := (p1 + c1 * c2 * p2)%float) in *.
  destruct (math_sqrt a) as [y|] eqn:E7; [|discriminate]. cbn [bind] in H.
  destruct (math_sqrt (1 - a)) as [x|] eqn:E8; [|discriminate].
  cbn [bind] in H.
  destruct (math_atan2 y x) as [t|] eqn:E9; [|discriminate].
  cbn [bind] in H. inversion H; subst d; clear H.
  (* the squares are finite *)
  pose proof (Hsq _ _ E2 (Hsin _ _ E1 (half_angle_not_nan _ _ F2 F1))) as Fp1.
  pose proof (Hsq _ _ E6 (Hsin _ _ E5 (half_angle_not_nan _ _ G2 G1))) as Fp2.
  apply is_finite_spec in Fp1, Fp2.
  (* the cosines are in [-1, 1] *)
  destruct (Hcos _ (radians_finite _ V1)) as [c1' [C1 B1]].
  destruct (Hcos _ (radians_finite _ V2)) as [c2' [C2 B2]].
  rewrite E3 in C1. rewrite E4 in C2. inversion C1; inversion C2; subst c1' c2'.
  assert (One : Prim2SF 1 = S754_finite false 4503599627370496 (-52))
    by reflexivity.
  pose proof (abs_bounded _ _ _ _ One B1) as Bc1.
  pose proof (abs_bounded _ _ _ _ One B2) as Bc2.
  destruct (SFmul_bounded _ _ _ _ Bc1 Bc2 ltac:(lia)) as [sc Hc12].
  apply finite_or_zero_finite in Hc12.
  (* [a] is not a NaN *)
  assert (Na : is_nan a = false).
  { apply not_nan_spec. unfold a. rewrite add_spec, mul_spec, mul_spec.
    apply SFadd_not_nan; [exact Fp1|].
    apply SFmul_finite_not_nan; assumption. }
  pose proof (math_sqrt_not_nan _ _ E7 Na) as Ny.
  assert (N1a : is_nan (1 - a)%float = false).
  { apply not_nan_spec. rewrite sub_spec. rewrite One.
    apply SFsub_not_nan; [exact I | apply not_nan_spec, Na]. }
  pose proof (math_sqrt_not_nan _ _ E8 N1a) as Nx.
  pose proof (Hatan _ _ _ E9 Ny Nx) as Nt.
  apply not_nan_spec. rewrite mul_comm, mul_spec.
  change (Prim2SF (6371 * 2)%float)
    with (S754_finite false 7004988580560896 (-39)).
  apply SFmul_not_nan, not_nan_spec, Nt.
Qed.

End HaversineFacts.

(** ** Sorting *)

Lemma In_firstn {A : Type} (x : A) (n : nat) (l : list A) :
  In x (firstn n l) -> In x l.
Proof.
  revert n. induction l as [|a l IH]; intros [|n]; simpl; try tauto.
  intros [H|H]; [left; exact H | right; eapply IH; exact H].
Qed.

Section SortedFacts.
Context {A : Type} (key : A -> float).

Lemma insert_by_perm (r : A) (l : list A) :
  Permutation (insert_by key r l) (r :: l).
Proof.
  induction l as [|x l IH]; simpl.
  - apply Permutation_refl.
  - destruct (key x <? key r)%float.
    + eapply perm_trans; [apply perm_skip, IH | apply perm_swap].
    + apply Permutation_refl.
Qed.

Lemma sorted_perm (l : list A) : Permutation (sorted key l) l.
Proof.
  induction l as [|x l IH]; simpl.
  - apply perm_nil.
  - eapply perm_trans; [apply insert_by_perm | apply perm_skip, IH].
Qed.

Lemma insert_by_sorted (r : A) (l : list A) :
  is_nan (key r) = false -> no_nan key l ->
  StronglySorted (key_le key) l -> StronglySorted (key_le key) (insert_by key r l).
Proof.
  intros Hr Hl Hs. induction Hs as [|x l Hs IH Hx]; simpl.
  - constructor; constructor.
  - inversion Hl as [|? ? Nx Nl]; subst.
    destruct (key x <? key r)%float eqn:E.
    + constructor; [apply IH, Nl|].
      apply (Permutation_Forall (Permutation_sym (insert_by_perm r l))).
      constructor; [apply ltb_leb, E | exact Hx].
    + assert (Hrx : key_le key r x) by (apply not_ltb_leb; assumption).
      constructor; [constructor; assumption|].
      constructor; [exact Hrx|].
      eapply Forall_impl; [|exact Hx].
      intros y Hy. eapply leb_trans; eassumption.
Qed.

Lemma sorted_sorted (l : list A) :
  no_nan key l -> StronglySorted (key_le key) (sorted key l).
Proof.
  induction l as [|x l IH]; simpl; intros H.
  - constructor.
  - inversion H; subst. apply insert_by_sorted; auto.
    apply (Permutation_Forall (Permutation_sym (sorted_perm l))).
    assumption.
Qed.

(** Stability: the records of any one key value keep their order. *)
Lemma insert_by_filter (d : float) (r : A) (l : list A) :
  filter (fun x => key x =? d)%float (insert_by key r l)
  = filter (fun x => key x =? d)%float (r :: l).
Proof.
  induction l as [|x l IH]; simpl; [reflexivity|].
  destruct (key x <? key r)%float eqn:E; [|reflexivity].
  simpl. rewrite IH. simpl.
  destruct (key x =? d)%float eqn:Ex, (key r =? d)%float eqn:Er;
    try reflexivity.
  rewrite (eqb_not_ltb _ _ _ Er Ex) in E. discriminate.
Qed.

Lemma sorted_stable (d : float) (l : list A) :
  filter (fun x => key x =? d)%float (sorted key l)
  = filter (fun x => key x =? d)%float l.
Proof.
  induction l as [|x l IH]; simpl; [reflexivity|].
  rewrite insert_by_filter. simpl. rewrite IH. reflexivity.
Qed.


Lemma StronglySorted_firstn (R : A -> A -> Prop) (n : nat) (l : list A) :
  StronglySorted R l -> StronglySorted R (firstn n l).
Proof.
  intros H. revert n. induction H as [|x l Hs IH Hx]; intros [|n]; simpl;
    try constructor.
  - apply IH.
  - rewrite Forall_forall in *. intros y Hy. apply Hx.
    eapply In_firstn; eassumption.
Qed.

Lemma StronglySorted_nth_error (R : A -> A -> Prop) (l : list A) :
  StronglySorted R l ->
  forall i j x y, (i < j)%nat ->
    nth_error l i = Some x -> nth_error l j = Some y -> R x y.
Proof.
  induction 1 as [|a l Hs IH Ha]; intros i j x y Hij Hi Hj.
  - destruct i; discriminate.
  - destruct j as [|j]; [lia|]. simpl in Hj.
    destruct i as [|i]; simpl in Hi.
    + inversion Hi; subst. rewrite Forall_forall in Ha.
      apply Ha. eapply nth_error_In; eassumption.
    + eapply IH; [|eassumption|eassumption]. lia.
Qed.

End SortedFacts.

Lemma slice_to_firstn {A : Type} (l : list A) (n : Z) :
  exists k, slice_to l n = firstn k l.
Proof. unfold slice_to. destruct (0 <=? n)%Z; eauto. Qed.

Lemma slice_to_nonneg {A : Type} (l : list A) (n : Z) :
  (0 <= n)%Z -> slice_to l n = firstn (Z.to_nat n) l.
Proof.
  intros H. unfold slice_to.
  destruct (0 <=? n)%Z eqn:E; [reflexivity|]. apply Z.leb_gt in E. lia.
Qed.

(** ** The runtime model on small inputs *)

(** Equal keys keep the order of the list. *)
Example sorted_ties_keep_order :
  sorted fst [(1, "a"); (1, "b"); (0.5, "c"); (1, "d")]%float
  = [(0.5, "c"); (1, "a"); (1, "b"); (1, "d")]%float.
Proof. reflexivity. Qed.

(** The scenario of the specification: distances 1.2, 0.8 and 3.9. *)
#[warnings="-inexact-float"]
Example sorted_scenario :
  sorted (fun x : float => x) [1.2; 0.8; 3.9]%float = [0.8; 1.2; 3.9]%float.
Proof. reflexivity. Qed.

(** A NaN is not ordered by [<]: the insertion sort, like Python's sort on
    this list, leaves the list as it is. *)
Example sorted_with_nan :
  sorted (fun x : float => x) [2; nan; 1]%float = [2; nan; 1]%float.
Proof. reflexivity. Qed.

(** A negative bound of a slice drops items from the end. *)
Example slice_to_negative : slice_to [1; 2; 3] (-1) = [1; 2].
Proof. reflexivity. Qed.

Example float_of_int_rounds_to_even :
  float_of_int (2 ^ 53 + 1) = Ok 9007199254740992%float
  /\ float_of_int (2 ^ 53 + 3) = Ok 9007199254740996%float
  /\ float_of_int (2 ^ 1024) = Raise OverflowError.
Proof. repeat split; reflexivity. Qed.

Example int_of_float_truncates :
  int_of_float (-0x1.6cccccccccccdp+2 * 1000) = Ok (-5700)
  /\ int_of_float (2.75 * 1000) = Ok 2750
  /\ int_of_float nan = Raise ValueError
  /\ int_of_float infinity = Raise OverflowError.
Proof. repeat split; reflexivity. Qed.

(** The known fixture: one degree of longitude at the equator. *)
Example haversine_one_degree :
  haversine_km (P := recorded_platform) 0 0 0 1
  = Ok 0x1.bcc79ad9adfecp+6%float
  /\ (110.5 <? 0x1.bcc79ad9adfecp+6)%float = true
  /\ (0x1.bcc79ad9adfecp+6 <? 111.75)%float = true.
Proof. repeat split; reflexivity. Qed.

(** ** The engine *)

Lemma concat_nonempty (sep s : string) (ss : list string) :
  s <> EmptyString -> String.concat sep (s :: ss) <> EmptyString.
Proof.
  intros Hs. destruct ss as [|s' ss]; simpl; [exact Hs|].
  destruct s; [congruence | discriminate].
Qed.

Lemma addr_parts_values (t : list (string * pyval)) (ks : list string) :
  addr_parts (PDict t) ks = Ok (nonempty_values t ks).
Proof.
  induction ks as [|k ks IH]; simpl; [reflexivity|].
  destruct (dict_get t k) as [v|]; simpl.
  - destruct (truthy v); simpl; rewrite IH; reflexivity.
  - exact IH.
Qed.

Lemma nonempty_values_truthy (t : list (string * pyval)) (ks : list string) :
  Forall (fun v => truthy v = true) (nonempty_values t ks).
Proof.
  induction ks as [|k ks IH]; simpl; [constructor|].
  destruct (dict_get t k) as [v|]; [|exact IH].
  destruct (truthy v) eqn:E; [constructor; assumption | exact IH].
Qed.

(** The joined address components are empty exactly when there are none. *)
Lemma joined_truthy (vs : list pyval) (ss : list string) :
  Forall (fun v => truthy v = true) vs ->
  expect_strs vs = Ok ss ->
  truthy (PStr (String.concat ", " ss))
  = match ss with [] => false | _ => true end.
Proof.
  intros Hv He. destruct vs as [|v vs]; simpl in He.
  - inversion He; subst. reflexivity.
  - destruct v; try discriminate. bind_inv He. inversion He; subst.
    inversion Hv as [|? ? Hs _]; subst. simpl in Hs.
    change (negb (String.eqb (String.concat ", " (s :: v)) EmptyString)
            = true).
    apply negb_true_iff, String.eqb_neq, concat_nonempty.
    intros ->. discriminate.
Qed.

Section EngineFacts.
Context {P : Platform}.

Lemma collect_acc lat0 lon0 (els : list pyval) : forall acc,
  collect lat0 lon0 els acc
  = (rs <- collect lat0 lon0 els [] ;; Ok (acc ++ rs)%list).
Proof.
  induction els as [|el els IH]; intros acc; simpl.
  - rewrite app_nil_r. reflexivity.
  - destruct (process_element lat0 lon0 el) as [[x|]|e]; simpl;
      try reflexivity.
    + rewrite (IH (acc ++ [x])%list), (IH [x]).
      destruct (collect lat0 lon0 els []); simpl; [|reflexivity].
      rewrite <- app_assoc. reflexivity.
    + apply IH.
Qed.

(** The loop keeps the order of the elements. *)
Lemma collect_outputs lat0 lon0 (els : list pyval) : forall results,
  collect lat0 lon0 els [] = Ok results ->
  exists outs,
    Forall2 (fun el o => process_element lat0 lon0 el = Ok o) els outs
    /\ results = somes outs.
Proof.
  induction els as [|el els IH]; intros results H; simpl in H.
  - inversion H; subst. exists []. split; [constructor | reflexivity].
  - bind_inv H. rewrite collect_acc in H. bind_inv H.
    inversion H; subst; clear H.
    destruct (IH _ E0) as [outs [F R]]. exists (v :: outs). split.
    + constructor; assumption.
    + subst v0. destruct v; reflexivity.
Qed.

Lemma collect_In lat0 lon0 (els : list pyval) results r :
  collect lat0 lon0 els [] = Ok results -> In r results ->
  exists el, In el els /\ process_element lat0 lon0 el = Ok (Some r).
Proof.
  intros H Hr. destruct (collect_outputs _ _ _ _ H) as [outs [F R]].
  subst results. clear H. induction F as [|el o els outs Ho F IH].
  - contradiction.
  - simpl in Hr. apply in_app_or in Hr. destruct Hr as [Hr|Hr].
    + destruct o as [x|]; simpl in Hr; [|contradiction].
      destruct Hr as [->|[]]. exists el. split; [left; reflexivity | exact Ho].
    + destruct (IH Hr) as [el' [I' H']]. exists el'. split; [right|]; auto.
Qed.

Lemma collect_app lat0 lon0 (els1 els2 : list pyval) : forall acc,
  collect lat0 lon0 (els1 ++ els2) acc
  = (rs <- collect lat0 lon0 els1 acc ;; collect lat0 lon0 els2 rs).
Proof.
  induction els1 as [|el els1 IH]; intros acc; simpl; [reflexivity|].
  destruct (process_element lat0 lon0 el) as [o|e]; simpl;
    [apply IH | reflexivity].
Qed.

(** A reply whose processing returns. *)
Lemma collect_reply_inv lat0 lon0 reply results :
  collect_reply lat0 lon0 reply = Ok results ->
  exists res body elements els,
    reply = Ok res
    /\ raise_for_status res = Ok tt
    /\ json res = Ok body
    /\ py_get body "elements" (PList []) = Ok elements
    /\ py_iter elements = Ok els
    /\ collect lat0 lon0 els [] = Ok results.
Proof.
  unfold collect_reply. intros H.
  destruct reply as [res|]; [|discriminate]. cbn [bind] in H.
  destruct (raise_for_status res) as [[]|] eqn:E1; [|discriminate].
  cbn [bind] in H.
  destruct (json res) as [body|] eqn:E2; [|discriminate]. cbn [bind] in H.
  destruct (py_get body "elements" (PList [])) as [elements|] eqn:E3;
    [|discriminate].
  cbn [bind] in H.
  destruct (py_iter elements) as [els|] eqn:E4; [|discriminate].
  cbn [bind] in H.
  exists res, body, elements, els. repeat split; assumption.
Qed.

(** A run of the engine that returns. *)
Lemma overpass_query_inv cfg post lat0 lon0 radius_km amenity out :
  overpass_query cfg post lat0 lon0 radius_km amenity = Ok out ->
  exists radius_m results,
    int_of_float (radius_km * 1000) = Ok radius_m
    /\ collect_reply lat0 lon0
         (post (OVERPASS_URL cfg) (query_text amenity radius_m lat0 lon0) 30)
       = Ok results
    /\ out = slice_to (sorted distance_km results) (MAX_RESULTS cfg).
Proof.
  unfold overpass_query, process_reply. intros H.
  destruct (int_of_float (radius_km * 1000)) as [m|] eqn:E1; [|discriminate].
  cbn [bind] in H.
  destruct (collect_reply lat0 lon0 _) as [results|] eqn:E2; [|discriminate].
  cbn [bind] in H. inversion H; subst.
  exists m, results. repeat split; assumption.
Qed.

End EngineFacts.

Lemma name_rule (t : list (string * pyval)) :
  py_or (py_get (PDict t) "name" PNone)
    (py_or (py_get (PDict t) "operator" PNone) (Ok (PStr "Unknown")))
  = Ok (or_default (first_nonempty t NAME_KEYS) "Unknown").
Proof.
  unfold py_or, py_get, NAME_KEYS. simpl.
  destruct (dict_get t "name") as [v|]; simpl;
    [destruct (truthy v); [reflexivity|]|];
    (destruct (dict_get t "operator") as [w|]; simpl;
      [destruct (truthy w); reflexivity | reflexivity]).
Qed.

Lemma contact_rule (t : list (string * pyval)) (phone : pyval) :
  py_or (py_get (PDict t) "phone" PNone)
    (py_or (py_get (PDict t) "contact:phone" PNone)
       (py_get (PDict t) "telephone" PNone)) = Ok phone ->
  py_or (Ok phone) (Ok (PStr "Not available"))
  = Ok (or_default (first_nonempty t PHONE_KEYS) "Not available").
Proof.
  unfold py_or, py_get, PHONE_KEYS. simpl.
  destruct (dict_get t "phone") as [v|]; simpl;
    [destruct (truthy v) eqn:Ev;
       [intros H; inversion H; subst; rewrite Ev; reflexivity|]|];
    (destruct (dict_get t "contact:phone") as [w|]; simpl;
      [destruct (truthy w) eqn:Ew;
         [intros H; inversion H; subst; rewrite Ew; reflexivity|]|];
      (destruct (dict_get t "telephone") as [u|]; simpl;
         intros H; inversion H; subst;
         [destruct (truthy phone); reflexivity | reflexivity])).
Qed.

Section ElementFacts.
Context {P : Platform}.

Lemma process_element_inv lat0 lon0 (el : pyval) (r : AmenityResult) :
  process_element lat0 lon0 el = Ok (Some r) ->
  exists d t ss lat2 lon2,
    el = PDict d
    /\ tags_of d = PDict t
    /\ name r = or_default (first_nonempty t NAME_KEYS) "Unknown"
    /\ contact r = or_default (first_nonempty t PHONE_KEYS) "Not available"
    /\ expect_strs (nonempty_values t ADDR_KEYS) = Ok ss
    /\ address r = address_of t ss
    /\ coordinate el = Ok (lat r, lon r)
    /\ is_none (lat r) = false
    /\ is_none (lon r) = false
    /\ as_float (lat r) = Ok lat2
    /\ as_float (lon r) = Ok lon2
    /\ haversine_km lat0 lon0 lat2 lon2 = Ok (distance_km r).
Proof.
  unfold process_element. intros H.
  destruct el as [| | | | | |d]; try discriminate.
  change (py_get (PDict d) "tags" (PDict [])) with (Ok (tags_of d)) in H.
  cbn [bind] in H.
  destruct (tags_of d) as [| | | | | |t] eqn:Et; try discriminate.
  rewrite name_rule in H. cbn [bind] in H.
  destruct (py_or (py_get (PDict t) "phone" PNone) _) as [phone|] eqn:Ep;
    [|discriminate].
  apply contact_rule in Ep. cbn [bind] in H.
  rewrite addr_parts_values in H. cbn [bind] in H.
  unfold str_join in H.
  destruct (expect_strs (nonempty_values t ADDR_KEYS)) as [ss|] eqn:Es;
    [|discriminate].
  cbn [bind] in H.
  unfold py_or at 1 in H. cbn [bind] in H.
  rewrite (joined_truthy _ _ (nonempty_values_truthy t ADDR_KEYS) Es) in H.
  assert (Ha : (if match ss with [] => false | _ => true end
                then Ok (PStr (String.concat ", " ss))
                else py_get (PDict t) "addr:full" (PStr "Not available"))
               = Ok (address_of t ss)).
  { destruct ss; reflexivity. }
  rewrite Ha in H. clear Ha. cbn [bind] in H.
  destruct (coordinate (PDict d)) as [[lat_e lon_e]|] eqn:Ec; [|discriminate].
  cbn [bind] in H.
  destruct (is_none lat_e || is_none lon_e) eqn:En; [discriminate|].
  apply orb_false_elim in En. destruct En as [En1 En2].
  rewrite Ep in H. cbn [bind] in H.
  destruct (as_float lat_e) as [lat2|] eqn:E1; [|discriminate].
  cbn [bind] in H.
  destruct (as_float lon_e) as [lon2|] eqn:E2; [|discriminate].
  cbn [bind] in H.
  destruct (haversine_km lat0 lon0 lat2 lon2) as [dist|] eqn:Eh;
    [|discriminate].
  simpl in H. inversion H; subst; clear H. simpl.
  exists d, t, ss, lat2, lon2. repeat split; auto.
Qed.

(** An element without a resolved coordinate is skipped, whatever its
    tags hold, as long as they are strings. *)
Lemma process_element_skip lat0 lon0 (el : pyval) lat_e lon_e :
  raw_element el ->
  coordinate el = Ok (lat_e, lon_e) ->
  is_none lat_e || is_none lon_e = true ->
  process_element lat0 lon0 el = Ok None.
Proof.
  intros [d [-> [_ [[t [Et St]] _]]]] Ec En.
  unfold process_element.
  change (py_get (PDict d) "tags" (PDict [])) with (Ok (tags_of d)).
  rewrite Et. cbn [bind].
  rewrite name_rule. cbn [bind].
  assert (Hp : exists phone,
    py_or (py_get (PDict t) "phone" PNone)
      (py_or (py_get (PDict t) "contact:phone" PNone)
         (py_get (PDict t) "telephone" PNone)) = Ok phone).
  { unfold py_or, py_get. simpl.
    repeat match goal with
    | |- context [dict_get t ?k] => destruct (dict_get t k); simpl
    | |- context [truthy ?v] => destruct (truthy v); simpl
    end; eauto. }
  destruct Hp as [phone Hp]. rewrite Hp. cbn [bind].
  rewrite addr_parts_values. cbn [bind].
  assert (Hs : exists ss, expect_strs (nonempty_values t ADDR_KEYS) = Ok ss).
  { generalize ADDR_KEYS. intros ks.
    induction ks as [|k ks [ss IH]]; simpl; [eauto|].
    destruct (dict_get t k) as [v|] eqn:Ek; [|eauto].
    destruct (truthy v); [|eauto].
    destruct (St _ _ Ek) as [s ->]. simpl. rewrite IH. simpl. eauto. }
  destruct Hs as [ss Hs]. unfold str_join. rewrite Hs. cbn [bind].
  unfold py_or at 1. cbn [bind].
  rewrite (joined_truthy _ _ (nonempty_values_truthy t ADDR_KEYS) Hs).
  assert (Ha : (if match ss with [] => false | _ => true end
                then Ok (PStr (String.concat ", " ss))
                else py_get (PDict t) "addr:full" (PStr "Not available"))
               = Ok (address_of t ss)).
  { destruct ss; reflexivity. }
  rewrite Ha. cbn [bind]. rewrite Ec. cbn [bind]. rewrite En. reflexivity.
Qed.

(** The results computed from a valid origin and elements at valid
    coordinates carry distances that are numbers, hence keys that [<]
    orders totally. *)
Lemma valid_points_no_nan lat0 lon0 (els : list pyval) results :
  sin_finite P -> square_finite P -> cos_range P -> atan2_not_nan P ->
  valid_lat lat0 = true -> valid_lon lon0 = true ->
  collect lat0 lon0 els [] = Ok results ->
  Forall valid_coordinates results ->
  no_nan distance_km results.
Proof.
  intros Hsin Hsq Hcos Hatan V0 W0 Hc Hv. unfold no_nan.
  apply Forall_forall. intros r Hr.
  destruct (proj1 (Forall_forall _ _) Hv r Hr) as [la [lo [A1 [A2 [V W]]]]].
  destruct (collect_In _ _ _ _ _ Hc Hr) as [el [_ He]].
  destruct (process_element_inv _ _ _ _ He)
    as [d [t [ss [lat2 [lon2 [_ [_ [_ [_ [_ [_ [_ [_ [_ [B1 [B2 Hd]]]]]]]]]]]]]]]].
  rewrite A1 in B1. rewrite A2 in B2. inversion B1; inversion B2; subst.
  exact (haversine_not_nan _ _ _ _ _ Hsin Hsq Hcos Hatan V0 W0 V W Hd).
Qed.

End ElementFacts.

(** The sample reply, seen from the valid origin (12.25, 77.5): its
    results are at valid coordinates, so their distances are numbers. *)
Example sample_results_no_nan : no_nan distance_km sample_results.
Proof.
  apply (valid_points_no_nan (P := approx_platform) 12.25 77.5
           [sample_relation; sample_node; sample_way_no_center; sample_way]).
  - exact approx_sin_finite.
  - exact approx_square_finite.
  - exact approx_cos_range.
  - exact approx_atan2_not_nan.
  - reflexivity.
  - reflexivity.
  - vm_compute. reflexivity.
  - unfold sample_results.
    repeat (apply Forall_cons;
            [eexists; eexists;
             split; [reflexivity|];
             split; [reflexivity|];
             split; vm_compute; reflexivity|]).
    apply Forall_nil.
Qed.

(** ** Query construction *)

Lemma Qtrunc_int (n : Z) : Qtrunc (n # 1) = n.
Proof.
  unfold Qtrunc, Qle_bool, Qceiling, Qfloor. simpl.
  destruct (0 <=? n * 1)%Z; rewrite ?Z.div_1_r; lia.
Qed.

Lemma Qtrunc_pos (m d : positive) :
  Qtrunc (Zpos m # d) = (Zpos m / Zpos d)%Z.
Proof. reflexivity. Qed.

Lemma Qtrunc_neg (m d : positive) :
  Qtrunc (Zneg m # d) = (- (Zpos m / Zpos d))%Z.
Proof. reflexivity. Qed.

(** [int] of a float is the exact value of the float rounded toward zero. *)
Lemma int_of_float_trunc (x : float) (z : Z) :
  int_of_float x = Ok z ->
  exists q, float_value x = Some q /\ z = Qtrunc q.
Proof.
  unfold int_of_float, float_value.
  destruct (Prim2SF x) as [s|s| |s m e]; try discriminate;
    intros H; inversion H; subst; clear H; simpl SF2Q.
  - exists (0 # 1)%Q. split; reflexivity.
  - eexists. split; [reflexivity|].
    destruct e as [|k|k].
    + rewrite Qtrunc_int. destruct s; cbn; rewrite Pos.mul_1_r; reflexivity.
    + rewrite Qtrunc_int. rewrite Z.shiftl_mul_pow2 by lia.
      destruct s; unfold cond_Zopp; rewrite ?Z.mul_opp_l; reflexivity.
    + rewrite Z.shiftl_div_pow2 by lia.
      change (- Z.neg k)%Z with (Zpos k).
      replace (2 ^ Zpos k)%Z with (Zpos (2 ^ k)) by apply Pos2Z.inj_pow.
      destruct s; simpl cond_Zopp;
        [rewrite Qtrunc_neg | rewrite Qtrunc_pos]; reflexivity.
Qed.

Lemma append_assoc (a b c : string) : (a ++ b) ++ c = a ++ (b ++ c).
Proof.
  induction a as [|x a IH]; simpl; [reflexivity | rewrite IH; reflexivity].
Qed.

Lemma query_text_render {P : Platform} amenity radius_m lat0 lon0 :
  query_text amenity radius_m lat0 lon0
  = render (spec_request amenity radius_m lat0 lon0).
Proof.
  unfold query_text, render, spec_request, render_selector. simpl.
  repeat (rewrite !append_assoc; simpl). reflexivity.
Qed.

(** ** Reading a query back *)

Lemma strip_prefix_app (p s : string) : strip_prefix p (p ++ s) = Some s.
Proof.
  induction p as [|a p IH]; simpl; [reflexivity|].
  rewrite Ascii.eqb_refl. exact IH.
Qed.

Lemma span_app (f : ascii -> bool) (t s : string) :
  all_chars f t = true -> stops f s -> span f (t ++ s) = (t, s).
Proof.
  intros Ht Hs. induction t as [|c t IH]; simpl.
  - destruct s as [|c s]; [reflexivity|]. simpl in Hs. simpl.
    rewrite Hs. reflexivity.
  - simpl in Ht. apply andb_true_iff in Ht. destruct Ht as [Hc Ht].
    rewrite Hc, (IH Ht). reflexivity.
Qed.

Lemma string_length_app (a b : string) :
  String.length (a ++ b) = (String.length a + String.length b)%nat.
Proof. induction a as [|c a IH]; simpl; [reflexivity | now rewrite IH]. Qed.

Lemma append_nil_r (s : string) : s ++ EmptyString = s.
Proof. induction s as [|c s IH]; simpl; [reflexivity | now rewrite IH]. Qed.

(** The decimal text of an integer is read back as the integer. *)
Lemma parse_Z_int_str (z : Z) : parse_Z (int_str z) = Some z.
Proof.
  unfold parse_Z, int_str. rewrite NilZero.isi.
  - simpl. rewrite DecimalZ.of_to. reflexivity.
  - destruct z; simpl; try discriminate.
    intros H. inversion H as [E]. exact (Unsigned.to_uint_nonnil _ E).
  - destruct z; simpl; try discriminate.
    intros H. inversion H as [E]. exact (Unsigned.to_uint_nonnil _ E).
Qed.

Lemma uint_chars (d : Decimal.uint) :
  all_chars int_char (NilEmpty.string_of_uint d) = true.
Proof. induction d; simpl; auto. Qed.

Lemma int_str_chars (z : Z) : all_chars int_char (int_str z) = true.
Proof.
  unfold int_str, NilZero.string_of_int, NilZero.string_of_uint.
  destruct (Z.to_int z) as [d|d]; destruct d; simpl;
    try reflexivity; apply uint_chars.
Qed.

Lemma parse_int_app (z : Z) (s : string) :
  stops int_char s -> parse_int (int_str z ++ s) = Some (z, s).
Proof.
  intros Hs. unfold parse_int.
  rewrite (span_app int_char _ _ (int_str_chars z) Hs). cbn [fst snd].
  rewrite parse_Z_int_str. reflexivity.
Qed.

Lemma parse_number_app (t s : string) :
  number_text t = true -> stops number_char s ->
  parse_number (t ++ s) = Some (t, s).
Proof.
  unfold number_text, parse_number. intros Ht Hs.
  apply andb_true_iff in Ht. destruct Ht as [Hn Hc].
  rewrite (span_app number_char _ _ Hc Hs). cbn [fst]. rewrite Hn.
  reflexivity.
Qed.

Lemma parse_ident_app (t s : string) :
  ident_text t = true -> stops is_lower s ->
  parse_ident (t ++ s) = Some (t, s).
Proof.
  unfold ident_text, parse_ident. intros Ht Hs.
  apply andb_true_iff in Ht. destruct Ht as [Hn Hc].
  rewrite (span_app is_lower _ _ Hc Hs). cbn [fst]. rewrite Hn.
  reflexivity.
Qed.

Lemma parse_quoted_app (t s : string) :
  plain_text t = true ->
  parse_quoted (dq ++ t ++ dq ++ s) = Some (t, s).
Proof.
  intros Ht. unfold parse_quoted. rewrite strip_prefix_app. cbn [obind].
  rewrite (span_app plain_char t (dq ++ s) Ht) by reflexivity.
  cbn [fst snd]. rewrite strip_prefix_app. reflexivity.
Qed.

Lemma parse_geometry_name (g : geometry) (s : string) :
  parse_geometry (geometry_name g ++ "[" ++ s) = Some (g, "[" ++ s).
Proof. destruct g; reflexivity. Qed.

Lemma parse_selector_render (x : selector) (s : string) :
  wf_selector x = true ->
  parse_selector (render_selector x ++ s) = Some (x, s).
Proof.
  unfold wf_selector. intros H.
  apply andb_true_iff in H. destruct H as [H Hlo].
  apply andb_true_iff in H. destruct H as [H Hla].
  apply andb_true_iff in H. destruct H as [Hk Hv].
  unfold render_selector. rewrite !append_assoc.
  unfold parse_selector.
  rewrite strip_prefix_app. cbn [obind].
  rewrite parse_geometry_name. cbn [obind fst snd].
  rewrite strip_prefix_app. cbn [obind].
  rewrite (parse_quoted_app _ _ Hk). cbn [obind fst snd].
  rewrite strip_prefix_app. cbn [obind].
  rewrite (parse_quoted_app _ _ Hv). cbn [obind fst snd].
  rewrite strip_prefix_app. cbn [obind].
  rewrite parse_int_app by reflexivity. cbn [obind fst snd].
  rewrite strip_prefix_app. cbn [obind].
  rewrite (parse_number_app _ _ Hla) by reflexivity. cbn [obind fst snd].
  rewrite strip_prefix_app. cbn [obind].
  rewrite (parse_number_app _ _ Hlo) by reflexivity. cbn [obind fst snd].
  rewrite strip_prefix_app. cbn [obind].
  rewrite strip_prefix_app. cbn [obind].
  destruct x; reflexivity.
Qed.

Lemma render_selector_starts (x : selector) (s : string) :
  strip_prefix ");" (render_selector x ++ s) = None.
Proof. reflexivity. Qed.

Lemma render_selector_length (x : selector) :
  (1 <= String.length (render_selector x))%nat.
Proof. unfold render_selector. simpl. lia. Qed.

Lemma concat_cons (x : string) (xs : list string) :
  String.concat EmptyString (x :: xs) = x ++ String.concat EmptyString xs.
Proof.
  destruct xs as [|y ys]; simpl; [symmetry; apply append_nil_r|].
  reflexivity.
Qed.

Lemma rendered_length (xs : list selector) :
  (List.length xs
   <= String.length
        (String.concat EmptyString (map render_selector xs)))%nat.
Proof.
  induction xs as [|x xs IH]; [simpl; lia|].
  change (map render_selector (x :: xs))
    with (render_selector x :: map render_selector xs).
  rewrite concat_cons, string_length_app.
  pose proof (render_selector_length x). simpl. lia.
Qed.

Lemma parse_selectors_render (xs : list selector) : forall fuel s,
  forallb wf_selector xs = true ->
  (List.length xs <= fuel)%nat ->
  parse_selectors fuel
    (String.concat EmptyString (map render_selector xs) ++ ");" ++ s)
  = Some (xs, ");" ++ s).
Proof.
  induction xs as [|x xs IH]; intros fuel s Hw Hf.
  - destruct fuel; reflexivity.
  - change (map render_selector (x :: xs))
      with (render_selector x :: map render_selector xs).
    rewrite concat_cons, append_assoc.
    simpl in Hw. apply andb_true_iff in Hw. destruct Hw as [Hx Hw].
    destruct fuel as [|fuel]; [simpl in Hf; lia|].
    cbn [parse_selectors]. rewrite render_selector_starts.
    rewrite (parse_selector_render x _ Hx). cbn [obind fst snd].
    rewrite (IH fuel s Hw) by (simpl in Hf; lia).
    reflexivity.
Qed.

(** The reader inverts the printer on the requests with a plain format,
    plain tag texts and coordinates printed as decimal numbers: on those
    the text determines the request. *)
Lemma parse_query_render (q : ql_request) :
  wf_request q = true -> parse_query (render q) = Some q.
Proof.
  unfold wf_request. intros H. apply andb_true_iff in H.
  destruct H as [Hf Hu].
  unfold render, parse_query.
  rewrite strip_prefix_app. cbn [obind].
  rewrite strip_prefix_app. cbn [obind].
  rewrite (parse_ident_app _ _ Hf) by reflexivity. cbn [obind fst snd].
  rewrite strip_prefix_app. cbn [obind].
  rewrite parse_int_app by reflexivity. cbn [obind fst snd].
  rewrite strip_prefix_app. cbn [obind].
  rewrite strip_prefix_app. cbn [obind].
  rewrite strip_prefix_app. cbn [obind].
  rewrite strip_prefix_app. cbn [obind].
  rewrite (parse_selectors_render (ql_union q) _ _ Hu).
  - cbn [obind fst snd]. rewrite strip_prefix_app. cbn [obind].
    rewrite strip_prefix_app. cbn [obind].
    destruct q as [fmt tmo sels [|]]; reflexivity.
  - rewrite string_length_app. pose proof (rendered_length (ql_union q)).
    lia.
Qed.

(** The text the engine posts for the amenity kind that carries a double
    quote is the text of a request with six selectors. *)
Lemma query_text_quoted {P : Platform} radius_m lat0 lon0 :
  query_text quoted_amenity radius_m lat0 lon0
  = render (quoted_request radius_m lat0 lon0).
Proof.
  unfold query_text, render, quoted_request, render_selector, quoted_amenity.
  simpl. repeat (rewrite !append_assoc; simpl). reflexivity.
Qed.

(** ** Calls without a coordinate *)

Lemma bind_ext {A B : Type} (r : result A) (k k' : A -> result B) :
  (forall a, k a = k' a) -> bind r k = bind r k'.
Proof. intros H. destruct r; simpl; [apply H | reflexivity]. Qed.

Section EngineOptFacts.
Context {P : Platform}.

Lemma query_text_opt_some amenity radius_m lat0 lon0 :
  query_text_opt amenity radius_m (Some lat0) (Some lon0)
  = query_text amenity radius_m lat0 lon0.
Proof. reflexivity. Qed.

(** With both coordinates of the origin the general loop body is the loop
    body of the engine. *)
Lemma process_element_opt_some lat0 lon0 (el : pyval) :
  process_element_opt (Some lat0) (Some lon0) el
  = process_element lat0 lon0 el.
Proof.
  unfold process_element_opt, process_element.
  repeat (apply bind_ext; intros ?).
  destruct a5 as [lat_e lon_e].
  destruct (is_none lat_e || is_none lon_e); [reflexivity|].
  apply bind_ext. intros contact. unfold haversine_km_opt.
  destruct (as_float lat_e); [|reflexivity]. cbn [bind].
  destruct (as_float lon_e); reflexivity.
Qed.

Lemma collect_opt_some lat0 lon0 (els : list pyval) : forall acc,
  collect_opt (Some lat0) (Some lon0) els acc = collect lat0 lon0 els acc.
Proof.
  induction els as [|el els IH]; intros acc; simpl; [reflexivity|].
  rewrite process_element_opt_some. apply bind_ext. intros r. apply IH.
Qed.

Lemma overpass_query_opt_some cfg post lat0 lon0 radius_km amenity :
  overpass_query_opt cfg post (Some lat0) (Some lon0) radius_km amenity
  = overpass_query cfg post lat0 lon0 radius_km amenity.
Proof.
  unfold overpass_query_opt, overpass_query, process_reply, collect_reply.
  apply bind_ext. intros m. rewrite query_text_opt_some.
  destruct (post _ _ _) as [res|]; [|reflexivity]. cbn [bind].
  destruct (raise_for_status res); [|reflexivity]. cbn [bind].
  destruct (json res) as [body|]; [|reflexivity]. cbn [bind].
  destruct (py_get body "elements" (PList [])) as [elements|];
    [|reflexivity]. cbn [bind].
  destruct (py_iter elements) as [els|]; [|reflexivity]. cbn [bind].
  rewrite collect_opt_some. reflexivity.
Qed.

(** Without a coordinate of the origin the loop body yields no result:
    it skips the element or raises. *)
Lemma haversine_km_opt_missing lat0 lon0 lat_e lon_e :
  lat0 = None \/ lon0 = None ->
  raises (haversine_km_opt lat0 lon0 lat_e lon_e).
Proof.
  unfold haversine_km_opt, raises. intros [->| ->]; [eauto|].
  destruct lat0; [|eauto].
  destruct (as_float lat_e); simpl; eauto.
Qed.

Lemma process_element_opt_missing lat0 lon0 (el : pyval) o :
  lat0 = None \/ lon0 = None ->
  process_element_opt lat0 lon0 el = Ok o ->
  o = None
  /\ forall lat_e lon_e, coordinate el = Ok (lat_e, lon_e) ->
       is_none lat_e || is_none lon_e = true.
Proof.
  intros Hm H. unfold process_element_opt in H.
  repeat (let Q := fresh "Q" in
          apply bind_Ok_inv in H; destruct H as [? [Q H]]).
  destruct x5 as [lat_e lon_e].
  destruct (is_none lat_e || is_none lon_e) eqn:En.
  - inversion H; subst. split; [reflexivity|].
    intros la lo Hc. rewrite Hc in Q5. inversion Q5; subst. exact En.
  - apply bind_Ok_inv in H. destruct H as [c [_ H]].
    destruct (haversine_km_opt_missing lat0 lon0 lat_e lon_e Hm) as [e He].
    rewrite He in H. discriminate.
Qed.

Lemma collect_opt_missing lat0 lon0 (els : list pyval) : forall acc results,
  lat0 = None \/ lon0 = None ->
  collect_opt lat0 lon0 els acc = Ok results ->
  results = acc
  /\ forall el lat_e lon_e, In el els -> coordinate el = Ok (lat_e, lon_e) ->
       is_none lat_e || is_none lon_e = true.
Proof.
  induction els as [|el els IH]; intros acc results Hm H; simpl in H.
  - inversion H; subst. split; [reflexivity|]. intros ? ? ? [].
  - apply bind_Ok_inv in H. destruct H as [o [Ho H]].
    destruct (process_element_opt_missing _ _ _ _ Hm Ho) as [-> Hc].
    destruct (IH _ _ Hm H) as [-> Hr]. split; [reflexivity|].
    intros el' la lo [<-|Hi] Hco; [eapply Hc | eapply Hr]; eauto.
Qed.

End EngineOptFacts.

(** ** The HTTP route *)

Section ServiceFacts.
Context {P : Platform} {F : Framework} (st : Settings) (post : Network).

Lemma assoc_search_tools name amenity :
  In (name, amenity) SEARCH_TOOLS -> In name TOOL_NAMES.
Proof.
  unfold SEARCH_TOOLS, TOOL_NAMES. simpl.
  intros [H|[H|[H|[H|[]]]]]; inversion H; subst; tauto.
Qed.

(** The entry of the route's table for each name it knows. *)
Lemma call_tool_search name amenity latitude longitude radius_km token :
  In (name, amenity) SEARCH_TOOLS ->
  call_tool st post name latitude longitude radius_km token
  = call_decorated
      (amenities
         (overpass_query_opt (engine st) post latitude longitude
            (radius_or_default st radius_km) amenity)).
Proof.
  unfold SEARCH_TOOLS. simpl.
  intros [H|[H|[H|[H|[]]]]]; inversion H; subst; reflexivity.
Qed.

Lemma call_tool_validate latitude longitude radius_km token :
  call_tool st post "validate" latitude longitude radius_km token
  = call_decorated (text (validate st token)).
Proof. reflexivity. Qed.

Lemma call_tool_unknown name latitude longitude radius_km token :
  ~ In name TOOL_NAMES ->
  call_tool st post name latitude longitude radius_km token
  = Failed (HTTPException 404 "Tool not found").
Proof.
  intros Hn. unfold call_tool. cbn [assoc].
  repeat match goal with
  | |- context [String.eqb name ?s] =>
      let E := fresh "E" in
      destruct (String.eqb name s) eqn:E;
      [apply String.eqb_eq in E; subst name; exfalso; apply Hn;
       unfold TOOL_NAMES; simpl; tauto|]
  end.
  reflexivity.
Qed.

Lemma token_differs_spec token :
  token_differs st token = false
  <-> token = Some (EXPECTED_BEARER_TOKEN st).
Proof.
  unfold token_differs. destruct token as [t|].
  - rewrite negb_false_iff, String.eqb_eq. split; congruence.
  - split; discriminate.
Qed.

End ServiceFacts.

(** ** The conversion of the radius *)

Lemma is_nan_true (x : float) : is_nan x = true -> Prim2SF x = S754_nan.
Proof.
  intros H. destruct (Prim2SF x) eqn:E; try reflexivity;
    assert (N : is_nan x = false) by (apply not_nan_spec; congruence);
    congruence.
Qed.

Lemma is_infinity_true (x : float) :
  is_infinity x = true -> exists s, Prim2SF x = S754_infinity s.
Proof.
  unfold is_infinity. rewrite FloatAxioms.eqb_spec, abs_spec.
  change (Prim2SF infinity) with (S754_infinity false).
  destruct (Prim2SF x) as [s|s| |s m e]; simpl; try discriminate; eauto.
Qed.

Lemma int_of_float_finite (x : float) :
  is_finite x = true -> exists m, int_of_float x = Ok m.
Proof.
  intros H. apply is_finite_spec in H. unfold int_of_float.
  destruct (Prim2SF x); simpl in H; try contradiction; eauto.
Qed.

Lemma int_of_float_not_finite (x : float) :
  is_finite x = false ->
  (is_nan x = true /\ int_of_float x = Raise ValueError)
  \/ (is_infinity x = true /\ int_of_float x = Raise OverflowError).
Proof.
  unfold is_finite. intros H. apply negb_false_iff, orb_true_iff in H.
  unfold int_of_float. destruct H as [H|H].
  - left. split; [exact H|]. rewrite (is_nan_true _ H). reflexivity.
  - right. split; [exact H|].
    destruct (is_infinity_true _ H) as [s ->]. reflexivity.
Qed.

(** ** More on the loop *)

Lemma first_nonempty_truthy (t : list (string * pyval)) (ks : list string) v :
  first_nonempty t ks = Some v -> truthy v = true.
Proof.
  induction ks as [|k ks IH]; simpl; [discriminate|].
  destruct (dict_get t k) as [w|]; [|exact IH].
  destruct (truthy w) eqn:E; [|exact IH].
  intros H. inversion H; subst. exact E.
Qed.

Lemma or_default_truthy (t : list (string * pyval)) (ks : list string)
    (default : string) :
  default <> EmptyString ->
  truthy (or_default (first_nonempty t ks) default) = true.
Proof.
  intros Hd. destruct (first_nonempty t ks) as [v|] eqn:E; simpl.
  - exact (first_nonempty_truthy _ _ _ E).
  - apply negb_true_iff, String.eqb_neq, Hd.
Qed.

Lemma expect_strs_string_valued (t : list (string * pyval))
    (ks : list string) :
  string_valued t -> exists ss, expect_strs (nonempty_values t ks) = Ok ss.
Proof.
  intros St. induction ks as [|k ks [ss IH]]; simpl; [eauto|].
  destruct (dict_get t k) as [v|] eqn:Ek; [|eauto].
  destruct (truthy v); [|eauto].
  destruct (St _ _ Ek) as [s ->]. simpl. rewrite IH. simpl. eauto.
Qed.

Lemma expect_strs_not_str (vs : list pyval) (v : pyval) :
  In v vs -> (forall s, v <> PStr s) -> expect_strs vs = Raise TypeError.
Proof.
  intros Hi Hv. induction vs as [|w vs IH]; [contradiction|].
  destruct Hi as [->|Hi].
  - destruct v; try reflexivity. destruct (Hv s). reflexivity.
  - specialize (IH Hi). destruct w; try reflexivity.
    simpl. rewrite IH. reflexivity.
Qed.

Lemma nonempty_values_In (t : list (string * pyval)) (ks : list string)
    k v :
  In k ks -> dict_get t k = Some v -> truthy v = true ->
  In v (nonempty_values t ks).
Proof.
  intros Hk Hg Ht. induction ks as [|k' ks IH]; [contradiction|]. simpl.
  destruct Hk as [->|Hk].
  - rewrite Hg, Ht. left. reflexivity.
  - specialize (IH Hk). destruct (dict_get t k') as [w|]; [|exact IH].
    destruct (truthy w); [right|]; exact IH.
Qed.

Lemma phone_rule (t : list (string * pyval)) :
  exists phone,
    py_or (py_get (PDict t) "phone" PNone)
      (py_or (py_get (PDict t) "contact:phone" PNone)
         (py_get (PDict t) "telephone" PNone)) = Ok phone.
Proof.
  unfold py_or, py_get. simpl.
  repeat match goal with
  | |- context [dict_get t ?k] => destruct (dict_get t k); simpl
  | |- context [truthy ?v] => destruct (truthy v); simpl
  end; eauto.
Qed.

Section LoopFacts.
Context {P : Platform}.

(** The loop body on a record with a tag bag, up to the coordinate. *)
Lemma process_element_tags lat0 lon0 (d t : list (string * pyval)) :
  tags_of d = PDict t ->
  process_element lat0 lon0 (PDict d)
  = (ss <- expect_strs (nonempty_values t ADDR_KEYS) ;;
     ll <- coordinate (PDict d) ;;
     if is_none (fst ll) || is_none (snd ll) then Ok None
     else
       lat2 <- as_float (fst ll) ;;
       lon2 <- as_float (snd ll) ;;
       dist <- haversine_km lat0 lon0 lat2 lon2 ;;
       Ok (Some {| name := or_default (first_nonempty t NAME_KEYS) "Unknown";
                   address := address_of t ss;
                   contact := or_default (first_nonempty t PHONE_KEYS)
                                "Not available";
                   lat := fst ll; lon := snd ll; distance_km := dist |})).
Proof.
  intros Et. unfold process_element.
  change (py_get (PDict d) "tags" (PDict [])) with (Ok (tags_of d)).
  rewrite Et. cbn [bind]. rewrite name_rule. cbn [bind].
  destruct (phone_rule t) as [phone Hp]. rewrite Hp. cbn [bind].
  rewrite addr_parts_values. cbn [bind]. unfold str_join.
  destruct (expect_strs (nonempty_values t ADDR_KEYS)) as [ss|] eqn:Es;
    [|reflexivity].
  cbn [bind]. unfold py_or at 1. cbn [bind].
  rewrite (joined_truthy _ _ (nonempty_values_truthy t ADDR_KEYS) Es).
  assert (Ha : (if match ss with [] => false | _ => true end
                then Ok (PStr (String.concat ", " ss))
                else py_get (PDict t) "addr:full" (PStr "Not available"))
               = Ok (address_of t ss)).
  { destruct ss; reflexivity. }
  rewrite Ha. cbn [bind].
  destruct (coordinate (PDict d)) as [[lat_e lon_e]|]; [|reflexivity].
  cbn [bind fst snd].
  destruct (is_none lat_e || is_none lon_e); [reflexivity|].
  rewrite (contact_rule _ _ Hp). reflexivity.
Qed.

Lemma collect_all_ok lat0 lon0 (els : list pyval) : forall acc,
  Forall (fun el => exists o, process_element lat0 lon0 el = Ok o) els ->
  exists rs, collect lat0 lon0 els acc = Ok rs.
Proof.
  induction els as [|el els IH]; intros acc H; simpl; [eauto|].
  inversion H as [|? ? [o Ho] Hr]; subst. rewrite Ho. cbn [bind].
  apply IH, Hr.
Qed.

(** The loop stops at the first element that raises, with its exception. *)
Lemma collect_first_failure lat0 lon0 (els1 els2 : list pyval) el e acc :
  Forall (fun x => exists o, process_element lat0 lon0 x = Ok o) els1 ->
  process_element lat0 lon0 el = Raise e ->
  collect lat0 lon0 (els1 ++ el :: els2) acc = Raise e.
Proof.
  intros H1 He. rewrite collect_app.
  destruct (collect_all_ok lat0 lon0 els1 acc H1) as [rs ->]. cbn [bind].
  simpl. rewrite He. reflexivity.
Qed.

Lemma collect_any_failure lat0 lon0 (els : list pyval) el e : forall acc,
  In el els -> process_element lat0 lon0 el = Raise e ->
  raises (collect lat0 lon0 els acc).
Proof.
  induction els as [|x els IH]; intros acc Hi He; [contradiction|]. simpl.
  destruct (process_element lat0 lon0 x) as [o|e'] eqn:Ex.
  - cbn [bind]. destruct Hi as [->|Hi]; [congruence|]. apply IH; assumption.
  - exists e'. reflexivity.
Qed.




End LoopFacts.

(** ** More on sorting *)



Section MoreSortedFacts.
Context {A : Type} (key : A -> float).

Lemma StronglySorted_app_inv (R : A -> A -> Prop) (l1 l2 : list A) :
  StronglySorted R (l1 ++ l2) ->
  forall x y, In x l1 -> In y l2 -> R x y.
Proof.
  induction l1 as [|a l1 IH]; intros H x y Hx Hy; [contradiction|].
  simpl in H. apply StronglySorted_inv in H. destruct H as [Hs Hf].
  destruct Hx as [->|Hx].
  - rewrite Forall_forall in Hf. apply Hf, in_or_app. right. exact Hy.
  - exact (IH Hs x y Hx Hy).
Qed.



End MoreSortedFacts.

(** ** Signs *)

Lemma binary_round_aux_sign s m e l :
  0 <= m ->
  binary_round_aux prec emax s m e l = S754_zero s
  \/ binary_round_aux prec emax s m e l = S754_infinity s
  \/ exists m' e', binary_round_aux prec emax s m e l = S754_finite s m' e'.
Proof.
  intros Hm. unfold binary_round_aux.
  destruct (shr_fexp prec emax m e l) as [mrs' e'] eqn:E1.
  destruct (shr_fexp_bounds _ _ _ _ _ Hm E1) as [B1 _].
  pose proof (round_nearest_even_bounds (shr_m mrs')
                (loc_of_shr_record mrs') (proj1 B1)) as B2.
  set (m1 := round_nearest_even _ _) in *.
  destruct (shr_fexp prec emax m1 e' loc_Exact) as [mrs'' e''] eqn:E2.
  assert (Hm1 : 0 <= m1) by lia.
  destruct (shr_fexp_bounds _ _ _ _ _ Hm1 E2) as [B3 _].
  destruct (shr_m mrs'') as [|p|p]; try lia; [left; reflexivity|].
  destruct (e'' <=? emax - prec)%Z; [right; right; eauto|].
  right. left. reflexivity.
Qed.

Lemma binary_round_aux_nonneg m e l :
  0 <= m -> SF_nonneg (binary_round_aux prec emax false m e l).
Proof.
  intros Hm.
  destruct (binary_round_aux_sign false m e l Hm) as [->|[->|[m' [e' ->]]]];
    reflexivity.
Qed.

Lemma SFsqrt_core_nonneg mx ex mz ez lz :
  SFsqrt_core_binary prec emax (Z.pos mx) ex = (mz, ez, lz) -> 0 <= mz.
Proof.
  unfold SFsqrt_core_binary. intros E.
  set (m' := match _ with Z.pos _ => _ | _ => _ end) in E.
  pose proof (Z.sqrtrem_spec m') as S.
  destruct (Z.sqrtrem m') as [q r]. inversion E; subst.
  assert (Hm' : 0 <= m').
  { subst m'. destruct (_ - _); try lia.
    rewrite Z.shiftl_mul_pow2 by lia.
    pose proof (Z.pow_pos_nonneg 2 (Z.pos p)). lia. }
  specialize (S Hm'). clear E. clearbody m'. lia.
Qed.

Lemma SFsqrt_nonneg x :
  x <> S754_nan -> SFltb x (S754_zero false) = false ->
  SF_nonneg (SFsqrt prec emax x).
Proof.
  destruct x as [sx|sx| |sx mx ex]; simpl; try congruence; intros _;
    unfold SFltb; simpl; try (destruct sx; try discriminate; reflexivity).
  destruct sx; [discriminate|]. intros _.
  destruct (SFsqrt_core_binary prec emax (Z.pos mx) ex) as [[mz ez] lz] eqn:E.
  apply binary_round_aux_nonneg. exact (SFsqrt_core_nonneg _ _ _ _ _ E).
Qed.

(** A square root is the negative zero only at the negative zero. *)
Lemma SFsqrt_negative_zero x :
  SFsqrt prec emax x = S754_zero true -> x = S754_zero true.
Proof.
  destruct x as [sx|sx| |sx mx ex]; simpl; try discriminate.
  - intros H. exact H.
  - destruct sx; discriminate.
  - destruct sx; [discriminate|].
    destruct (SFsqrt_core_binary prec emax (Z.pos mx) ex)
      as [[mz ez] lz] eqn:E.
    destruct (binary_round_aux_sign false mz ez lz
                (SFsqrt_core_nonneg _ _ _ _ _ E))
      as [->|[->|[m' [e' ->]]]]; discriminate.
Qed.

Lemma SFmul_nonneg m e x :
  SF_nonneg x -> SF_nonneg (SFmul prec emax (S754_finite false m e) x).
Proof.
  unfold SF_nonneg.
  destruct x as [sx|sx| |sx mx ex]; simpl; try discriminate.
  - intros _. destruct sx; reflexivity.
  - destruct sx; [discriminate | reflexivity].
  - destruct sx; [discriminate|]. intros _.
    apply binary_round_aux_nonneg. lia.
Qed.

Lemma leb_zero_spec (x : float) :
  (0 <=? x)%float = true <-> SF_nonneg (Prim2SF x).
Proof. rewrite FloatAxioms.leb_spec. reflexivity. Qed.

Lemma math_sqrt_nonneg (a y : float) :
  math_sqrt a = Ok y -> is_nan a = false -> (0 <=? y)%float = true.
Proof.
  unfold math_sqrt. destruct (a <? 0)%float eqn:E; [discriminate|].
  intros H Ha. inversion H; subst. apply leb_zero_spec.
  rewrite sqrt_spec. apply SFsqrt_nonneg.
  - apply not_nan_spec, Ha.
  - rewrite FloatAxioms.ltb_spec in E. exact E.
Qed.

Lemma math_sqrt_negative_zero (a y : float) :
  math_sqrt a = Ok y -> negative_zero y = true -> a = (-0)%float.
Proof.
  unfold math_sqrt. destruct (a <? 0)%float; [discriminate|].
  intros H. inversion H; subst. unfold negative_zero.
  rewrite sqrt_spec. unfold SF64sqrt.
  destruct (SFsqrt prec emax (Prim2SF a)) as [[|]| | |] eqn:E;
    simpl; try discriminate.
  intros _. apply SFsqrt_negative_zero in E.
  apply Prim2SF_inj. rewrite E. reflexivity.
Qed.

Lemma guarded_atan2_nonneg : atan2_nonneg guarded_platform.
Proof.
  intros y x t H _ _ _. simpl in H. unfold Guarded.atan2 in H.
  destruct (Approx.atan2 y x) as [t'|] eqn:E; [|discriminate].
  cbn [bind] in H. destruct (t' <? 0)%float eqn:Et; [discriminate|].
  inversion H; subst. apply not_ltb_leb; [reflexivity| |exact Et].
  unfold Approx.atan2 in E.
  destruct (is_nan _) eqn:En; [discriminate|]. inversion E; subst. exact En.
Qed.

Section SignFacts.
Context {P : Platform}.

(** The steps of [haversine_km] between two valid points. *)
Lemma haversine_steps lat1 lon1 lat2 lon2 d :
  sin_finite P -> square_finite P -> cos_range P ->
  valid_lat lat1 = true -> valid_lon lon1 = true ->
  valid_lat lat2 = true -> valid_lon lon2 = true ->
  haversine_km lat1 lon1 lat2 lon2 = Ok d ->
  exists a y x t,
    is_nan a = false
    /\ math_sqrt a = Ok y
    /\ math_sqrt (1 - a) = Ok x
    /\ math_atan2 y x = Ok t
    /\ d = (6371 * 2 * t)%float.
Proof.
  intros Hsin Hsq Hcos V1 W1 V2 W2 H.
  pose proof (bounded_exp_finite _ _ (valid_lat_bounded _ V1)) as F1.
  pose proof (bounded_exp_finite _ _ (valid_lat_bounded _ V2)) as F2.
  pose proof (bounded_exp_finite _ _ (valid_lon_bounded _ W1)) as G1.
  pose proof (bounded_exp_finite _ _ (valid_lon_bounded _ W2)) as G2.
  unfold haversine_km in H.
  destruct (math_sin (radians (lat2 - lat1) / 2)) as [s1|] eqn:E1;
    [|discriminate]. cbn [bind] in H.
  destruct (float_pow s1 2) as [p1|] eqn:E2; [|discriminate].
  cbn [bind] in H.
  destruct (math_cos (radians lat1)) as [c1|] eqn:E3; [|discriminate].
  cbn [bind] in H.
  destruct (math_cos (radians lat2)) as [c2|] eqn:E4; [|discriminate].
  cbn [bind] in H.
  destruct (math_sin (radians (lon2 - lon1) / 2)) as [s2|] eqn:E5;
    [|discriminate]. cbn [bind] in H.
  destruct (float_pow s2 2) as [p2|] eqn:E6; [|discriminate].
  cbn [bind] in H.
  set (a := (p1 + c1 * c2 * p2)%float) in *.
  destruct (math_sqrt a) as [y|] eqn:E7; [|discriminate]. cbn [bind] in H.
  destruct (math_sqrt (1 - a)) as [x|] eqn:E8; [|discriminate].
  cbn [bind] in H.
  destruct (math_atan2 y x) as [t|] eqn:E9; [|discriminate].
  cbn [bind] in H. inversion H; subst d; clear H.
  exists a, y, x, t. repeat split; auto.
  pose proof (Hsq _ _ E2 (Hsin _ _ E1 (half_angle_not_nan _ _ F2 F1))) as Fp1.
  pose proof (Hsq _ _ E6 (Hsin _ _ E5 (half_angle_not_nan _ _ G2 G1))) as Fp2.
  apply is_finite_spec in Fp1, Fp2.
  destruct (Hcos _ (radians_finite _ V1)) as [c1' [C1 B1]].
  destruct (Hcos _ (radians_finite _ V2)) as [c2' [C2 B2]].
  rewrite E3 in C1. rewrite E4 in C2. inversion C1; inversion C2; subst c1' c2'.
  assert (One : Prim2SF 1 = S754_finite false 4503599627370496 (-52))
    by reflexivity.
  pose proof (abs_bounded _ _ _ _ One B1) as Bc1.
  pose proof (abs_bounded _ _ _ _ One B2) as Bc2.
  destruct (SFmul_bounded _ _ _ _ Bc1 Bc2 ltac:(lia)) as [sc Hc12].
  apply finite_or_zero_finite in Hc12.
  apply not_nan_spec. unfold a. rewrite add_spec, mul_spec, mul_spec.
  apply SFadd_not_nan; [exact Fp1|].
  apply SFmul_finite_not_nan; assumption.
Qed.

End SignFacts.

(** ** What the loop body reads *)

Lemma first_nonempty_ext (t t' : list (string * pyval)) (ks : list string) :
  (forall k, In k ks -> dict_get t k = dict_get t' k) ->
  first_nonempty t ks = first_nonempty t' ks.
Proof.
  induction ks as [|k ks IH]; intros H; simpl; [reflexivity|].
  rewrite <- (H k (or_introl eq_refl)).
  rewrite IH by (intros k' Hk'; apply H; right; exact Hk').
  reflexivity.
Qed.

Lemma nonempty_values_ext (t t' : list (string * pyval)) (ks : list string) :
  (forall k, In k ks -> dict_get t k = dict_get t' k) ->
  nonempty_values t ks = nonempty_values t' ks.
Proof.
  induction ks as [|k ks IH]; intros H; simpl; [reflexivity|].
  rewrite <- (H k (or_introl eq_refl)).
  rewrite IH by (intros k' Hk'; apply H; right; exact Hk').
  reflexivity.
Qed.

Lemma coordinate_ext {P : Platform} (d d' : list (string * pyval)) :
  (forall k, In k COORDINATE_KEYS -> dict_get d k = dict_get d' k) ->
  coordinate (PDict d) = coordinate (PDict d').
Proof.
  intros H. unfold coordinate, py_getitem, py_get.
  rewrite <- (H "type") by (unfold COORDINATE_KEYS; simpl; tauto).
  rewrite <- (H "lat") by (unfold COORDINATE_KEYS; simpl; tauto).
  rewrite <- (H "lon") by (unfold COORDINATE_KEYS; simpl; tauto).
  rewrite <- (H "center") by (unfold COORDINATE_KEYS; simpl; tauto).
  reflexivity.
Qed.

(** ** Distances that are not numbers *)

Lemma sub_nan_l (x : float) : (nan - x = nan)%float.
Proof. apply Prim2SF_inj. rewrite sub_spec. reflexivity. Qed.

Lemma add_nan_l (x : float) : (nan + x = nan)%float.
Proof. apply Prim2SF_inj. rewrite add_spec. reflexivity. Qed.

Lemma leb_nan_l (x y : float) :
  is_nan x = true -> (x <=? y)%float = false.
Proof.
  intros H. rewrite FloatAxioms.leb_spec, (is_nan_true _ H). reflexivity.
Qed.

Lemma leb_nan_r (x y : float) :
  is_nan y = true -> (x <=? y)%float = false.
Proof.
  intros H. rewrite FloatAxioms.leb_spec, (is_nan_true _ H).
  destruct (Prim2SF x); reflexivity.
Qed.

(** With a latitude that is not a number the distance is not a number,
    on every platform whose math functions pass a NaN through. *)
Lemma haversine_nan_latitude {P : Platform}
    (lat1 lon1 lon2 c1 s2 p2 : float) :
  math_sin nan = Ok nan -> float_pow nan 2 = Ok nan ->
  math_cos nan = Ok nan -> math_atan2 nan nan = Ok nan ->
  math_cos (radians lat1) = Ok c1 ->
  math_sin (radians (lon2 - lon1) / 2) = Ok s2 ->
  float_pow s2 2 = Ok p2 ->
  haversine_km lat1 lon1 nan lon2 = Ok nan.
Proof.
  intros Hs Hp Hc Ha H1 H2 H3. unfold haversine_km.
  rewrite sub_nan_l.
  change (radians nan / 2)%float with nan. rewrite Hs. cbn [bind].
  rewrite Hp. cbn [bind]. rewrite H1. cbn [bind].
  change (radians nan) with nan. rewrite Hc. cbn [bind].
  rewrite H2. cbn [bind]. rewrite H3. cbn [bind].
  rewrite add_nan_l.
  change (math_sqrt nan) with (Ok nan). cbn [bind].
  change (math_sqrt (1 - nan)) with (Ok nan). cbn [bind].
  rewrite Ha. reflexivity.
Qed.

(** A list with a key that is not a number is ordered by [<=] only when
    it holds nothing else. *)
Lemma nan_key_unsorted {A : Type} (key : A -> float) (l : list A) (x : A) :
  StronglySorted (key_le key) l -> In x l -> is_nan (key x) = true ->
  l = [x].
Proof.
  intros Hs Hi Hn. destruct (in_split _ _ Hi) as [l1 [l2 ->]].
  destruct l1 as [|a l1].
  - simpl in *. apply StronglySorted_inv in Hs. destruct Hs as [_ Hf].
    destruct l2 as [|b l2]; [reflexivity|].
    inversion Hf as [|? ? Hb _]; subst. unfold key_le in Hb.
    rewrite (leb_nan_l _ _ Hn) in Hb. discriminate.
  - pose proof (StronglySorted_app_inv (key_le key) (a :: l1) (x :: l2)
                  Hs a x (or_introl eq_refl) (or_introl eq_refl)) as Hb.
    unfold key_le in Hb. rewrite (leb_nan_r _ _ Hn) in Hb. discriminate.
Qed.

(** * The claims *)

(** ** The distance calculator *)

(** C7.  The distance calculator is symmetric.  Whenever [sin] is odd and
    the square of a float does not depend on its sign, the distance from A
    to B is returned exactly when the distance from B to A is, and the two
    are the same float; no tolerance is needed, and no range of the
    coordinates either. *)
Theorem haversine_symmetric {P : Platform}
    (Hsin : sin_odd P) (Hsq : square_even P)
    (lat1 lon1 lat2 lon2 d : float) :
  haversine_km lat1 lon1 lat2 lon2 = Ok d
  <-> haversine_km lat2 lon2 lat1 lon1 = Ok d.
Proof.
  split; apply haversine_swap_Ok; assumption.
Qed.

Lemma haversine_symmetric_witness :
  sin_odd approx_platform /\ square_even approx_platform
  /\ haversine_km (P := approx_platform) 0 1 0 0
     = Ok 0x1.bcc79ad9adfecp+6%float.
Proof.
  split; [exact approx_sin_odd|]. split; [exact approx_square_even|].
  apply (haversine_symmetric (P := approx_platform)
           approx_sin_odd approx_square_even 0 0 0 1).
  vm_compute. reflexivity.
Defined.

(** C8, as amended.  The distance from a valid point to itself is zero:
    with [sin 0 = 0], [0 ** 2 = 0], [atan2 0 1 = 0] and a cosine that lies
    in [-1, 1], [haversine_km] returns exactly [0.0] for every latitude in
    [-90, 90] and longitude in [-180, 180]. *)
Theorem distance_identical_zero {P : Platform}
    (Hsin : sin_zero P) (Hsq : square_zero P) (Hatan : atan2_zero P)
    (Hcos : cos_range P) (lat lon : float) :
  valid_lat lat = true -> valid_lon lon = true ->
  haversine_km lat lon lat lon = Ok 0%float.
Proof.
  intros Vlat Vlon.
  destruct (bounded_finite_or_zero _ _ (valid_lat_bounded _ Vlat))
    as [s1 F1].
  destruct (bounded_finite_or_zero _ _ (valid_lon_bounded _ Vlon))
    as [s2 F2].
  apply haversine_zero_core; auto using radians_finite.
  - rewrite (sub_diag _ _ F1). reflexivity.
  - rewrite (sub_diag _ _ F2). reflexivity.
Qed.

Lemma distance_identical_zero_witness :
  valid_lat 12.5 = true /\ valid_lon 77.5 = true
  /\ haversine_km (P := approx_platform) 12.5 77.5 12.5 77.5 = Ok 0%float.
Proof.
  split; [reflexivity|]. split; [reflexivity|].
  apply (distance_identical_zero (P := approx_platform)
           approx_sin_zero approx_square_zero approx_atan2_zero
           approx_cos_range 12.5 77.5); reflexivity.
Defined.

(** C8 as stated fails.  Two valid points that differ in longitude by the
    smallest positive float are at distance exactly zero on every platform
    with the facts above; and with the values glibc returns, the two
    descriptions (90, 0) and (90, 180) of the north pole, 180 degrees of
    longitude apart, are at a distance below 1e-12 km. *)
Lemma zero_distance_distinct_points :
  valid_lat 0 = true /\ valid_lon 0 = true
  /\ valid_lon 0x1p-1074 = true
  /\ (0 =? 0x1p-1074)%float = false
  /\ (forall P : Platform,
        sin_zero P -> square_zero P -> atan2_zero P -> cos_range P ->
        haversine_km 0 0 0 0x1p-1074 = Ok 0%float)
  /\ haversine_km (P := recorded_platform) 0 0 0 0x1p-1074 = Ok 0%float
  /\ valid_lat 90 = true /\ valid_lon 180 = true
  /\ haversine_km (P := recorded_platform) 90 0 90 180
     = Ok 0x1.b739e8a933ae4p-41%float
  /\ (0x1.b739e8a933ae4p-41 <? 0x1p-40)%float = true.
Proof.
  repeat split; try reflexivity.
  intros P Hs Hp Ha Hc.
  apply haversine_zero_core; auto; reflexivity.
Qed.

(** C4: the code raises on a valid pair of antipodal points.  With the
    correctly rounded sines and cosines of the arguments (the values glibc
    returns), [a] comes out as [1 + 2^-52], [1 - a] is negative, and the
    second [math.sqrt] raises [ValueError] for the points (8, 0) and
    (-8, 180). *)
Theorem haversine_antipodal_domain_error {P : Platform} :
  math_sin (-0x1.1df46a2529d39p-3) = Ok (-0x1.1d06c968d9e19p-3)%float ->
  float_pow (-0x1.1d06c968d9e19p-3) 2 = Ok 0x1.3d581ca184804p-6%float ->
  math_cos 0x1.1df46a2529d39p-3 = Ok 0x1.fb046a930947ap-1%float ->
  math_cos (-0x1.1df46a2529d39p-3) = Ok 0x1.fb046a930947ap-1%float ->
  math_sin 0x1.921fb54442d18p+0 = Ok 1%float ->
  float_pow 1 2 = Ok 1%float ->
  valid_lat 8 = true /\ valid_lon 0 = true
  /\ valid_lat (-8) = true /\ valid_lon 180 = true
  /\ haversine_km 8 0 (-8) 180 = Raise ValueError.
Proof.
  intros S1 P1 C1 C2 S2 P2. repeat split.
  unfold haversine_km.
  change (radians (-8 - 8) / 2)%float with (-0x1.1df46a2529d39p-3)%float.
  change (radians (180 - 0) / 2)%float with (0x1.921fb54442d18p+0)%float.
  change (radians 8) with (0x1.1df46a2529d39p-3)%float.
  change (radians (-8)) with (-0x1.1df46a2529d39p-3)%float.
  rewrite S1. cbn [bind]. rewrite P1. cbn [bind].
  rewrite C1. cbn [bind]. rewrite C2. cbn [bind].
  rewrite S2. cbn [bind]. rewrite P2. cbn [bind].
  reflexivity.
Qed.

Lemma haversine_antipodal_domain_error_witness :
  valid_lat 8 = true /\ valid_lon 0 = true
  /\ valid_lat (-8) = true /\ valid_lon 180 = true
  /\ haversine_km (P := recorded_platform) 8 0 (-8) 180 = Raise ValueError.
Proof.
  apply (haversine_antipodal_domain_error (P := recorded_platform));
    reflexivity.
Defined.

(** ** The search engine *)

Lemma In_slice_to {A : Type} (x : A) (l : list A) (n : Z) :
  In x (slice_to l n) -> In x l.
Proof.
  destruct (slice_to_firstn l n) as [k ->]. apply In_firstn.
Qed.

Lemma slice_to_nil {A : Type} (n : Z) : slice_to (@nil A) n = [].
Proof. unfold slice_to. destruct (0 <=? n)%Z; apply firstn_nil. Qed.

Lemma sample_way_no_center_raw : raw_element sample_way_no_center.
Proof.
  eexists. split; [reflexivity|]. split; [eexists; reflexivity|].
  split.
  - eexists. split; [reflexivity|]. intros k v. simpl.
    destruct (String.eqb k "name"); intros H; inversion H; eauto.
  - intros c H. discriminate.
Qed.

Section EngineClaims.
Context {P : Platform}.

Lemma coordinate_inv (d : list (string * pyval)) lat_e lon_e :
  coordinate (PDict d) = Ok (lat_e, lon_e) ->
  is_none lat_e = false -> is_none lon_e = false ->
  exists ty, dict_get d "type" = Some ty
    /\ if eq_str ty "node"
       then dict_get d "lat" = Some lat_e /\ dict_get d "lon" = Some lon_e
       else exists c, dict_get d "center" = Some (PDict c)
              /\ dict_get c "lat" = Some lat_e
              /\ dict_get c "lon" = Some lon_e.
Proof.
  unfold coordinate, py_getitem. intros H N1 N2.
  destruct (dict_get d "type") as [ty|] eqn:Et; [|discriminate].
  cbn [bind] in H. exists ty. split; [reflexivity|].
  destruct (eq_str ty "node").
  - unfold py_get in H. cbn [bind] in H. inversion H; subst; clear H.
    destruct (dict_get d "lat"); [|discriminate].
    destruct (dict_get d "lon"); [|discriminate]. auto.
  - unfold py_get at 1 3 in H. cbn [bind] in H.
    destruct (dict_get d "center") as [c|] eqn:Ec.
    + destruct c as [| | | | | |cd]; try discriminate.
      unfold py_get in H. cbn [bind] in H. inversion H; subst; clear H.
      exists cd.
      destruct (dict_get cd "lat"); [|discriminate].
      destruct (dict_get cd "lon"); [|discriminate]. auto.
    + simpl in H. inversion H; subst. discriminate.
Qed.

(** The coordinate of a raw element is read without an error. *)
Lemma coordinate_raw (el : pyval) :
  raw_element el -> exists lat_e lon_e, coordinate el = Ok (lat_e, lon_e).
Proof.
  intros [d [-> [[ty Hty] [_ Hc]]]].
  unfold coordinate, py_getitem. rewrite Hty. cbn [bind].
  destruct (eq_str (PStr ty) "node").
  - unfold py_get. cbn [bind]. eauto.
  - unfold py_get at 1 3. cbn [bind].
    destruct (dict_get d "center") as [c|] eqn:Ec.
    + destruct (Hc c eq_refl) as [cd ->]. unfold py_get. cbn [bind]. eauto.
    + unfold py_get. cbn [bind]. eauto.
Qed.

Lemma collect_all_skipped lat0 lon0 (els : list pyval) :
  Forall (fun el => process_element lat0 lon0 el = Ok None) els ->
  collect lat0 lon0 els [] = Ok [].
Proof.
  induction 1 as [|el els H _ IH]; simpl; [reflexivity|].
  rewrite H. exact IH.
Qed.

Lemma process_element_non_dict lat0 lon0 (el : pyval) :
  (forall d, el <> PDict d) ->
  process_element lat0 lon0 el = Raise AttributeError.
Proof.
  intros H. destruct el; try reflexivity. exfalso. eapply H. reflexivity.
Qed.

Lemma collect_non_dict lat0 lon0 (el : pyval) (els : list pyval) :
  In el els -> (forall d, el <> PDict d) ->
  forall acc, raises (collect lat0 lon0 els acc).
Proof.
  intros Hin Hel. induction els as [|x els IH]; intros acc; [contradiction|].
  simpl. destruct Hin as [->|Hin].
  - rewrite (process_element_non_dict _ _ _ Hel). eexists. reflexivity.
  - destruct (process_element lat0 lon0 x) as [o|e]; simpl.
    + apply IH, Hin.
    + eexists. reflexivity.
Qed.

(** C1, as amended.  When the engine has read [results] off the reply and
    every distance in it is a number, it returns a prefix of [results] sorted by
    [distance_km]: the sorted list is a permutation of [results], which is
    in the order of the reply's element list; from one index to a later
    one the distance does not decrease; and the results of any one
    distance are in the order they had in [results].  (A NaN distance,
    which takes a coordinate that is no GeoPoint, is not ordered by [<].) *)
Theorem results_ranked_by_distance (cfg : Config) (post : Network)
    (lat0 lon0 radius_km : float) (amenity : string)
    (radius_m : Z) (results : list AmenityResult) :
  int_of_float (radius_km * 1000) = Ok radius_m ->
  collect_reply lat0 lon0
    (post (OVERPASS_URL cfg) (query_text amenity radius_m lat0 lon0) 30)
  = Ok results ->
  no_nan distance_km results ->
  exists out,
    overpass_query cfg post lat0 lon0 radius_km amenity = Ok out
    /\ (exists k, out = firstn k (sorted distance_km results))
    /\ (exists res body elements els outs,
          post (OVERPASS_URL cfg) (query_text amenity radius_m lat0 lon0) 30
          = Ok res
          /\ json res = Ok body
          /\ py_get body "elements" (PList []) = Ok elements
          /\ py_iter elements = Ok els
          /\ Forall2 (fun el o => process_element lat0 lon0 el = Ok o)
               els outs
          /\ results = somes outs)
    /\ Permutation (sorted distance_km results) results
    /\ StronglySorted (key_le distance_km) (sorted distance_km results)
    /\ (forall d,
          filter (fun r => distance_km r =? d)%float
            (sorted distance_km results)
          = filter (fun r => distance_km r =? d)%float results)
    /\ (forall i j ri rj, (i < j)%nat ->
          nth_error out i = Some ri -> nth_error out j = Some rj ->
          (distance_km ri <=? distance_km rj)%float = true).
Proof.
  intros Hm Hc Hn.
  exists (slice_to (sorted distance_km results) (MAX_RESULTS cfg)).
  pose proof (sorted_sorted distance_km results Hn) as Hs.
  split.
  { unfold overpass_query, process_reply. rewrite Hm. cbn [bind].
    rewrite Hc. reflexivity. }
  split; [apply slice_to_firstn|].
  split.
  { destruct (collect_reply_inv _ _ _ _ Hc)
      as [res [body [elements [els [Hp [_ [Hj [He [Hi Hl]]]]]]]]].
    destruct (collect_outputs _ _ _ _ Hl) as [outs [F R]].
    exists res, body, elements, els, outs. repeat split; assumption. }
  split; [apply sorted_perm|].
  split; [exact Hs|].
  split; [intros d; apply sorted_stable|].
  destruct (slice_to_firstn (sorted distance_km results) (MAX_RESULTS cfg))
    as [k ->].
  apply (StronglySorted_nth_error (key_le distance_km)).
  apply StronglySorted_firstn. exact Hs.
Qed.

(** C2.  With a configured maximum that is not negative, the engine
    returns at most [MAX_RESULTS] entries, the first [MAX_RESULTS] of the
    sorted results, however many elements the reply holds. *)
Theorem results_truncated (cfg : Config) (post : Network)
    (lat0 lon0 radius_km : float) (amenity : string)
    (out : list AmenityResult) :
  (0 <= MAX_RESULTS cfg)%Z ->
  overpass_query cfg post lat0 lon0 radius_km amenity = Ok out ->
  (Z.of_nat (List.length out) <= MAX_RESULTS cfg)%Z
  /\ exists radius_m results,
       int_of_float (radius_km * 1000) = Ok radius_m
       /\ collect_reply lat0 lon0
            (post (OVERPASS_URL cfg)
               (query_text amenity radius_m lat0 lon0) 30) = Ok results
       /\ out = firstn (Z.to_nat (MAX_RESULTS cfg))
                  (sorted distance_km results).
Proof.
  intros Hmax H.
  destruct (overpass_query_inv _ _ _ _ _ _ _ H) as [m [results [Hm [Hc ->]]]].
  rewrite (slice_to_nonneg _ _ Hmax). split.
  - pose proof (firstn_le_length (Z.to_nat (MAX_RESULTS cfg))
                  (sorted distance_km results)). lia.
  - exists m, results. auto.
Qed.

(** C3.  Every result the engine returns comes from an element of the
    reply and carries that element's effective coordinate, both parts
    present: the element's own [lat] and [lon] when its type is "node",
    those of its [center] otherwise.  A raw element whose effective
    coordinate lacks a part yields no result and no error, and the loop
    runs as if the element were not in the list. *)
Theorem coordinates_resolved (lat0 lon0 : float) :
  (forall cfg post radius_km amenity out r,
     overpass_query cfg post lat0 lon0 radius_km amenity = Ok out ->
     In r out ->
     is_none (lat r) = false /\ is_none (lon r) = false
     /\ exists radius_m res body elements els d ty,
          int_of_float (radius_km * 1000) = Ok radius_m
          /\ post (OVERPASS_URL cfg)
               (query_text amenity radius_m lat0 lon0) 30 = Ok res
          /\ json res = Ok body
          /\ py_get body "elements" (PList []) = Ok elements
          /\ py_iter elements = Ok els
          /\ In (PDict d) els
          /\ process_element lat0 lon0 (PDict d) = Ok (Some r)
          /\ dict_get d "type" = Some ty
          /\ if eq_str ty "node"
             then dict_get d "lat" = Some (lat r)
                  /\ dict_get d "lon" = Some (lon r)
             else exists c, dict_get d "center" = Some (PDict c)
                    /\ dict_get c "lat" = Some (lat r)
                    /\ dict_get c "lon" = Some (lon r))
  /\ (forall el,
        raw_element el ->
        exists lat_e lon_e,
          coordinate el = Ok (lat_e, lon_e)
          /\ (is_none lat_e || is_none lon_e = true ->
              process_element lat0 lon0 el = Ok None
              /\ forall els1 els2,
                   collect lat0 lon0 (els1 ++ el :: els2) []
                   = collect lat0 lon0 (els1 ++ els2) [])).
Proof.
  split.
  - intros cfg post radius_km amenity out r H Hr.
    destruct (overpass_query_inv _ _ _ _ _ _ _ H)
      as [m [results [Hm [Hc ->]]]].
    apply In_slice_to in Hr.
    apply (Permutation_in _ (sorted_perm distance_km results)) in Hr.
    destruct (collect_reply_inv _ _ _ _ Hc)
      as [res [body [elements [els [Hp [_ [Hj [He [Hi Hl]]]]]]]]].
    destruct (collect_In _ _ _ _ _ Hl Hr) as [el [Hel Hpe]].
    destruct (process_element_inv _ _ _ _ Hpe)
      as [d [t [ss [lat2 [lon2 [-> [_ [_ [_ [_ [_ [Hco [N1 [N2 _]]]]]]]]]]]]]].
    destruct (coordinate_inv _ _ _ Hco N1 N2) as [ty [Hty Hll]].
    split; [exact N1|]. split; [exact N2|].
    exists m, res, body, elements, els, d, ty. repeat split; assumption.
  - intros el Hraw.
    destruct (coordinate_raw el Hraw) as [lat_e [lon_e Hco]].
    exists lat_e, lon_e. split; [exact Hco|]. intros Hn.
    pose proof (process_element_skip lat0 lon0 el lat_e lon_e Hraw Hco Hn)
      as Hskip.
    split; [exact Hskip|]. intros els1 els2.
    rewrite !collect_app. destruct (collect lat0 lon0 els1 []); simpl;
      [|reflexivity].
    rewrite Hskip. reflexivity.
Qed.

(** C5, as amended.  For an element that yields a result, with a key
    counted as present only when its value is non-empty: [name] is the
    first present of name and operator, else "Unknown"; [contact] is the
    first present of phone, contact:phone and telephone, else
    "Not available"; [address] is the present components joined with ", "
    in the order street, house number, city, postcode, state, country, and
    when none is present the addr:full tag, else "Not available".  In
    particular tags that omit the keys give the three defaults. *)
Theorem field_derivation (lat0 lon0 : float) (el : pyval)
    (r : AmenityResult) :
  process_element lat0 lon0 el = Ok (Some r) ->
  exists d t ss,
    el = PDict d /\ tags_of d = PDict t
    /\ name r = or_default (first_nonempty t NAME_KEYS) "Unknown"
    /\ contact r = or_default (first_nonempty t PHONE_KEYS) "Not available"
    /\ expect_strs (nonempty_values t ADDR_KEYS) = Ok ss
    /\ address r = address_of t ss
    /\ (dict_get t "name" = None -> dict_get t "operator" = None ->
        name r = PStr "Unknown")
    /\ (dict_get t "phone" = None -> dict_get t "contact:phone" = None ->
        dict_get t "telephone" = None ->
        contact r = PStr "Not available")
    /\ ((forall k, In k ADDR_KEYS -> dict_get t k = None) ->
        dict_get t "addr:full" = None ->
        address r = PStr "Not available").
Proof.
  intros H.
  destruct (process_element_inv _ _ _ _ H)
    as [d [t [ss [lat2 [lon2 [-> [Ht [Hn [Hc [Hs [Ha _]]]]]]]]]]].
  exists d, t, ss. repeat split; try assumption.
  - intros E1 E2. rewrite Hn. simpl. rewrite E1, E2. reflexivity.
  - intros E1 E2 E3. rewrite Hc. simpl. rewrite E1, E2, E3. reflexivity.
  - intros Hk Hf. rewrite Ha.
    assert (E : nonempty_values t ADDR_KEYS = []).
    { assert (G : forall ks, (forall k, In k ks -> dict_get t k = None) ->
                    nonempty_values t ks = []).
      { induction ks as [|k ks IH]; intros Hks; simpl; [reflexivity|].
        rewrite (Hks k (or_introl eq_refl)). apply IH.
        intros k' Hk'. apply Hks. right. exact Hk'. }
      apply G, Hk. }
    rewrite E in Hs. simpl in Hs. inversion Hs; subst. simpl.
    rewrite Hf. reflexivity.
Qed.

(** C6, as amended.  The outcome of the engine is a function of the one
    reply to the one request it posts.  A transport failure, a 4xx or 5xx
    status, a body that is not JSON, a body that is not an object, an
    [elements] value that cannot be iterated and an element that is not an
    object each make the engine raise, the exception of the transport or
    of the decoder unchanged, and no result is returned; a reply with no
    element, or with only elements that are skipped, gives the empty
    list. *)
Theorem backend_failure_propagates (cfg : Config) (post : Network)
    (lat0 lon0 radius_km : float) (amenity : string) (radius_m : Z) :
  int_of_float (radius_km * 1000) = Ok radius_m ->
  let reply :=
    post (OVERPASS_URL cfg) (query_text amenity radius_m lat0 lon0) 30 in
  let outcome := overpass_query cfg post lat0 lon0 radius_km amenity in
  (forall post' : Network,
     post' (OVERPASS_URL cfg) (query_text amenity radius_m lat0 lon0) 30
     = reply ->
     overpass_query cfg post' lat0 lon0 radius_km amenity = outcome)
  /\ (forall e, reply = Raise e -> outcome = Raise e)
  /\ (forall res, reply = Ok res ->
        (400 <= status_code res < 600)%Z -> outcome = Raise HTTPError)
  /\ (forall res, reply = Ok res ->
        ~ (400 <= status_code res < 600)%Z ->
        (forall e, json res = Raise e -> outcome = Raise e)
        /\ (forall body, json res = Ok body ->
              (forall d, body <> PDict d) -> outcome = Raise AttributeError)
        /\ (forall d v, json res = Ok (PDict d) ->
              dict_get d "elements" = Some v -> not_iterable v ->
              outcome = Raise TypeError)
        /\ (forall d els el, json res = Ok (PDict d) ->
              dict_get d "elements" = Some (PList els) ->
              In el els -> (forall d', el <> PDict d') -> raises outcome)
        /\ (forall d els, json res = Ok (PDict d) ->
              dict_get d "elements" = Some (PList els) ->
              Forall (fun el => process_element lat0 lon0 el = Ok None) els ->
              outcome = Ok [])).
Proof.
  intros Hm reply outcome.
  assert (Hq : outcome = process_reply cfg lat0 lon0 reply).
  { unfold outcome, overpass_query. rewrite Hm. reflexivity. }
  split.
  { intros post' Hp'. rewrite Hq. unfold overpass_query. rewrite Hm.
    cbn [bind]. rewrite Hp'. reflexivity. }
  rewrite Hq. unfold process_reply, collect_reply, raise_for_status.
  split; [intros e ->; reflexivity|].
  split.
  { intros res -> [H1 H2]. cbn [bind].
    apply Z.leb_le in H1. apply Z.ltb_lt in H2. rewrite H1, H2.
    reflexivity. }
  intros res -> Hs. cbn [bind].
  destruct ((400 <=? status_code res) && (status_code res <? 600))%Z eqn:E.
  { apply andb_prop in E. destruct E as [E1 E2].
    apply Z.leb_le in E1. apply Z.ltb_lt in E2. lia. }
  cbn [bind]. repeat split.
  - intros e ->. reflexivity.
  - intros body -> Hb. cbn [bind].
    destruct body; try reflexivity. exfalso. eapply Hb. reflexivity.
  - intros d v -> Hd Hv. cbn [bind]. unfold py_get. rewrite Hd.
    cbn [bind]. destruct v; try contradiction; reflexivity.
  - intros d els el -> Hd Hin Hel. cbn [bind]. unfold py_get. rewrite Hd.
    cbn [bind py_iter].
    destruct (collect_non_dict lat0 lon0 el els Hin Hel []) as [e He].
    rewrite He. exists e. reflexivity.
  - intros d els -> Hd Hall. cbn [bind]. unfold py_get. rewrite Hd.
    cbn [bind py_iter]. rewrite (collect_all_skipped _ _ _ Hall).
    cbn [bind sorted fold_right]. rewrite slice_to_nil. reflexivity.
Qed.

(** C9, as amended.  When [radius_km * 1000] converts to an integer, that
    integer is the exact value of the float product rounded toward zero.
    When moreover the amenity kind holds no double quote and no
    backslash, and the coordinates of the origin print as decimal
    numbers, the text the engine posts reads as one request only: format
    json, server-side timeout 25, exactly the three selectors node, way
    and relation in this order, each filtered by [amenity = amenity_kind]
    and by [around] the origin with that radius, and the output statement
    [out center]. *)
Theorem query_construction (cfg : Config) (post : Network)
    (lat0 lon0 radius_km : float) (amenity : string) (radius_m : Z) :
  int_of_float (radius_km * 1000) = Ok radius_m ->
  plain_text amenity = true ->
  number_text (float_str lat0) = true ->
  number_text (float_str lon0) = true ->
  let text := query_text amenity radius_m lat0 lon0 in
  let around g :=
    {| sel_geometry := g;
       sel_tag_key := "amenity";
       sel_tag_value := amenity;
       around_radius := radius_m;
       around_lat := float_str lat0;
       around_lon := float_str lon0 |} in
  (exists q, float_value (radius_km * 1000) = Some q /\ radius_m = Qtrunc q)
  /\ overpass_query cfg post lat0 lon0 radius_km amenity
     = process_reply cfg lat0 lon0 (post (OVERPASS_URL cfg) text 30)
  /\ parse_query text
     = Some {| ql_format := "json";
               ql_timeout := 25;
               ql_union := [around Node; around Way; around Relation];
               ql_out_center := true |}.
Proof.
  intros Hm Ha Hla Hlo text around.
  split; [apply int_of_float_trunc, Hm|]. split.
  - unfold overpass_query. rewrite Hm. reflexivity.
  - unfold text. rewrite query_text_render.
    rewrite parse_query_render; [reflexivity|].
    unfold wf_request, spec_request, wf_selector. simpl.
    rewrite Ha, Hla, Hlo. reflexivity.
Qed.

(** C10.  A reply with a status that is not an error and a JSON object
    body without an [elements] field is not a failure: the engine returns
    the empty list. *)
Theorem missing_elements_field (cfg : Config) (post : Network)
    (lat0 lon0 radius_km : float) (amenity : string) (radius_m : Z)
    (res : response) (d : list (string * pyval)) :
  int_of_float (radius_km * 1000) = Ok radius_m ->
  post (OVERPASS_URL cfg) (query_text amenity radius_m lat0 lon0) 30
  = Ok res ->
  raise_for_status res = Ok tt ->
  json res = Ok (PDict d) ->
  dict_get d "elements" = None ->
  overpass_query cfg post lat0 lon0 radius_km amenity = Ok [].
Proof.
  intros Hm Hp Hs Hj Hd.
  unfold overpass_query, process_reply, collect_reply.
  rewrite Hm. cbn [bind]. rewrite Hp. cbn [bind]. rewrite Hs. cbn [bind].
  rewrite Hj. cbn [bind]. unfold py_get. rewrite Hd.
  cbn [bind py_iter collect sorted fold_right].
  rewrite slice_to_nil. reflexivity.
Qed.

End EngineClaims.

(** ** Runs on the sample exchange *)

Lemma results_ranked_witness :
  exists out,
    overpass_query (P := approx_platform) default_config sample_post
      12.25 77.5 5 "hospital" = Ok out
    /\ (exists k, out = firstn k (sorted distance_km sample_results))
    /\ (exists res body elements els outs,
          sample_post (OVERPASS_URL default_config)
            (query_text (P := approx_platform) "hospital" 5000 12.25 77.5) 30
          = Ok res
          /\ json res = Ok body
          /\ py_get body "elements" (PList []) = Ok elements
          /\ py_iter elements = Ok els
          /\ Forall2
               (fun el o =>
                  process_element (P := approx_platform) 12.25 77.5 el = Ok o)
               els outs
          /\ sample_results = somes outs)
    /\ Permutation (sorted distance_km sample_results) sample_results
    /\ StronglySorted (key_le distance_km)
         (sorted distance_km sample_results)
    /\ (forall d,
          filter (fun r => distance_km r =? d)%float
            (sorted distance_km sample_results)
          = filter (fun r => distance_km r =? d)%float sample_results)
    /\ (forall i j ri rj, (i < j)%nat ->
          nth_error out i = Some ri -> nth_error out j = Some rj ->
          (distance_km ri <=? distance_km rj)%float = true).
Proof.
  apply (results_ranked_by_distance (P := approx_platform) default_config
           sample_post 12.25 77.5 5 "hospital" 5000 sample_results).
  - reflexivity.
  - vm_compute. reflexivity.
  - repeat constructor.
Defined.

(** C1 as stated fails on a reply with a coordinate that is not a number:
    the distance of that element is a NaN, which [<] does not order; the
    sort leaves the results in the order of the reply (no key is less
    than the one before it, so Python finds one ascending run), and the
    engine returns the distances 55.6, NaN, 27.8.  No arrangement of
    these results is in ascending order. *)
Lemma nan_distance_breaks_ranking :
  (forall (P : Platform) (lat1 lon1 lon2 c1 s2 p2 : float),
     math_sin nan = Ok nan -> float_pow nan 2 = Ok nan ->
     math_cos nan = Ok nan -> math_atan2 nan nan = Ok nan ->
     math_cos (radians lat1) = Ok c1 ->
     math_sin (radians (lon2 - lon1) / 2) = Ok s2 ->
     float_pow s2 2 = Ok p2 ->
     haversine_km lat1 lon1 nan lon2 = Ok nan)
  /\ valid_lat 12.25 = true /\ valid_lon 77.5 = true
  /\ exists r0 r1 r2,
       collect_reply (P := quiet_platform) 12.25 77.5
         (nan_post (OVERPASS_URL default_config)
            (query_text (P := quiet_platform) "hospital" 5000 12.25 77.5) 30)
       = Ok [r0; r1; r2]
       /\ overpass_query (P := quiet_platform) default_config nan_post
            12.25 77.5 5 "hospital" = Ok [r0; r1; r2]
       /\ name r0 = PStr "Far" /\ name r1 = PStr "Nowhere"
       /\ name r2 = PStr "City Hospital"
       /\ is_nan (distance_km r1) = true
       /\ (55.5 <? distance_km r0)%float = true
       /\ (distance_km r2 <? 28)%float = true
       /\ (distance_km r0 <=? distance_km r1)%float = false
       /\ (distance_km r1 <=? distance_km r2)%float = false
       /\ (distance_km r0 <=? distance_km r2)%float = false
       /\ forall out : list AmenityResult,
            Permutation out [r0; r1; r2] ->
            ~ StronglySorted (key_le distance_km) out.
Proof.
  split; [intros P; apply haversine_nan_latitude|].
  split; [reflexivity|]. split; [reflexivity|].
  destruct (collect_reply (P := quiet_platform) 12.25 77.5
              (nan_post EmptyString EmptyString 30))
    as [[|r0 [|r1 [|r2 [|r3 rs]]]]|e] eqn:E;
    try (vm_compute in E; discriminate).
  exists r0, r1, r2.
  assert (E' : [r0; r1; r2]
               = match collect_reply (P := quiet_platform) 12.25 77.5
                         (nan_post EmptyString EmptyString 30) with
                 | Ok rs => rs
                 | Raise _ => []
                 end) by (rewrite E; reflexivity).
  vm_compute in E'. inversion E'; subst r0 r1 r2. clear E E'.
  repeat (split; [vm_compute; reflexivity|]).
  intros out Hp Hs.
  assert (Hi : In {| name := PStr "Nowhere"; address := PStr "Not available";
                     contact := PStr "Not available"; lat := PFloat nan;
                     lon := PFloat 77.5; distance_km := nan |} out).
  { eapply Permutation_in; [symmetry; exact Hp|]. simpl. tauto. }
  pose proof (nan_key_unsorted distance_km out _ Hs Hi eq_refl) as Ho.
  apply Permutation_length in Hp. rewrite Ho in Hp. discriminate.
Qed.

Lemma results_truncated_witness :
  (0 <= MAX_RESULTS two_results_config)%Z
  /\ (Z.of_nat (List.length (firstn 2 (sorted distance_km sample_results)))
      <= MAX_RESULTS two_results_config)%Z.
Proof.
  split; [discriminate|].
  apply (results_truncated (P := approx_platform) two_results_config
           sample_post 12.25 77.5 5 "hospital").
  - discriminate.
  - vm_compute. reflexivity.
Defined.

Lemma coordinates_resolved_witness :
  (forall r, In r sample_results ->
     is_none (lat r) = false /\ is_none (lon r) = false)
  /\ process_element (P := approx_platform) 12.25 77.5 sample_way_no_center
     = Ok None.
Proof.
  destruct (coordinates_resolved (P := approx_platform) 12.25 77.5)
    as [Hres Hdrop].
  split.
  - intros r Hr.
    destruct (Hres default_config sample_post 5%float "hospital"
                (sorted distance_km sample_results) r) as [N1 [N2 _]].
    + vm_compute. reflexivity.
    + apply (Permutation_in _
               (Permutation_sym (sorted_perm distance_km sample_results))).
      exact Hr.
    + split; assumption.
  - destruct (Hdrop sample_way_no_center sample_way_no_center_raw)
      as [lat_e [lon_e [Hco Hskip]]].
    vm_compute in Hco. inversion Hco; subst.
    apply Hskip. reflexivity.
Defined.

Lemma field_derivation_witness :
  process_element (P := approx_platform) 12.25 77.5 sample_node
  = Ok (Some sample_node_result)
  /\ name sample_node_result = PStr "City Hospital"
  /\ exists d t ss,
       sample_node = PDict d /\ tags_of d = PDict t
       /\ name sample_node_result
          = or_default (first_nonempty t NAME_KEYS) "Unknown"
       /\ contact sample_node_result
          = or_default (first_nonempty t PHONE_KEYS) "Not available"
       /\ expect_strs (nonempty_values t ADDR_KEYS) = Ok ss
       /\ address sample_node_result = address_of t ss.
Proof.
  split; [vm_compute; reflexivity|]. split; [reflexivity|].
  destruct (field_derivation (P := approx_platform) 12.25 77.5
              sample_node sample_node_result)
    as [d [t [ss [Hd [Ht [Hn [Hc [Hs [Ha _]]]]]]]]].
  - vm_compute. reflexivity.
  - exists d, t, ss. repeat split; assumption.
Defined.

(** C5 as stated fails on tags with an empty value: the name is the
    operator although the name key is present, the contact is the
    telephone although the phone key is present, and the empty street is
    left out of the address. *)
Lemma empty_tag_values_skipped :
  exists r,
    process_element (P := approx_platform) 12.25 77.5 sample_empty_values
    = Ok (Some r)
    /\ or_default (first_present sample_empty_tags NAME_KEYS) "Unknown"
       = PStr EmptyString
    /\ name r = PStr "Trust"
    /\ or_default (first_present sample_empty_tags PHONE_KEYS) "Not available"
       = PStr EmptyString
    /\ contact r = PStr "100"
    /\ present_values sample_empty_tags ADDR_KEYS
       = [PStr EmptyString; PStr "Bengaluru"]
    /\ address r = PStr "Bengaluru".
Proof.
  eexists. repeat split; vm_compute; reflexivity.
Qed.

Lemma backend_failure_witness :
  overpass_query (P := approx_platform) default_config timeout_post
    12.25 77.5 5 "hospital" = Raise Timeout.
Proof.
  destruct (backend_failure_propagates (P := approx_platform) default_config
              timeout_post 12.25 77.5 5 "hospital" 5000 eq_refl)
    as [_ [H _]].
  apply H. reflexivity.
Defined.

(** C6 as stated fails on a status that is neither a success nor an
    error for [raise_for_status]: a reply with status 300 and a body is
    processed, and its element is returned.  A body of another structure
    than the expected one need not raise either: an [elements] value that
    is an empty object gives the empty list. *)
Lemma status_300_is_processed :
  is_2xx 300 = false
  /\ (exists r,
        overpass_query (P := approx_platform) default_config status_300_post
          12.25 77.5 5 "hospital" = Ok [r])
  /\ overpass_query (P := approx_platform) default_config
       elements_object_post 12.25 77.5 5 "hospital" = Ok [].
Proof.
  split; [reflexivity|]. split; [|reflexivity].
  eexists. vm_compute. reflexivity.
Qed.

Lemma query_construction_witness :
  int_of_float (2.75 * 1000) = Ok 2750%Z
  /\ plain_text "police" = true
  /\ parse_query (query_text (P := approx_platform) "police" 2750
                    12.25 (-77.5))
     = Some {| ql_format := "json";
               ql_timeout := 25;
               ql_union :=
                 map (fun g => {| sel_geometry := g;
                                  sel_tag_key := "amenity";
                                  sel_tag_value := "police";
                                  around_radius := 2750;
                                  around_lat := "12.250000";
                                  around_lon := "-77.500000" |})
                     [Node; Way; Relation];
               ql_out_center := true |}.
Proof.
  split; [reflexivity|]. split; [reflexivity|].
  apply (query_construction (P := approx_platform) default_config sample_post
           12.25 (-77.5) 2.75 "police" 2750); reflexivity.
Defined.

(** C9 as stated fails on an amenity kind that holds a double quote: the
    quote closes the tag text, and the posted query asks for six
    selectors, none of them filtered by the amenity kind.  This holds
    with any printing of the coordinates as decimal numbers; the four
    kinds the tools pass are plain. *)
Lemma quoted_amenity_adds_selectors :
  plain_text quoted_amenity = false
  /\ int_of_float (5 * 1000) = Ok 5000%Z
  /\ (forall (P : Platform) (radius_m : Z) (lat0 lon0 : float),
        number_text (float_str lat0) = true ->
        number_text (float_str lon0) = true ->
        parse_query (query_text quoted_amenity radius_m lat0 lon0)
        = Some (quoted_request radius_m lat0 lon0))
  /\ (forall (P : Platform) (radius_m : Z) (lat0 lon0 : float),
        map sel_geometry (ql_union (quoted_request radius_m lat0 lon0))
        = [Node; Node; Way; Node; Relation; Node]
        /\ map sel_tag_value (ql_union (quoted_request radius_m lat0 lon0))
           = ["x"; "y"; "x"; "y"; "x"; "y"]
        /\ map around_radius (ql_union (quoted_request radius_m lat0 lon0))
           = [1; radius_m; 1; radius_m; 1; radius_m]%Z)
  /\ (exists q,
        parse_query (query_text (P := approx_platform) quoted_amenity 5000
                       12.25 77.5) = Some q
        /\ List.length (ql_union q) = 6%nat
        /\ Forall (fun s => sel_tag_value s <> quoted_amenity) (ql_union q))
  /\ Forall (fun tool => plain_text (snd tool) = true) SEARCH_TOOLS.
Proof.
  split; [reflexivity|]. split; [reflexivity|]. split; [|split; [|split]].
  - intros P radius_m lat0 lon0 Hla Hlo. rewrite query_text_quoted.
    apply parse_query_render.
    unfold wf_request, quoted_request, wf_selector. simpl.
    rewrite Hla, Hlo. reflexivity.
  - intros P radius_m lat0 lon0. repeat split.
  - exists (quoted_request (P := approx_platform) 5000 12.25 77.5).
    split; [vm_compute; reflexivity|]. split; [reflexivity|].
    repeat (apply Forall_cons; [discriminate|]). apply Forall_nil.
  - repeat (apply Forall_cons; [reflexivity|]). apply Forall_nil.
Qed.

Lemma missing_elements_field_witness :
  overpass_query (P := approx_platform) default_config no_elements_post
    12.25 77.5 5 "hospital" = Ok [].
Proof.
  eapply (missing_elements_field (P := approx_platform) default_config
            no_elements_post 12.25 77.5 5 "hospital" 5000);
    reflexivity.
Defined.

(** * The tools and the HTTP route *)

Lemma slice_to_length {A : Type} (l : list A) (n : Z) :
  (0 <= n)%Z -> (Z.of_nat (List.length (slice_to l n)) <= n)%Z.
Proof.
  intros Hn. rewrite slice_to_nonneg by exact Hn.
  pose proof (firstn_le_length (Z.to_nat n) l). rewrite length_firstn. lia.
Qed.

Section ServiceClaims.
Context {P : Platform} {F : Framework} (st : Settings) (post : Network).

(** X1.  [call_tool] answers 404, "Tool not found", exactly for the names
    that are none of its five tools: an unknown name gives it whatever
    the other arguments and the backend are, and no known tool ends in a
    404. *)
Theorem unknown_tool_not_found (tool_name : string)
    (latitude longitude radius_km : option float) (token : option string) :
  (~ In tool_name TOOL_NAMES ->
   call_tool st post tool_name latitude longitude radius_km token
   = Failed (HTTPException 404 "Tool not found"))
  /\ (forall detail,
        call_tool st post tool_name latitude longitude radius_km token
        = Failed (HTTPException 404 detail) ->
        ~ In tool_name TOOL_NAMES).
Proof.
  split; [apply call_tool_unknown|].
  intros detail H Hin. unfold TOOL_NAMES in Hin. simpl in Hin.
  assert (Hs : forall amenity, In (tool_name, amenity) SEARCH_TOOLS -> False).
  { intros amenity Hi. rewrite (call_tool_search _ _ _ _ _ _ _ _ Hi) in H.
    unfold call_decorated in H.
    destruct tool_is_function; [|discriminate].
    destruct (overpass_query_opt _ _ _ _ _ _); discriminate. }
  destruct Hin as [<-|[<-|[<-|[<-|[<-|[]]]]]].
  - apply (Hs "hospital"). simpl. tauto.
  - apply (Hs "police"). simpl. tauto.
  - apply (Hs "fire_station"). simpl. tauto.
  - apply (Hs "townhall"). simpl. tauto.
  - rewrite call_tool_validate in H. unfold call_decorated, validate in H.
    destruct tool_is_function; [|discriminate].
    destruct (token_differs st token); discriminate.
Qed.

(** X2.  The owner's phone number leaves [call_tool] only through
    [validate] with the expected bearer token: a call returns a string
    only when the tool is ["validate"] and the token equals
    [EXPECTED_BEARER_TOKEN], and the string is [OWNER_PHONE_NUMBER]; where
    the decorated name is the function, the right token is answered with
    the number and any other token, or none, with a 401. *)
Theorem phone_number_disclosure (tool_name : string)
    (latitude longitude radius_km : option float) (token : option string) :
  (forall s,
     call_tool st post tool_name latitude longitude radius_km token
     = Returned (Text s) ->
     tool_name = "validate"
     /\ token = Some (EXPECTED_BEARER_TOKEN st)
     /\ s = OWNER_PHONE_NUMBER st)
  /\ (tool_is_function = true ->
      call_tool st post "validate" latitude longitude radius_km
        (Some (EXPECTED_BEARER_TOKEN st))
      = Returned (Text (OWNER_PHONE_NUMBER st)))
  /\ (tool_is_function = true ->
      token <> Some (EXPECTED_BEARER_TOKEN st) ->
      call_tool st post "validate" latitude longitude radius_km token
      = Failed (HTTPException 401 "Invalid bearer token")).
Proof.
  split; [|split].
  - intros s H.
    destruct (in_dec string_dec tool_name TOOL_NAMES) as [Hin|Hn];
      [|rewrite (call_tool_unknown _ _ _ _ _ _ _ Hn) in H; discriminate].
    assert (Hs : forall amenity,
               In (tool_name, amenity) SEARCH_TOOLS -> False).
    { intros amenity Hi. rewrite (call_tool_search _ _ _ _ _ _ _ _ Hi) in H.
      unfold call_decorated in H.
      destruct tool_is_function; [|discriminate].
      destruct (overpass_query_opt _ _ _ _ _ _); discriminate. }
    unfold TOOL_NAMES in Hin. simpl in Hin.
    destruct Hin as [<-|[<-|[<-|[<-|[<-|[]]]]]].
    + destruct (Hs "hospital"). simpl. tauto.
    + destruct (Hs "police"). simpl. tauto.
    + destruct (Hs "fire_station"). simpl. tauto.
    + destruct (Hs "townhall"). simpl. tauto.
    + rewrite call_tool_validate in H. unfold call_decorated, validate in H.
      destruct tool_is_function; [|discriminate].
      destruct (token_differs st token) eqn:Et; [discriminate|].
      apply token_differs_spec in Et. inversion H; subst. auto.
  - intros Hf. rewrite call_tool_validate. unfold call_decorated, validate.
    rewrite Hf.
    rewrite (proj2 (token_differs_spec st _) eq_refl). reflexivity.
  - intros Hf Ht. rewrite call_tool_validate. unfold call_decorated, validate.
    rewrite Hf. destruct (token_differs st token) eqn:Et; [reflexivity|].
    apply token_differs_spec in Et. contradiction.
Qed.

(** X3.  Where the decorated name is the function, each search tool of
    [call_tool] is the engine run for its own amenity (hospital, police,
    fire_station, townhall) with the coordinates and the radius of the
    call, the default radius when the call gives none; the bearer token
    plays no part; and the list returned has at most [MAX_RESULTS]
    entries when that setting is not negative. *)
Theorem search_tools_dispatch (tool_name amenity : string)
    (latitude longitude radius_km : option float) (token : option string) :
  tool_is_function = true ->
  In (tool_name, amenity) SEARCH_TOOLS ->
  let radius := radius_or_default st radius_km in
  call_tool st post tool_name latitude longitude radius_km token
  = amenities
      (overpass_query_opt (engine st) post latitude longitude radius amenity)
  /\ (forall lat0 lon0,
        latitude = Some lat0 -> longitude = Some lon0 ->
        call_tool st post tool_name latitude longitude radius_km token
        = amenities
            (overpass_query (engine st) post lat0 lon0 radius amenity))
  /\ (forall v,
        call_tool st post tool_name latitude longitude radius_km token
        = Returned v ->
        exists out,
          v = Amenities out
          /\ ((0 <= MAX_RESULTS (engine st))%Z ->
              (Z.of_nat (List.length out) <= MAX_RESULTS (engine st))%Z)).
Proof.
  intros Hf Hi radius.
  assert (E : call_tool st post tool_name latitude longitude radius_km token
              = amenities
                  (overpass_query_opt (engine st) post latitude longitude
                     radius amenity)).
  { rewrite (call_tool_search _ _ _ _ _ _ _ _ Hi). unfold call_decorated.
    rewrite Hf. reflexivity. }
  split; [exact E|]. split.
  - intros lat0 lon0 -> ->. rewrite E, overpass_query_opt_some. reflexivity.
  - intros v H. rewrite E in H.
    destruct (overpass_query_opt _ _ _ _ _ _) as [out|] eqn:Eo;
      [|discriminate].
    inversion H; subst. exists out. split; [reflexivity|]. intros Hm.
    unfold overpass_query_opt in Eo.
    repeat (let Q := fresh "Q" in
            apply bind_Ok_inv in Eo; destruct Eo as [? [Q Eo]]).
    inversion Eo; subst. apply slice_to_length, Hm.
Qed.

End ServiceClaims.

Lemma phone_number_disclosure_witness :
  call_tool (P := approx_platform) (F := function_tools) default_settings
    timeout_post "validate" None None None (Some "abc123token")
  = Returned (Text "919876543210")
  /\ call_tool (P := approx_platform) (F := function_tools) default_settings
       timeout_post "validate" None None None (Some "abc123")
     = Failed (HTTPException 401 "Invalid bearer token")
  /\ call_tool (P := approx_platform) (F := function_tools) default_settings
       timeout_post "validate" None None None None
     = Failed (HTTPException 401 "Invalid bearer token").
Proof.
  pose proof (phone_number_disclosure (P := approx_platform)
                (F := function_tools) default_settings timeout_post
                "validate" None None None) as H.
  split; [|split].
  - apply (H None). reflexivity.
  - apply (H (Some "abc123")); [reflexivity | discriminate].
  - apply (H None); [reflexivity | discriminate].
Defined.

Lemma search_tools_dispatch_witness :
  call_tool (P := approx_platform) (F := function_tools) default_settings
    sample_post "find_nearest_public_office" (Some 12.25%float)
    (Some 77.5%float) None None
  = amenities
      (overpass_query (P := approx_platform) default_config sample_post
         12.25 77.5 5 "townhall").
Proof.
  apply (search_tools_dispatch (P := approx_platform) (F := function_tools)
           default_settings sample_post "find_nearest_public_office"
           "townhall" (Some 12.25%float) (Some 77.5%float) None None).
  - reflexivity.
  - simpl. tauto.
  - reflexivity.
  - reflexivity.
Defined.

Lemma unknown_tool_not_found_witness :
  call_tool (P := approx_platform) (F := function_tools) default_settings
    sample_post "find_nearest_school" (Some 12.25%float) (Some 77.5%float)
    None (Some "abc123token")
  = Failed (HTTPException 404 "Tool not found").
Proof.
  apply (unknown_tool_not_found (P := approx_platform) (F := function_tools)
           default_settings sample_post "find_nearest_school").
  unfold TOOL_NAMES. simpl.
  intros [H|[H|[H|[H|[H|[]]]]]]; discriminate.
Defined.

(** * Further properties of the engine *)

Section EngineExtras.
Context {P : Platform}.

(** X4.  A call without a latitude or a longitude, which [call_tool]
    passes as [None], is not refused: the engine posts the query with the
    text [None] in the place of the coordinate.  A transport failure comes
    back as it is; a run that returns returns the empty list; and a reply
    with a located element makes the run raise. *)
Theorem missing_origin_query (cfg : Config) (post : Network)
    (lat0 lon0 : option float) (radius_km : float) (amenity : string)
    (radius_m : Z) :
  lat0 = None \/ lon0 = None ->
  int_of_float (radius_km * 1000) = Ok radius_m ->
  let reply :=
    post (OVERPASS_URL cfg) (query_text_opt amenity radius_m lat0 lon0) 30 in
  let outcome := overpass_query_opt cfg post lat0 lon0 radius_km amenity in
  (forall e, reply = Raise e -> outcome = Raise e)
  /\ (forall out, outcome = Ok out -> out = [])
  /\ (forall res body elements els el lat_e lon_e,
        reply = Ok res -> json res = Ok body ->
        py_get body "elements" (PList []) = Ok elements ->
        py_iter elements = Ok els ->
        In el els -> coordinate el = Ok (lat_e, lon_e) ->
        is_none lat_e = false -> is_none lon_e = false ->
        raises outcome).
Proof.
  intros Hm Hr reply outcome.
  assert (Inv : forall out, outcome = Ok out ->
            out = []
            /\ exists res body elements els,
                 reply = Ok res /\ json res = Ok body
                 /\ py_get body "elements" (PList []) = Ok elements
                 /\ py_iter elements = Ok els
                 /\ forall el lat_e lon_e, In el els ->
                      coordinate el = Ok (lat_e, lon_e) ->
                      is_none lat_e || is_none lon_e = true).
  { intros out H. unfold outcome, overpass_query_opt in H.
    rewrite Hr in H. cbn [bind] in H. fold reply in H.
    destruct reply as [res|] eqn:E0; [|discriminate]. cbn [bind] in H.
    destruct (raise_for_status res); [|discriminate]. cbn [bind] in H.
    destruct (json res) as [body|] eqn:E1; [|discriminate]. cbn [bind] in H.
    destruct (py_get body "elements" (PList [])) as [elements|] eqn:E2;
      [|discriminate].
    cbn [bind] in H.
    destruct (py_iter elements) as [els|] eqn:E3; [|discriminate].
    cbn [bind] in H.
    destruct (collect_opt lat0 lon0 els []) as [results|] eqn:E4;
      [|discriminate].
    cbn [bind] in H. inversion H; subst.
    destruct (collect_opt_missing _ _ _ _ _ Hm E4) as [-> Hc].
    split; [apply slice_to_nil|].
    exists res, body, elements, els. repeat split; auto. }
  split; [|split].
  - intros e He. unfold outcome, overpass_query_opt. rewrite Hr. cbn [bind].
    fold reply. rewrite He. reflexivity.
  - intros out H. apply (Inv out H).
  - intros res body elements els el lat_e lon_e H0 H1 H2 H3 Hi Hc N1 N2.
    destruct outcome as [out|e] eqn:Eo; [|exists e; reflexivity].
    destruct (Inv out eq_refl)
      as [_ [res' [body' [elements' [els' [R0 [R1 [R2 [R3 Hall]]]]]]]]].
    rewrite H0 in R0. inversion R0; subst res'.
    rewrite H1 in R1. inversion R1; subst body'.
    rewrite H2 in R2. inversion R2; subst elements'.
    rewrite H3 in R3. inversion R3; subst els'.
    specialize (Hall el lat_e lon_e Hi Hc). rewrite N1, N2 in Hall.
    discriminate.
Qed.

(** X5.  The radius is converted before the backend is contacted: when
    [radius_km * 1000] is a NaN the engine raises [ValueError], when it is
    an infinity (also by overflow of the product) [OverflowError],
    whatever the backend would answer; and when it is finite the
    conversion succeeds and the outcome is that of the reply to the
    posted query. *)
Theorem radius_checked_before_request (cfg : Config)
    (lat0 lon0 radius_km : float) (amenity : string) :
  (is_finite (radius_km * 1000) = true ->
   exists radius_m,
     int_of_float (radius_km * 1000) = Ok radius_m
     /\ forall post : Network,
          overpass_query cfg post lat0 lon0 radius_km amenity
          = process_reply cfg lat0 lon0
              (post (OVERPASS_URL cfg)
                 (query_text amenity radius_m lat0 lon0) 30))
  /\ (is_finite (radius_km * 1000) = false ->
      (is_nan (radius_km * 1000) = true
       /\ forall post : Network,
            overpass_query cfg post lat0 lon0 radius_km amenity
            = Raise ValueError)
      \/ (is_infinity (radius_km * 1000) = true
          /\ forall post : Network,
               overpass_query cfg post lat0 lon0 radius_km amenity
               = Raise OverflowError)).
Proof.
  split.
  - intros H. destruct (int_of_float_finite _ H) as [m Hm]. exists m.
    split; [exact Hm|]. intros post. unfold overpass_query. rewrite Hm.
    reflexivity.
  - intros H.
    destruct (int_of_float_not_finite _ H) as [[H1 H2]|[H1 H2]];
      [left | right]; (split; [exact H1|]); intros post;
      unfold overpass_query; rewrite H2; reflexivity.
Qed.

(** X6.  In every record the engine returns, [distance_km] is the value
    of [haversine_km] from the origin of the query to the record's own
    [lat] and [lon], read as floats. *)
Theorem distance_field_is_haversine (cfg : Config) (post : Network)
    (lat0 lon0 radius_km : float) (amenity : string)
    (out : list AmenityResult) (r : AmenityResult) :
  overpass_query cfg post lat0 lon0 radius_km amenity = Ok out ->
  In r out ->
  exists lat2 lon2,
    as_float (lat r) = Ok lat2 /\ as_float (lon r) = Ok lon2
    /\ haversine_km lat0 lon0 lat2 lon2 = Ok (distance_km r).
Proof.
  intros H Hi.
  destruct (overpass_query_inv _ _ _ _ _ _ _ H) as [m [results [_ [Hc ->]]]].
  apply In_slice_to in Hi.
  apply (Permutation_in _ (sorted_perm distance_km results)) in Hi.
  destruct (collect_reply_inv _ _ _ _ Hc)
    as [res [body [elements [els [_ [_ [_ [_ [_ Hl]]]]]]]]].
  destruct (collect_In _ _ _ _ _ Hl Hi) as [el [_ He]].
  destruct (process_element_inv _ _ _ _ He)
    as [d [t [ss [lat2 [lon2 [_ [_ [_ [_ [_ [_ [_ [_ [_ [B1 [B2 Hd]]]]]]]]]]]]]]]].
  exists lat2, lon2. auto.
Qed.

(** X7.  The name and the contact of a returned record are never empty
    (nor [None]): the literals "Unknown" and "Not available" stand in.
    The address is empty only where no address component is present and
    the element's tags bind [addr:full] to that empty value. *)
Theorem name_and_contact_never_empty (cfg : Config) (post : Network)
    (lat0 lon0 radius_km : float) (amenity : string)
    (out : list AmenityResult) (r : AmenityResult) :
  overpass_query cfg post lat0 lon0 radius_km amenity = Ok out ->
  In r out ->
  truthy (name r) = true
  /\ truthy (contact r) = true
  /\ (truthy (address r) = true
      \/ exists d t,
           process_element lat0 lon0 (PDict d) = Ok (Some r)
           /\ tags_of d = PDict t
           /\ nonempty_values t ADDR_KEYS = []
           /\ dict_get t "addr:full" = Some (address r)).
Proof.
  intros H Hi.
  destruct (overpass_query_inv _ _ _ _ _ _ _ H) as [m [results [_ [Hc ->]]]].
  apply In_slice_to in Hi.
  apply (Permutation_in _ (sorted_perm distance_km results)) in Hi.
  destruct (collect_reply_inv _ _ _ _ Hc)
    as [res [body [elements [els [_ [_ [_ [_ [_ Hl]]]]]]]]].
  destruct (collect_In _ _ _ _ _ Hl Hi) as [el [_ He]].
  destruct (process_element_inv _ _ _ _ He)
    as [d [t [ss [lat2 [lon2 [-> [Et [Hn [Hp [Hs [Ha _]]]]]]]]]]].
  split; [|split].
  - rewrite Hn. apply or_default_truthy. discriminate.
  - rewrite Hp. apply or_default_truthy. discriminate.
  - rewrite Ha. unfold address_of.
    pose proof (joined_truthy _ _ (nonempty_values_truthy t ADDR_KEYS) Hs)
      as Hj.
    destruct ss as [|s ss]; [|left; exact Hj].
    destruct (dict_get t "addr:full") as [v|] eqn:Ef; [|left; reflexivity].
    destruct (truthy v) eqn:Ev; [left; reflexivity|]. right.
    exists d, t. repeat split; auto.
    destruct (nonempty_values t ADDR_KEYS) as [|w l]; [reflexivity|].
    simpl in Hs. destruct w; try discriminate.
    destruct (expect_strs l); discriminate.
Qed.

(** X8.  The records returned are the nearest ones: with a maximum that
    is not negative and distances that are numbers, the output and the
    results left out make up the results of the loop, the output has
    [min MAX_RESULTS n] entries for [n] results, and no record left out
    is nearer than a record returned. *)
Theorem nearest_results_returned (cfg : Config) (post : Network)
    (lat0 lon0 radius_km : float) (amenity : string)
    (radius_m : Z) (results : list AmenityResult) :
  (0 <= MAX_RESULTS cfg)%Z ->
  int_of_float (radius_km * 1000) = Ok radius_m ->
  collect_reply lat0 lon0
    (post (OVERPASS_URL cfg) (query_text amenity radius_m lat0 lon0) 30)
  = Ok results ->
  no_nan distance_km results ->
  exists out rest,
    overpass_query cfg post lat0 lon0 radius_km amenity = Ok out
    /\ Permutation (out ++ rest) results
    /\ List.length out
       = Nat.min (Z.to_nat (MAX_RESULTS cfg)) (List.length results)
    /\ forall x y, In x out -> In y rest ->
         (distance_km x <=? distance_km y)%float = true.
Proof.
  intros Hm Hr Hc Hn.
  set (k := Z.to_nat (MAX_RESULTS cfg)).
  exists (firstn k (sorted distance_km results)),
         (skipn k (sorted distance_km results)).
  split; [|split; [|split]].
  - unfold overpass_query, process_reply. rewrite Hr. cbn [bind].
    rewrite Hc. cbn [bind]. rewrite slice_to_nonneg by exact Hm.
    reflexivity.
  - rewrite firstn_skipn. apply sorted_perm.
  - rewrite length_firstn.
    rewrite (Permutation_length (sorted_perm distance_km results)).
    reflexivity.
  - apply (StronglySorted_app_inv (key_le distance_km)).
    rewrite firstn_skipn. apply sorted_sorted, Hn.
Qed.


(** X10.  A negative [MAX_RESULTS] is not a bound.  With the setting
    [-k] and distances that are numbers, the engine leaves out the
    [min k n] farthest of the [n] results and returns the [n - k] others
    in ascending order of distance: no record left out is nearer than a
    record returned. *)
Theorem negative_max_results (cfg : Config) (post : Network)
    (lat0 lon0 radius_km : float) (amenity : string)
    (radius_m : Z) (results : list AmenityResult) :
  (MAX_RESULTS cfg < 0)%Z ->
  int_of_float (radius_km * 1000) = Ok radius_m ->
  collect_reply lat0 lon0
    (post (OVERPASS_URL cfg) (query_text amenity radius_m lat0 lon0) 30)
  = Ok results ->
  no_nan distance_km results ->
  exists out rest,
    overpass_query cfg post lat0 lon0 radius_km amenity = Ok out
    /\ Permutation (out ++ rest) results
    /\ List.length rest
       = Nat.min (Z.to_nat (- MAX_RESULTS cfg)) (List.length results)
    /\ List.length out
       = (List.length results - Z.to_nat (- MAX_RESULTS cfg))%nat
    /\ StronglySorted (key_le distance_km) out
    /\ forall x y, In x out -> In y rest ->
         (distance_km x <=? distance_km y)%float = true.
Proof.
  intros Hm Hr Hc Hn.
  set (k := (List.length results - Z.to_nat (- MAX_RESULTS cfg))%nat).
  pose proof (Permutation_length (sorted_perm distance_km results)) as Hl.
  pose proof (sorted_sorted distance_km results Hn) as Hs.
  exists (firstn k (sorted distance_km results)),
         (skipn k (sorted distance_km results)).
  split; [|split; [|split; [|split; [|split]]]].
  - unfold overpass_query, process_reply. rewrite Hr. cbn [bind].
    rewrite Hc. cbn [bind]. unfold slice_to.
    destruct (0 <=? MAX_RESULTS cfg)%Z eqn:E; [apply Z.leb_le in E; lia|].
    rewrite Hl. reflexivity.
  - rewrite firstn_skipn. apply sorted_perm.
  - rewrite length_skipn, Hl. unfold k. lia.
  - rewrite length_firstn, Hl. unfold k. lia.
  - apply StronglySorted_firstn, Hs.
  - apply (StronglySorted_app_inv (key_le distance_km)).
    rewrite firstn_skipn. exact Hs.
Qed.

(** X11.  One element that raises fails the whole search: when the
    processing of an element of the reply raises, the engine raises, and
    no result of the other elements is returned; the exception is the one
    of the first such element in the order of the reply. *)
Theorem failing_element_aborts (cfg : Config) (post : Network)
    (lat0 lon0 radius_km : float) (amenity : string) (radius_m : Z)
    (res : response) (body elements : pyval) (els : list pyval) :
  int_of_float (radius_km * 1000) = Ok radius_m ->
  post (OVERPASS_URL cfg) (query_text amenity radius_m lat0 lon0) 30
  = Ok res ->
  raise_for_status res = Ok tt ->
  json res = Ok body ->
  py_get body "elements" (PList []) = Ok elements ->
  py_iter elements = Ok els ->
  let outcome := overpass_query cfg post lat0 lon0 radius_km amenity in
  (forall el e, In el els -> process_element lat0 lon0 el = Raise e ->
     raises outcome)
  /\ (forall els1 el els2 e,
        els = (els1 ++ el :: els2)%list ->
        Forall (fun x => exists o, process_element lat0 lon0 x = Ok o) els1 ->
        process_element lat0 lon0 el = Raise e ->
        outcome = Raise e).
Proof.
  intros Hr Hp Hs Hj He Hi outcome.
  assert (Eo : outcome
               = (results <- collect lat0 lon0 els [] ;;
                  Ok (slice_to (sorted distance_km results)
                        (MAX_RESULTS cfg)))).
  { unfold outcome, overpass_query, process_reply, collect_reply.
    rewrite Hr. cbn [bind]. rewrite Hp. cbn [bind]. rewrite Hs. cbn [bind].
    rewrite Hj. cbn [bind]. rewrite He. cbn [bind]. rewrite Hi.
    reflexivity. }
  split.
  - intros el e Hin Hel.
    destruct (collect_any_failure lat0 lon0 els el e [] Hin Hel) as [e' He'].
    exists e'. rewrite Eo, He'. reflexivity.
  - intros els1 el els2 e -> H1 Hel. rewrite Eo.
    rewrite (collect_first_failure lat0 lon0 els1 els2 el e [] H1 Hel).
    reflexivity.
Qed.

(** X12.  The type of an element is read with [el["type"]]: a record
    without a [type] raises [KeyError], also when it carries a latitude
    and a longitude of its own (its tags being strings). *)
Theorem element_without_type (lat0 lon0 : float)
    (d t : list (string * pyval)) :
  tags_of d = PDict t -> string_valued t ->
  dict_get d "type" = None ->
  process_element lat0 lon0 (PDict d) = Raise KeyError.
Proof.
  intros Et St Hty. rewrite (process_element_tags lat0 lon0 d t Et).
  destruct (expect_strs_string_valued t ADDR_KEYS St) as [ss ->].
  cbn [bind]. unfold coordinate, py_getitem. rewrite Hty. reflexivity.
Qed.

(** X13.  The address components are joined as strings: a tag bag that
    binds one of the six component keys to a value that is true in a
    condition and is not a string (a number, say) makes the element
    raise [TypeError]. *)
Theorem non_string_address_component (lat0 lon0 : float)
    (d t : list (string * pyval)) (k : string) (v : pyval) :
  tags_of d = PDict t ->
  In k ADDR_KEYS -> dict_get t k = Some v ->
  truthy v = true -> (forall s, v <> PStr s) ->
  process_element lat0 lon0 (PDict d) = Raise TypeError.
Proof.
  intros Et Hk Hg Ht Hv. rewrite (process_element_tags lat0 lon0 d t Et).
  rewrite (expect_strs_not_str _ v (nonempty_values_In t _ k v Hk Hg Ht) Hv).
  reflexivity.
Qed.

End EngineExtras.

(** ** Runs on the sample data *)

Lemma missing_origin_query_witness :
  raises (overpass_query_opt (P := approx_platform) default_config
            sample_post None (Some 77.5%float) 5 "hospital")
  /\ overpass_query_opt (P := approx_platform) default_config
       no_elements_post None (Some 77.5%float) 5 "hospital" = Ok [].
Proof.
  split.
  - refine (proj2 (proj2 (missing_origin_query (P := approx_platform)
              default_config sample_post None (Some 77.5%float) 5
              "hospital" 5000 (or_introl eq_refl) eq_refl))
              _ _ _ _ sample_node (PFloat 12.5) (PFloat 77.5)
              eq_refl eq_refl eq_refl eq_refl _ eq_refl eq_refl eq_refl).
    simpl. tauto.
  - reflexivity.
Defined.

Lemma radius_checked_before_request_witness :
  (forall post : Network,
     overpass_query (P := approx_platform) default_config post 12.25 77.5
       nan "hospital" = Raise ValueError)
  \/ (forall post : Network,
        overpass_query (P := approx_platform) default_config post 12.25 77.5
          nan "hospital" = Raise OverflowError).
Proof.
  destruct (proj2 (radius_checked_before_request (P := approx_platform)
                     default_config 12.25 77.5 nan "hospital") eq_refl)
    as [[_ H]|[_ H]]; [left | right]; exact H.
Defined.

Lemma distance_field_is_haversine_witness :
  exists lat2 lon2,
    as_float (lat sample_node_result) = Ok lat2
    /\ as_float (lon sample_node_result) = Ok lon2
    /\ haversine_km (P := approx_platform) 12.25 77.5 lat2 lon2
       = Ok (distance_km sample_node_result).
Proof.
  apply (distance_field_is_haversine (P := approx_platform) default_config
           sample_post 12.25 77.5 5 "hospital"
           (sorted distance_km sample_results)).
  - vm_compute. reflexivity.
  - vm_compute. tauto.
Defined.

Lemma name_and_contact_never_empty_witness :
  truthy (name sample_node_result) = true
  /\ truthy (contact sample_node_result) = true
  /\ (truthy (address sample_node_result) = true
      \/ exists d t,
           process_element (P := approx_platform) 12.25 77.5 (PDict d)
           = Ok (Some sample_node_result)
           /\ tags_of d = PDict t
           /\ nonempty_values t ADDR_KEYS = []
           /\ dict_get t "addr:full" = Some (address sample_node_result)).
Proof.
  apply (name_and_contact_never_empty (P := approx_platform) default_config
           sample_post 12.25 77.5 5 "hospital"
           (sorted distance_km sample_results)).
  - vm_compute. reflexivity.
  - vm_compute. tauto.
Defined.

Lemma nearest_results_returned_witness :
  exists out rest,
    overpass_query (P := approx_platform) two_results_config sample_post
      12.25 77.5 5 "hospital" = Ok out
    /\ Permutation (out ++ rest) sample_results
    /\ List.length out
       = Nat.min (Z.to_nat (MAX_RESULTS two_results_config))
           (List.length sample_results)
    /\ forall x y, In x out -> In y rest ->
         (distance_km x <=? distance_km y)%float = true.
Proof.
  apply (nearest_results_returned (P := approx_platform) two_results_config
           sample_post 12.25 77.5 5 "hospital" 5000 sample_results).
  - discriminate.
  - reflexivity.
  - vm_compute. reflexivity.
  - unfold no_nan, sample_results.
    repeat (apply Forall_cons; [reflexivity|]).
    apply Forall_nil.
Defined.


Lemma negative_max_results_witness :
  exists out rest,
    overpass_query (P := approx_platform) negative_config sample_post
      12.25 77.5 5 "hospital" = Ok out
    /\ Permutation (out ++ rest) sample_results
    /\ List.length rest
       = Nat.min (Z.to_nat (- MAX_RESULTS negative_config))
           (List.length sample_results)
    /\ List.length out
       = (List.length sample_results
          - Z.to_nat (- MAX_RESULTS negative_config))%nat
    /\ StronglySorted (key_le distance_km) out
    /\ forall x y, In x out -> In y rest ->
         (distance_km x <=? distance_km y)%float = true.
Proof.
  apply (negative_max_results (P := approx_platform) negative_config
           sample_post 12.25 77.5 5 "hospital" 5000 sample_results).
  - reflexivity.
  - reflexivity.
  - vm_compute. reflexivity.
  - unfold no_nan, sample_results.
    repeat (apply Forall_cons; [reflexivity|]). apply Forall_nil.
Defined.

Lemma failing_element_aborts_witness :
  overpass_query (P := recorded_platform) default_config antipodal_post
    8 0 5 "hospital" = Raise ValueError.
Proof.
  refine (proj2 (failing_element_aborts (P := recorded_platform)
            default_config antipodal_post 8 0 5 "hospital" 5000
            _ _ _ _ eq_refl eq_refl eq_refl eq_refl eq_refl eq_refl)
            [near_node] antipodal_node [near_node] ValueError eq_refl _ _).
  - apply Forall_cons; [|apply Forall_nil]. eexists. vm_compute. reflexivity.
  - vm_compute. reflexivity.
Defined.

Lemma element_without_type_witness :
  process_element (P := approx_platform) 12.25 77.5 (PDict untyped_element)
  = Raise KeyError.
Proof.
  apply (element_without_type (P := approx_platform) 12.25 77.5
           untyped_element
           [("name", PStr "City Hospital");
            ("phone", PStr "+91 80 5550 0101");
            ("addr:street", PStr "MG Road");
            ("addr:city", PStr "Bengaluru")]).
  - reflexivity.
  - intros k v. simpl.
    repeat match goal with
    | |- context [String.eqb k ?s] => destruct (String.eqb k s)
    end; intros H; inversion H; eauto.
  - reflexivity.
Defined.

Lemma non_string_address_component_witness :
  process_element (P := approx_platform) 12.25 77.5
    (PDict numeric_housenumber_node) = Raise TypeError.
Proof.
  apply (non_string_address_component (P := approx_platform) 12.25 77.5
           numeric_housenumber_node numeric_housenumber_tags
           "addr:housenumber" (PInt 12)).
  - reflexivity.
  - simpl. tauto.
  - reflexivity.
  - reflexivity.
  - discriminate.
Defined.

(** The address, unlike the name and the contact, can be empty. *)
Example empty_full_address :
  exists r,
    process_element (P := approx_platform) 12.25 77.5 empty_full_address_node
    = Ok (Some r)
    /\ name r = PStr "Unknown"
    /\ contact r = PStr "Not available"
    /\ address r = PStr EmptyString.
Proof. eexists. split; [vm_compute; reflexivity|]. repeat split. Qed.

(** * Further properties of the distance calculator and the loop body *)

Section DistanceExtras.
Context {P : Platform}.

(** X14.  Between two valid points the distance, when the function
    returns, is a number that is not negative (so not a NaN either).  The
    hypotheses are facts of the math library: [sin] of a number is
    finite, the square of a finite number is finite when it is returned,
    a cosine lies in [-1, 1], and [atan2] is not negative in the first
    quadrant. *)
Theorem distance_not_negative (lat1 lon1 lat2 lon2 d : float) :
  sin_finite P -> square_finite P -> cos_range P -> atan2_nonneg P ->
  valid_lat lat1 = true -> valid_lon lon1 = true ->
  valid_lat lat2 = true -> valid_lon lon2 = true ->
  haversine_km lat1 lon1 lat2 lon2 = Ok d ->
  (0 <=? d)%float = true.
Proof.
  intros Hsin Hsq Hcos Hatan V1 W1 V2 W2 H.
  destruct (haversine_steps _ _ _ _ _ Hsin Hsq Hcos V1 W1 V2 W2 H)
    as [a [y [x [t [Na [Ey [Ex [Et ->]]]]]]]].
  pose proof (math_sqrt_nonneg _ _ Ey Na) as Hy.
  assert (N1a : is_nan (1 - a)%float = false).
  { apply not_nan_spec. rewrite sub_spec.
    change (Prim2SF 1) with (S754_finite false 4503599627370496 (-52)).
    apply SFsub_not_nan; [exact I | apply not_nan_spec, Na]. }
  pose proof (math_sqrt_nonneg _ _ Ex N1a) as Hx.
  assert (Hz : negative_zero y && negative_zero x = false).
  { destruct (negative_zero y) eqn:Ez; [|reflexivity].
    pose proof (math_sqrt_negative_zero _ _ Ey Ez) as ->.
    change (math_sqrt (1 - -0)) with (Ok 1%float) in Ex.
    inversion Ex; subst. reflexivity. }
  pose proof (Hatan _ _ _ Et Hy Hx Hz) as Ht.
  apply leb_zero_spec. rewrite mul_spec.
  change (Prim2SF (6371 * 2)%float)
    with (S754_finite false 7004988580560896 (-39)).
  apply SFmul_nonneg, leb_zero_spec, Ht.
Qed.

(** X15.  For a valid origin and located elements at valid coordinates
    the ranking needs no further assumption: every distance is a number,
    and the engine returns a list in which the distance does not decrease
    from an entry to a later one. *)
Theorem valid_points_ranked (cfg : Config) (post : Network)
    (lat0 lon0 radius_km : float) (amenity : string)
    (radius_m : Z) (results : list AmenityResult) :
  sin_finite P -> square_finite P -> cos_range P -> atan2_not_nan P ->
  valid_lat lat0 = true -> valid_lon lon0 = true ->
  int_of_float (radius_km * 1000) = Ok radius_m ->
  collect_reply lat0 lon0
    (post (OVERPASS_URL cfg) (query_text amenity radius_m lat0 lon0) 30)
  = Ok results ->
  Forall valid_coordinates results ->
  exists out,
    overpass_query cfg post lat0 lon0 radius_km amenity = Ok out
    /\ (forall r, In r results -> is_nan (distance_km r) = false)
    /\ StronglySorted (key_le distance_km) out.
Proof.
  intros Hsin Hsq Hcos Hatan V0 W0 Hm Hc Hv.
  destruct (collect_reply_inv _ _ _ _ Hc)
    as [res [body [elements [els [_ [_ [_ [_ [_ Hl]]]]]]]]].
  pose proof (valid_points_no_nan _ _ _ _ Hsin Hsq Hcos Hatan V0 W0 Hl Hv)
    as Hn.
  exists (slice_to (sorted distance_km results) (MAX_RESULTS cfg)).
  split; [|split].
  - unfold overpass_query, process_reply. rewrite Hm. cbn [bind].
    rewrite Hc. reflexivity.
  - apply Forall_forall. exact Hn.
  - destruct (slice_to_firstn (sorted distance_km results) (MAX_RESULTS cfg))
      as [k ->].
    apply StronglySorted_firstn, sorted_sorted, Hn.
Qed.

(** X16.  The tags are read before the coordinate: an element whose
    [tags] is not a record ([null], say) raises [AttributeError], also
    when it has no coordinate and would have been skipped. *)
Theorem tags_not_a_record (lat0 lon0 : float) (d : list (string * pyval))
    (v : pyval) :
  dict_get d "tags" = Some v -> (forall t, v <> PDict t) ->
  process_element lat0 lon0 (PDict d) = Raise AttributeError.
Proof.
  intros Hg Hv. unfold process_element. unfold py_get at 1. rewrite Hg.
  cbn [bind]. destruct v; try reflexivity. destruct (Hv d0). reflexivity.
Qed.

(** X17.  Of an element the loop body reads the keys [type], [lat],
    [lon], [center] and [tags], and of the tags the name, phone and
    address keys: two records that agree on those give the same outcome,
    whatever else (an id, other tags) they carry. *)
Theorem element_fields_read (lat0 lon0 : float)
    (d d' t t' : list (string * pyval)) :
  tags_of d = PDict t -> tags_of d' = PDict t' ->
  (forall k, In k TAG_KEYS -> dict_get t k = dict_get t' k) ->
  (forall k, In k COORDINATE_KEYS -> dict_get d k = dict_get d' k) ->
  process_element lat0 lon0 (PDict d) = process_element lat0 lon0 (PDict d').
Proof.
  intros Et Et' Ht Hd.
  rewrite (process_element_tags lat0 lon0 d t Et).
  rewrite (process_element_tags lat0 lon0 d' t' Et').
  assert (Hin : forall ks, incl ks TAG_KEYS ->
            forall k, In k ks -> dict_get t k = dict_get t' k).
  { intros ks Hi k Hk. apply Ht, Hi, Hk. }
  rewrite (nonempty_values_ext t t' ADDR_KEYS)
    by (apply Hin; unfold TAG_KEYS; intros k Hk;
        apply in_or_app; right; apply in_or_app; right;
        apply in_or_app; left; exact Hk).
  rewrite (first_nonempty_ext t t' NAME_KEYS)
    by (apply Hin; unfold TAG_KEYS; intros k Hk;
        apply in_or_app; left; exact Hk).
  rewrite (first_nonempty_ext t t' PHONE_KEYS)
    by (apply Hin; unfold TAG_KEYS; intros k Hk;
        apply in_or_app; right; apply in_or_app; left; exact Hk).
  rewrite (coordinate_ext d d' Hd).
  assert (Ha : forall ss, address_of t ss = address_of t' ss).
  { intros ss. unfold address_of.
    rewrite (Ht "addr:full") by (unfold TAG_KEYS; simpl; tauto).
    reflexivity. }
  apply bind_ext. intros ss. rewrite Ha. reflexivity.
Qed.

End DistanceExtras.

Lemma distance_not_negative_witness :
  (0 <=? distance_km sample_node_result)%float = true.
Proof.
  apply (distance_not_negative (P := guarded_platform) 12.25 77.5 12.5 77.5).
  - exact approx_sin_finite.
  - exact approx_square_finite.
  - exact approx_cos_range.
  - exact guarded_atan2_nonneg.
  - reflexivity.
  - reflexivity.
  - reflexivity.
  - reflexivity.
  - vm_compute. reflexivity.
Defined.

Lemma valid_points_ranked_witness :
  exists out,
    overpass_query (P := approx_platform) default_config sample_post
      12.25 77.5 5 "hospital" = Ok out
    /\ (forall r, In r sample_results -> is_nan (distance_km r) = false)
    /\ StronglySorted (key_le distance_km) out.
Proof.
  apply (valid_points_ranked (P := approx_platform) default_config
           sample_post 12.25 77.5 5 "hospital" 5000 sample_results).
  - exact approx_sin_finite.
  - exact approx_square_finite.
  - exact approx_cos_range.
  - exact approx_atan2_not_nan.
  - reflexivity.
  - reflexivity.
  - reflexivity.
  - vm_compute. reflexivity.
  - unfold sample_results.
    repeat (apply Forall_cons;
            [eexists; eexists;
             split; [reflexivity|];
             split; [reflexivity|];
             split; vm_compute; reflexivity|]).
    apply Forall_nil.
Defined.

Lemma tags_not_a_record_witness :
  process_element (P := approx_platform) 12.25 77.5 (PDict null_tags_way)
  = Raise AttributeError.
Proof.
  apply (tags_not_a_record (P := approx_platform) 12.25 77.5
           null_tags_way PNone).
  - reflexivity.
  - discriminate.
Defined.

Lemma element_fields_read_witness :
  process_element (P := approx_platform) 12.25 77.5
    (PDict sample_node_annotated)
  = process_element (P := approx_platform) 12.25 77.5 sample_node.
Proof.
  apply (element_fields_read (P := approx_platform) 12.25 77.5
           sample_node_annotated
           [("type", PStr "node"); ("id", PInt 1);
            ("lat", PFloat 12.5%float); ("lon", PFloat 77.5%float);
            ("tags", sample_tags_1)]
           [("amenity", PStr "hospital");
            ("name", PStr "City Hospital");
            ("opening_hours", PStr "24/7");
            ("phone", PStr "+91 80 5550 0101");
            ("addr:street", PStr "MG Road");
            ("addr:city", PStr "Bengaluru")]
           [("name", PStr "City Hospital");
            ("phone", PStr "+91 80 5550 0101");
            ("addr:street", PStr "MG Road");
            ("addr:city", PStr "Bengaluru")]).
  - reflexivity.
  - reflexivity.
  - intros k Hk. unfold TAG_KEYS in Hk. simpl in Hk.
    repeat (destruct Hk as [<-|Hk]; [reflexivity|]). contradiction.
  - intros k Hk. unfold COORDINATE_KEYS in Hk. simpl in Hk.
    repeat (destruct Hk as [<-|Hk]; [reflexivity|]). contradiction.
Defined.

(** * Two settings of the bound *)

(** X18.  Raising [MAX_RESULTS] only adds farther records: for two
    settings [0 <= n <= n'] of the bound and the same backend, the
    output under [n] is the first [n] entries of the output under [n']. *)
Theorem larger_bound_extends {P : Platform} (cfg cfg' : Config)
    (post : Network) (lat0 lon0 radius_km : float) (amenity : string)
    (out' : list AmenityResult) :
  OVERPASS_URL cfg = OVERPASS_URL cfg' ->
  (0 <= MAX_RESULTS cfg <= MAX_RESULTS cfg')%Z ->
  overpass_query cfg' post lat0 lon0 radius_km amenity = Ok out' ->
  overpass_query cfg post lat0 lon0 radius_km amenity
  = Ok (firstn (Z.to_nat (MAX_RESULTS cfg)) out').
Proof.
  intros Hu Hm H.
  destruct (overpass_query_inv _ _ _ _ _ _ _ H) as [m [results [Hr [Hc ->]]]].
  unfold overpass_query, process_reply. rewrite Hr. cbn [bind].
  rewrite Hu, Hc. cbn [bind].
  rewrite !slice_to_nonneg by lia. rewrite firstn_firstn.
  rewrite Nat.min_l by lia. reflexivity.
Qed.

Lemma larger_bound_extends_witness :
  overpass_query (P := approx_platform) two_results_config sample_post
    12.25 77.5 5 "hospital"
  = Ok (firstn (Z.to_nat (MAX_RESULTS two_results_config))
          (sorted distance_km sample_results)).
Proof.
  apply (larger_bound_extends (P := approx_platform) two_results_config
           default_config sample_post 12.25 77.5 5 "hospital"
           (sorted distance_km sample_results)).
  - reflexivity.
  - simpl. lia.
  - vm_compute. reflexivity.
Defined.
